(** * ai-chess-engine: evaluator, move endpoints and client move requester

    A shallow embedding of
      - [src/lib/simple-eval.ts]          ([evaluateBoard]),
      - [src/app/api/chess-move/route.ts] ([POST] and its helpers),
      - the handler of the chess-move-2 endpoint, which follows the
        health check in [src/app/api/health/route.ts] (its model choice
        and the richer prompt builder),
      - [src/lib/chess-ai.ts]             ([getAiMove]),
      - [src/hooks/useChessGame.ts]       (the result of a finished game),
    over an explicit interface to the rules engine (the [Chess] class of
    the chess.js package, which the repository imports and does not
    contain). *)

From Stdlib Require Import String Ascii List ZArith QArith Qround Qabs Bool Lia.
Import ListNotations.

Close Scope Q_scope.

Set Implicit Arguments.

(* ===================================================================== *)
(** ** JavaScript values used by the sources *)
(* ===================================================================== *)

Module JS.

Local Open Scope nat_scope.

Definition isUpper (c : ascii) : bool :=
  let n := nat_of_ascii c in (65 <=? n) && (n <=? 90).

Definition isLower (c : ascii) : bool :=
  let n := nat_of_ascii c in (97 <=? n) && (n <=? 122).

Definition lowerChar (c : ascii) : ascii :=
  if isUpper c then ascii_of_nat (nat_of_ascii c + 32) else c.

Definition upperChar (c : ascii) : ascii :=
  if isLower c then ascii_of_nat (nat_of_ascii c - 32) else c.

(** [String.prototype.toLowerCase] / [toUpperCase] on ASCII text. *)
Fixpoint toLowerCase (s : string) : string :=
  match s with
  | EmptyString => EmptyString
  | String c t => String (lowerChar c) (toLowerCase t)
  end.

Fixpoint toUpperCase (s : string) : string :=
  match s with
  | EmptyString => EmptyString
  | String c t => String (upperChar c) (toUpperCase t)
  end.

(** [s.startsWith(p)] *)
Fixpoint startsWith (s p : string) {struct p} : bool :=
  match p with
  | EmptyString => true
  | String a p' =>
      match s with
      | EmptyString => false
      | String b s' => Ascii.eqb a b && startsWith s' p'
      end
  end.

(** [s.includes(sub)] *)
Fixpoint includes (s sub : string) : bool :=
  startsWith s sub ||
  match s with
  | EmptyString => false
  | String _ t => includes t sub
  end.

(** A string is the UTF-8 text of a JavaScript string.  White space
    and line terminators, as [trim] removes them: the ASCII ones
    (U+0009 to U+000D, U+0020) are one byte, *)
Definition isSpace (c : ascii) : bool :=
  let n := nat_of_ascii c in
  (n =? 32) || ((9 <=? n) && (n <=? 13)).

(** U+00A0 is two bytes, *)
Definition isSpace2 (c1 c2 : ascii) : bool :=
  (nat_of_ascii c1 =? 194) && (nat_of_ascii c2 =? 160).

(** and U+1680, U+2000 to U+200A, U+2028, U+2029, U+202F, U+205F,
    U+3000 and U+FEFF are three. *)
Definition isSpace3 (c1 c2 c3 : ascii) : bool :=
  let n1 := nat_of_ascii c1 in
  let n2 := nat_of_ascii c2 in
  let n3 := nat_of_ascii c3 in
  ((n1 =? 225) && (n2 =? 154) && (n3 =? 128)) ||
  ((n1 =? 226) && (n2 =? 128) &&
   (((128 <=? n3) && (n3 <=? 138)) || (n3 =? 168) || (n3 =? 169) || (n3 =? 175))) ||
  ((n1 =? 226) && (n2 =? 129) && (n3 =? 159)) ||
  ((n1 =? 227) && (n2 =? 128) && (n3 =? 128)) ||
  ((n1 =? 239) && (n2 =? 187) && (n3 =? 191)).

Fixpoint trimStart (s : string) : string :=
  match s with
  | EmptyString => EmptyString
  | String c1 t1 =>
      if isSpace c1 then trimStart t1
      else
        match t1 with
        | EmptyString => s
        | String c2 t2 =>
            if isSpace2 c1 c2 then trimStart t2
            else
              match t2 with
              | EmptyString => s
              | String c3 t3 => if isSpace3 c1 c2 c3 then trimStart t3 else s
              end
        end
  end.

(** White space only, or empty. *)
Definition isBlank (s : string) : bool :=
  match trimStart s with
  | EmptyString => true
  | String _ _ => false
  end.

(** The text up to the white space that ends it. *)
Fixpoint trimEnd (s : string) : string :=
  match s with
  | EmptyString => EmptyString
  | String c t => if isBlank s then EmptyString else String c (trimEnd t)
  end.

Definition trim (s : string) : string := trimEnd (trimStart s).

(** [arr.join(sep)] *)
Definition join (sep : string) (l : list string) : string :=
  String.concat sep l.

(** [s.charAt(i)] as a one-character string (empty out of range). *)
Definition charAt (s : string) (i : nat) : string :=
  match String.get i s with
  | Some c => String c EmptyString
  | None => EmptyString
  end.

(** Decimal rendering of a non-negative integer, as template literals
    and [+=] on strings do. *)
Fixpoint digitsOf (fuel : nat) (n : nat) (acc : string) : string :=
  match fuel with
  | O => acc
  | S fuel' =>
      let acc' := String (ascii_of_nat (48 + n mod 10)) acc in
      if n / 10 =? 0 then acc' else digitsOf fuel' (n / 10) acc'
  end.

Definition showNat (n : nat) : string := digitsOf (S n) n EmptyString.

Definition showZ (z : Z) : string :=
  if (z <? 0)%Z then String "-" (showNat (Z.to_nat (- z)))
  else showNat (Z.to_nat z).

(** [arr[Math.floor(Math.random() * arr.length)]]: [r] is the number
    drawn by [Math.random()]; [undefined] is [None]. *)
Definition randomIndex (r : Q) (len : nat) : Z :=
  Qfloor (r * inject_Z (Z.of_nat len))%Q.

Definition randomElement {A : Type} (r : Q) (l : list A) : option A :=
  let i := randomIndex r (length l) in
  if (i <? 0)%Z then None else nth_error l (Z.to_nat i).

(** An [Error] object: its message, and the [code] and [status]
    properties that the OpenAI client sets on the errors it throws. *)
Record Error := mkError {
  message : string;
  code : option string;
  status : option Z
}.

Definition newError (msg : string) : Error :=
  {| message := msg; code := None; status := None |}.

(** JSON values: what [JSON.parse] yields and [JSON.stringify] takes. *)
#[warnings="-register-all"]
Inductive Json :=
| JNull
| JBool (b : bool)
| JNumber (q : Q)
| JString (s : string)
| JArray (items : list Json)
| JObject (fields : list (string * Json)).

(** An object literal: its properties in the order they are written. *)
Definition Object := list (string * Json).

Fixpoint prop (o : Object) (k : string) : option Json :=
  match o with
  | [] => None
  | (k', v) :: o' => if String.eqb k k' then Some v else prop o' k
  end.

(** [v.k] on a parsed value other than [null], for a name [k] that no
    prototype defines ([fen], [move]): [undefined] ([None]) on numbers,
    booleans, strings and arrays. *)
Definition field (v : Json) (k : string) : option Json :=
  match v with
  | JObject o => prop o k
  | _ => None
  end.

(** [!!v] *)
Definition truthy (v : Json) : bool :=
  match v with
  | JNull => false
  | JBool b => b
  | JNumber q => negb (Qeq_bool q 0)
  | JString s => negb (String.eqb s EmptyString)
  | JArray _ | JObject _ => true
  end.

(** The JSON values that are no strings. *)
Inductive NonString :=
| NSNull
| NSBool (b : bool)
| NSNumber (q : Q)
| NSArray (items : list Json)
| NSObject (o : Object).

Definition ofNonString (v : NonString) : Json :=
  match v with
  | NSNull => JNull
  | NSBool b => JBool b
  | NSNumber q => JNumber q
  | NSArray items => JArray items
  | NSObject o => JObject o
  end.

(** [typeof v === 'string'], with the value on either side. *)
Definition classify (v : Json) : string + NonString :=
  match v with
  | JNull => inr NSNull
  | JBool b => inr (NSBool b)
  | JNumber q => inr (NSNumber q)
  | JString s => inl s
  | JArray items => inr (NSArray items)
  | JObject o => inr (NSObject o)
  end.

Definition truthyOther (v : NonString) : bool := truthy (ofNonString v).

End JS.

(* ===================================================================== *)
(** ** The rules engine interface (chess.js [Chess]) *)
(* ===================================================================== *)

Inductive Color := WHITE | BLACK.

Inductive PieceSymbol := PAWN | KNIGHT | BISHOP | ROOK | QUEEN | KING.

Definition Color_eqb (a b : Color) : bool :=
  match a, b with
  | WHITE, WHITE | BLACK, BLACK => true
  | _, _ => false
  end.

Definition PieceSymbol_eqb (a b : PieceSymbol) : bool :=
  match a, b with
  | PAWN, PAWN | KNIGHT, KNIGHT | BISHOP, BISHOP
  | ROOK, ROOK | QUEEN, QUEEN | KING, KING => true
  | _, _ => false
  end.

Definition swapColor (c : Color) : Color :=
  match c with WHITE => BLACK | BLACK => WHITE end.

(** ['w'] / ['b'] and ['p'] .. ['k'] *)
Definition colorChar (c : Color) : string :=
  match c with WHITE => "w" | BLACK => "b" end.

Definition symbolChar (t : PieceSymbol) : string :=
  match t with
  | PAWN => "p" | KNIGHT => "n" | BISHOP => "b"
  | ROOK => "r" | QUEEN => "q" | KING => "k"
  end.

(** An entry of [game.board()]. *)
Record BoardSquare := mkBoardSquare {
  bs_square : string;
  bs_type : PieceSymbol;
  bs_color : Color
}.

(** A verbose move, as [game.moves({ verbose: true })] and
    [game.history({ verbose: true })] return them. *)
Record Move := mkMove {
  mv_color : Color;
  mv_from : string;
  mv_to : string;
  mv_piece : PieceSymbol;
  mv_captured : option PieceSymbol;
  mv_promotion : option PieceSymbol;
  mv_flags : string;
  mv_san : string;
  mv_lan : string
}.

(** The methods of [Chess] that the sources call.  The constructor and
    [move] throw; the thrown [Error] is the [inl] case. *)
Class ChessEngine := {
  Chess : Type;
  newChess : string -> JS.Error + Chess;
  fen : Chess -> string;
  turn : Chess -> Color;
  board : Chess -> list (list (option BoardSquare));
  history : Chess -> list Move;
  movesVerbose : Chess -> list Move;
  moves : Chess -> list string;
  move : Chess -> string -> JS.Error + Chess;
  isCheck : Chess -> bool;
  isCheckmate : Chess -> bool;
  isStalemate : Chess -> bool;
  isInsufficientMaterial : Chess -> bool;
  isThreefoldRepetition : Chess -> bool;
  isDraw : Chess -> bool;
  isGameOver : Chess -> bool
}.

(** What the constructor and [move] do with an argument that came out
    of [JSON.parse] and is no string.  The constructor throws (it calls
    [split] on its argument).  [move] plays a move or throws ([None]);
    no caller reads the error it throws. *)
Class ChessUntyped (E : ChessEngine) := {
  newChessOther : JS.NonString -> JS.Error;
  moveOther : Chess -> JS.NonString -> option Chess
}.

(* ===================================================================== *)
(** ** A reference model of the rules engine

    The repository delegates move generation and game-over detection to
    chess.js.  [ChessJs] models that library on its own data layout (the
    0x88 board, the move-flag bits, the offset tables), so that the
    theorems stated over [ChessEngine] can be run on concrete positions. *)
(* ===================================================================== *)

Module ChessJs.

Local Open Scope Z_scope.

Record Piece := mkPiece { p_color : Color; p_type : PieceSymbol }.

Record InternalMove := mkInternalMove {
  i_color : Color;
  i_from : Z;
  i_to : Z;
  i_piece : PieceSymbol;
  i_captured : option PieceSymbol;
  i_promotion : option PieceSymbol;
  i_flags : Z
}.

Definition EMPTY : Z := -1.

Definition BITS_NORMAL : Z := 1.
Definition BITS_CAPTURE : Z := 2.
Definition BITS_BIG_PAWN : Z := 4.
Definition BITS_EP_CAPTURE : Z := 8.
Definition BITS_PROMOTION : Z := 16.
Definition BITS_KSIDE_CASTLE : Z := 32.
Definition BITS_QSIDE_CASTLE : Z := 64.

Definition hasBit (flags bit : Z) : bool := negb (Z.land flags bit =? 0).

Definition RANK_1 : Z := 7.
Definition RANK_2 : Z := 6.
Definition RANK_7 : Z := 1.
Definition RANK_8 : Z := 0.

Definition SECOND_RANK (c : Color) : Z :=
  match c with BLACK => RANK_7 | WHITE => RANK_2 end.

Definition PAWN_OFFSETS (c : Color) : list Z :=
  match c with
  | BLACK => [16; 32; 17; 15]
  | WHITE => [-16; -32; -17; -15]
  end.

Definition PIECE_OFFSETS (t : PieceSymbol) : list Z :=
  match t with
  | KNIGHT => [-18; -33; -31; -14; 18; 33; 31; 14]
  | BISHOP => [-17; -15; 17; 15]
  | ROOK => [-16; 1; 16; -1]
  | QUEEN => [-17; -16; -15; 1; 17; 16; 15; -1]
  | KING => [-17; -16; -15; 1; 17; 16; 15; -1]
  | PAWN => []
  end.

Definition PROMOTIONS : list PieceSymbol := [KNIGHT; BISHOP; ROOK; QUEEN].

(** Squares in 0x88 numbering: a8 = 0, h8 = 7, a1 = 112, h1 = 119. *)
Definition rank (sq : Z) : Z := Z.shiftr sq 4.
Definition file (sq : Z) : Z := Z.land sq 15.
Definition offBoard (sq : Z) : bool := negb (Z.land sq 136 =? 0).

Definition algebraic (sq : Z) : string :=
  (JS.charAt "abcdefgh" (Z.to_nat (file sq)) ++
   JS.charAt "87654321" (Z.to_nat (rank sq)))%string.

(** The 64 squares in the order of the library's board loops. *)
Definition SQUARES : list Z :=
  flat_map (fun r => map (fun f => 16 * r + f) [0; 1; 2; 3; 4; 5; 6; 7])
           [0; 1; 2; 3; 4; 5; 6; 7].

(** [Ox88[name]]: the square of an algebraic name. *)
Definition squareOf (name : string) : option Z :=
  find (fun sq => String.eqb (algebraic sq) name) SQUARES.

(** The board array (128 cells, [None] for [undefined]). *)
Definition Board := list (option Piece).

Definition emptyBoard : Board := repeat None 128.

Definition get (b : Board) (sq : Z) : option Piece :=
  if sq <? 0 then None else nth (Z.to_nat sq) b None.

Fixpoint setNth (n : nat) (v : option Piece) (b : Board) : Board :=
  match b, n with
  | [], _ => []
  | _ :: t, O => v :: t
  | x :: t, S n' => x :: setNth n' v t
  end.

Definition set (b : Board) (sq : Z) (v : option Piece) : Board :=
  if sq <? 0 then b else setNth (Z.to_nat sq) v b.

Definition isEmptySq (b : Board) (sq : Z) : bool :=
  match get b sq with None => true | Some _ => false end.

(** The engine state: the fields of a [Chess] instance. *)
Record State := mkState {
  _board : Board;
  _turn : Color;
  _castlingW : Z;
  _castlingB : Z;
  _epSquare : Z;
  _halfMoves : Z;
  _moveNumber : Z;
  _history : list Move;
  _positionCount : list string
}.

Definition _castling (s : State) (c : Color) : Z :=
  match c with WHITE => _castlingW s | BLACK => _castlingB s end.

Definition kingSquare (b : Board) (c : Color) : Z :=
  match find (fun sq =>
                match get b sq with
                | Some p => Color_eqb (p_color p) c && PieceSymbol_eqb (p_type p) KING
                | None => false
                end) SQUARES with
  | Some sq => sq
  | None => EMPTY
  end.

(** *** Attacks *)

(** Walk from [from] in direction [offset] until [target], a piece or
    the edge of the board. *)
Fixpoint rayReaches (fuel : nat) (b : Board) (from offset target : Z) : bool :=
  match fuel with
  | O => false
  | S fuel' =>
      let j := from + offset in
      if offBoard j then false
      else if j =? target then true
      else if isEmptySq b j then rayReaches fuel' b j offset target
      else false
  end.

Definition memZ (x : Z) (l : list Z) : bool := existsb (Z.eqb x) l.

(** Does the piece [p] standing on [i] attack [square]? *)
Definition pieceAttacks (b : Board) (i : Z) (p : Piece) (square : Z) : bool :=
  let difference := i - square in
  match p_type p with
  | PAWN =>
      match p_color p with
      | WHITE => memZ difference [15; 17]
      | BLACK => memZ difference [-15; -17]
      end
  | KNIGHT => memZ (- difference) (PIECE_OFFSETS KNIGHT)
  | KING => memZ (- difference) (PIECE_OFFSETS KING)
  | t => existsb (fun off => rayReaches 7 b i off square) (PIECE_OFFSETS t)
  end.

(** [_attacked(color, square)] *)
Definition attacked (b : Board) (c : Color) (square : Z) : bool :=
  existsb (fun i =>
             match get b i with
             | Some p =>
                 Color_eqb (p_color p) c && negb (i =? square) &&
                 pieceAttacks b i p square
             | None => false
             end) SQUARES.

(** [_isKingAttacked(color)] *)
Definition isKingAttacked (b : Board) (c : Color) : bool :=
  let sq := kingSquare b c in
  if sq =? EMPTY then false else attacked b (swapColor c) sq.

(** *** Making a move *)

Definition ROOKS (c : Color) : list (Z * Z) :=
  match c with
  | WHITE => [(112, BITS_QSIDE_CASTLE); (119, BITS_KSIDE_CASTLE)]
  | BLACK => [(0, BITS_QSIDE_CASTLE); (7, BITS_KSIDE_CASTLE)]
  end.

(** Clear the castling flag of the first rook of [c] standing on [sq]
    whose flag is still set. *)
Fixpoint clearRookFlag (rooks : list (Z * Z)) (sq : Z) (castling : Z) : Z :=
  match rooks with
  | [] => castling
  | (rsq, flag) :: rest =>
      if (sq =? rsq) && hasBit castling flag then Z.lxor castling flag
      else clearRookFlag rest sq castling
  end.

(** [_makeMove]: the board and the counters after [m]; the move list
    and the position counts are kept by [move] below. *)
Definition makeMove (s : State) (m : InternalMove) : State :=
  let us := _turn s in
  let them := swapColor us in
  let b0 := _board s in
  let b1 := set (set b0 (i_to m) (get b0 (i_from m))) (i_from m) None in
  let b2 :=
    if hasBit (i_flags m) BITS_EP_CAPTURE then
      match us with
      | BLACK => set b1 (i_to m - 16) None
      | WHITE => set b1 (i_to m + 16) None
      end
    else b1 in
  let b3 :=
    match i_promotion m with
    | Some t => set b2 (i_to m) (Some (mkPiece us t))
    | None => b2
    end in
  let movedKing :=
    match get b3 (i_to m) with
    | Some p => PieceSymbol_eqb (p_type p) KING
    | None => false
    end in
  let b4 :=
    if movedKing then
      if hasBit (i_flags m) BITS_KSIDE_CASTLE then
        set (set b3 (i_to m - 1) (get b3 (i_to m + 1))) (i_to m + 1) None
      else if hasBit (i_flags m) BITS_QSIDE_CASTLE then
        set (set b3 (i_to m + 1) (get b3 (i_to m - 2))) (i_to m - 2) None
      else b3
    else b3 in
  let cu0 := if movedKing then 0 else _castling s us in
  let cu1 := if cu0 =? 0 then cu0 else clearRookFlag (ROOKS us) (i_from m) cu0 in
  let ct0 := _castling s them in
  let ct1 := if ct0 =? 0 then ct0 else clearRookFlag (ROOKS them) (i_to m) ct0 in
  let ep :=
    if hasBit (i_flags m) BITS_BIG_PAWN then
      match us with
      | BLACK => i_to m - 16
      | WHITE => i_to m + 16
      end
    else EMPTY in
  let half :=
    if PieceSymbol_eqb (i_piece m) PAWN then 0
    else if hasBit (i_flags m) (Z.lor BITS_CAPTURE BITS_EP_CAPTURE) then 0
    else _halfMoves s + 1 in
  {| _board := b4;
     _turn := them;
     _castlingW := match us with WHITE => cu1 | BLACK => ct1 end;
     _castlingB := match us with WHITE => ct1 | BLACK => cu1 end;
     _epSquare := ep;
     _halfMoves := half;
     _moveNumber := match us with BLACK => _moveNumber s + 1 | WHITE => _moveNumber s end;
     _history := _history s;
     _positionCount := _positionCount s |}.

(** *** Move generation *)

(** [addMove]: a pawn reaching the last rank yields one move per
    promotion piece. *)
Definition addMove (c : Color) (from to : Z) (piece : PieceSymbol)
           (captured : option PieceSymbol) (flags : Z) : list InternalMove :=
  let r := rank to in
  if PieceSymbol_eqb piece PAWN && ((r =? RANK_1) || (r =? RANK_8)) then
    map (fun promo =>
           mkInternalMove c from to piece captured (Some promo)
                          (Z.lor flags BITS_PROMOTION)) PROMOTIONS
  else [mkInternalMove c from to piece captured None flags].

Definition pawnMoves (s : State) (from : Z) : list InternalMove :=
  let us := _turn s in
  let them := swapColor us in
  let b := _board s in
  let off j := nth j (PAWN_OFFSETS us) 0 in
  let to1 := from + off 0%nat in
  (if isEmptySq b to1 then
     addMove us from to1 PAWN None BITS_NORMAL ++
     (let to2 := from + off 1%nat in
      if (SECOND_RANK us =? rank from) && isEmptySq b to2
      then addMove us from to2 PAWN None BITS_BIG_PAWN
      else [])
   else []) ++
  flat_map (fun j =>
              let to := from + off j in
              if offBoard to then []
              else
                match get b to with
                | Some p =>
                    if Color_eqb (p_color p) them
                    then addMove us from to PAWN (Some (p_type p)) BITS_CAPTURE
                    else if to =? _epSquare s
                         then addMove us from to PAWN (Some PAWN) BITS_EP_CAPTURE
                         else []
                | None =>
                    if to =? _epSquare s
                    then addMove us from to PAWN (Some PAWN) BITS_EP_CAPTURE
                    else []
                end) [2%nat; 3%nat].

(** The inner [while (true)] of the piece loop, one direction. *)
Fixpoint slide (fuel : nat) (s : State) (from cur offset : Z) (t : PieceSymbol)
  : list InternalMove :=
  match fuel with
  | O => []
  | S fuel' =>
      let us := _turn s in
      let to := cur + offset in
      if offBoard to then []
      else
        match get (_board s) to with
        | None =>
            addMove us from to t None BITS_NORMAL ++
            (if PieceSymbol_eqb t KNIGHT || PieceSymbol_eqb t KING then []
             else slide fuel' s from to offset t)
        | Some p =>
            if Color_eqb (p_color p) us then []
            else addMove us from to t (Some (p_type p)) BITS_CAPTURE
        end
  end.

Definition pieceMoves (s : State) (from : Z) (t : PieceSymbol) : list InternalMove :=
  flat_map (fun offset => slide 8 s from from offset t) (PIECE_OFFSETS t).

(** The [piece] option of [_moves], lower-cased: [undefined], one of
    the six piece letters, the empty string, or any other text. *)
Inductive PieceFilter :=
| AnyPiece
| OnlyPiece (t : PieceSymbol)
| EmptyPiece
| OtherPiece.

(** [!(forPiece && forPiece !== type)] *)
Definition wantPiece (forPiece : PieceFilter) (t : PieceSymbol) : bool :=
  match forPiece with
  | AnyPiece | EmptyPiece => true
  | OnlyPiece f => PieceSymbol_eqb f t
  | OtherPiece => false
  end.

(** [forPiece === undefined || forPiece === KING] *)
Definition wantCastling (forPiece : PieceFilter) : bool :=
  match forPiece with
  | AnyPiece | OnlyPiece KING => true
  | _ => false
  end.

Definition castlingMoves (s : State) : list InternalMove :=
  let us := _turn s in
  let them := swapColor us in
  let b := _board s in
  let k := kingSquare b us in
  (if hasBit (_castling s us) BITS_KSIDE_CASTLE then
     let castlingFrom := k in
     let castlingTo := castlingFrom + 2 in
     if isEmptySq b (castlingFrom + 1) && isEmptySq b castlingTo &&
        negb (attacked b them k) &&
        negb (attacked b them (castlingFrom + 1)) &&
        negb (attacked b them castlingTo)
     then addMove us k castlingTo KING None BITS_KSIDE_CASTLE
     else []
   else []) ++
  (if hasBit (_castling s us) BITS_QSIDE_CASTLE then
     let castlingFrom := k in
     let castlingTo := castlingFrom - 2 in
     if isEmptySq b (castlingFrom - 1) && isEmptySq b (castlingFrom - 2) &&
        isEmptySq b (castlingFrom - 3) &&
        negb (attacked b them k) &&
        negb (attacked b them (castlingFrom - 1)) &&
        negb (attacked b them castlingTo)
     then addMove us k castlingTo KING None BITS_QSIDE_CASTLE
     else []
   else []).

(** [_moves({ legal: false, piece })] *)
Definition pseudoMoves (s : State) (forPiece : PieceFilter) : list InternalMove :=
  let us := _turn s in
  flat_map (fun from =>
              match get (_board s) from with
              | Some p =>
                  if Color_eqb (p_color p) us && wantPiece forPiece (p_type p) then
                    match p_type p with
                    | PAWN => pawnMoves s from
                    | t => pieceMoves s from t
                    end
                  else []
              | None => []
              end) SQUARES ++
  (if wantCastling forPiece then castlingMoves s else []).

(** [_moves({ legal: true, piece })]: the pseudo-legal moves that do
    not leave the mover's king attacked. *)
Definition legalMoves (s : State) (forPiece : PieceFilter) : list InternalMove :=
  let us := _turn s in
  let ms := pseudoMoves s forPiece in
  if kingSquare (_board s) us =? EMPTY then ms
  else filter (fun m => negb (isKingAttacked (_board (makeMove s m)) us)) ms.

Definition inCheck (s : State) : bool := isKingAttacked (_board s) (_turn s).

Definition noMoves (s : State) : bool :=
  match legalMoves s AnyPiece with [] => true | _ :: _ => false end.

(** *** Game status *)

Definition isCheck (s : State) : bool := inCheck s.

Definition isCheckmate (s : State) : bool := isCheck s && noMoves s.

Definition isStalemate (s : State) : bool := negb (isCheck s) && noMoves s.

(** The colour (0 or 1) that the library's loop assigns to a square. *)
Definition squareColor (sq : Z) : Z := (rank sq + file sq + 1) mod 2.

Definition countPieces (b : Board) (keep : Piece -> bool) : Z :=
  Z.of_nat (length (filter (fun sq =>
                              match get b sq with
                              | Some p => keep p
                              | None => false
                              end) SQUARES)).

Definition bishopColors (b : Board) : list Z :=
  flat_map (fun sq =>
              match get b sq with
              | Some p => if PieceSymbol_eqb (p_type p) BISHOP then [squareColor sq] else []
              | None => []
              end) SQUARES.

Definition isInsufficientMaterial (s : State) : bool :=
  let b := _board s in
  let numPieces := countPieces b (fun _ => true) in
  let bishops := bishopColors b in
  let knights := countPieces b (fun p => PieceSymbol_eqb (p_type p) KNIGHT) in
  let numBishops := Z.of_nat (length bishops) in
  if numPieces =? 2 then true
  else if (numPieces =? 3) && ((numBishops =? 1) || (knights =? 1)) then true
  else if numPieces =? numBishops + 2 then
    let sum := fold_left Z.add bishops 0 in
    (sum =? 0) || (sum =? numBishops)
  else false.

(** *** FEN output *)

Definition pieceChar (p : Piece) : string :=
  match p_color p with
  | WHITE => JS.toUpperCase (symbolChar (p_type p))
  | BLACK => symbolChar (p_type p)
  end.

Definition flushEmpty (empty : Z) : string :=
  if 0 <? empty then JS.showZ empty else EmptyString.

Fixpoint fenRank (b : Board) (sqs : list Z) (empty : Z) : string :=
  match sqs with
  | [] => flushEmpty empty
  | sq :: rest =>
      match get b sq with
      | Some p => (flushEmpty empty ++ pieceChar p ++ fenRank b rest 0)%string
      | None => fenRank b rest (empty + 1)
      end
  end.

Definition fenBoard (b : Board) : string :=
  JS.join "/" (map (fun r => fenRank b (map (fun f => 16 * r + f) [0; 1; 2; 3; 4; 5; 6; 7]) 0)
                   [0; 1; 2; 3; 4; 5; 6; 7]).

Definition fenCastling (s : State) : string :=
  let c :=
    ((if hasBit (_castlingW s) BITS_KSIDE_CASTLE then "K" else EmptyString) ++
     (if hasBit (_castlingW s) BITS_QSIDE_CASTLE then "Q" else EmptyString) ++
     (if hasBit (_castlingB s) BITS_KSIDE_CASTLE then "k" else EmptyString) ++
     (if hasBit (_castlingB s) BITS_QSIDE_CASTLE then "q" else EmptyString))%string in
  match c with EmptyString => "-"%string | _ => c end.

(** The en-passant field is printed only when a pawn of the side to
    move can legally capture on that square. *)
Definition fenEpSquare (s : State) : string :=
  if _epSquare s =? EMPTY then "-"%string
  else
    let us := _turn s in
    let bigPawnSquare := _epSquare s + (match us with WHITE => 16 | BLACK => -16 end) in
    let canCapture square :=
      if offBoard square then false
      else
        match get (_board s) square with
        | Some p =>
            if Color_eqb (p_color p) us && PieceSymbol_eqb (p_type p) PAWN then
              negb (isKingAttacked
                      (_board (makeMove s (mkInternalMove us square (_epSquare s) PAWN
                                                          (Some PAWN) None BITS_EP_CAPTURE)))
                      us)
            else false
        | None => false
        end in
    if existsb canCapture [bigPawnSquare + 1; bigPawnSquare - 1]
    then algebraic (_epSquare s)
    else "-"%string.

Definition fen (s : State) : string :=
  JS.join " " [fenBoard (_board s); colorChar (_turn s); fenCastling s;
               fenEpSquare s; JS.showZ (_halfMoves s); JS.showZ (_moveNumber s)].

(** *** Standard algebraic notation *)

Definition countWhere (f : InternalMove -> bool) (ms : list InternalMove) : nat :=
  length (filter f ms).

Definition getDisambiguator (m : InternalMove) (ms : list InternalMove) : string :=
  let ambiguous o :=
    PieceSymbol_eqb (i_piece m) (i_piece o) &&
    negb (i_from m =? i_from o) && (i_to m =? i_to o) in
  let ambiguities := countWhere ambiguous ms in
  let sameRank := countWhere (fun o => ambiguous o && (rank (i_from m) =? rank (i_from o))) ms in
  let sameFile := countWhere (fun o => ambiguous o && (file (i_from m) =? file (i_from o))) ms in
  if (0 <? ambiguities)%nat then
    if (0 <? sameRank)%nat && (0 <? sameFile)%nat then algebraic (i_from m)
    else if (0 <? sameFile)%nat then JS.charAt (algebraic (i_from m)) 1
    else JS.charAt (algebraic (i_from m)) 0
  else EmptyString.

(** [_moveToSan(move, moves)] *)
Definition moveToSan (s : State) (m : InternalMove) (ms : list InternalMove) : string :=
  let output :=
    if hasBit (i_flags m) BITS_KSIDE_CASTLE then "O-O"%string
    else if hasBit (i_flags m) BITS_QSIDE_CASTLE then "O-O-O"%string
    else
      ((if PieceSymbol_eqb (i_piece m) PAWN then EmptyString
        else JS.toUpperCase (symbolChar (i_piece m)) ++ getDisambiguator m ms) ++
       (if hasBit (i_flags m) (Z.lor BITS_CAPTURE BITS_EP_CAPTURE) then
          (if PieceSymbol_eqb (i_piece m) PAWN
           then JS.charAt (algebraic (i_from m)) 0 else EmptyString) ++ "x"
        else EmptyString) ++
       algebraic (i_to m) ++
       (match i_promotion m with
        | Some t => "=" ++ JS.toUpperCase (symbolChar t)
        | None => EmptyString
        end))%string in
  let after := makeMove s m in
  if isCheck after then
    if isCheckmate after then (output ++ "#")%string else (output ++ "+")%string
  else output.

Definition flagsText (flags : Z) : string :=
  ((if hasBit flags BITS_NORMAL then "n" else EmptyString) ++
   (if hasBit flags BITS_CAPTURE then "c" else EmptyString) ++
   (if hasBit flags BITS_BIG_PAWN then "b" else EmptyString) ++
   (if hasBit flags BITS_EP_CAPTURE then "e" else EmptyString) ++
   (if hasBit flags BITS_PROMOTION then "p" else EmptyString) ++
   (if hasBit flags BITS_KSIDE_CASTLE then "k" else EmptyString) ++
   (if hasBit flags BITS_QSIDE_CASTLE then "q" else EmptyString))%string.

(** [new Move(chess, internal)]; [ms] is [chess._moves({ legal: true })]. *)
Definition prettyMoveWith (s : State) (ms : list InternalMove) (m : InternalMove) : Move :=
  {| mv_color := i_color m;
     mv_from := algebraic (i_from m);
     mv_to := algebraic (i_to m);
     mv_piece := i_piece m;
     mv_captured := i_captured m;
     mv_promotion := i_promotion m;
     mv_flags := flagsText (i_flags m);
     mv_san := moveToSan s m ms;
     mv_lan := (algebraic (i_from m) ++ algebraic (i_to m) ++
                match i_promotion m with
                | Some t => symbolChar t
                | None => EmptyString
                end)%string |}.

Definition prettyMove (s : State) (m : InternalMove) : Move :=
  prettyMoveWith s (legalMoves s AnyPiece) m.

(** [moves({ verbose: true })] and [moves()] *)
Definition movesVerbose (s : State) : list Move :=
  let ms := legalMoves s AnyPiece in
  map (prettyMoveWith s ms) ms.

Definition moves (s : State) : list string :=
  let ms := legalMoves s AnyPiece in
  map (fun m => moveToSan s m ms) ms.

(** [board()] *)
Definition board (s : State) : list (list (option BoardSquare)) :=
  map (fun r =>
         map (fun f =>
                let sq := 16 * r + f in
                match get (_board s) sq with
                | Some p => Some (mkBoardSquare (algebraic sq) (p_type p) (p_color p))
                | None => None
                end) [0; 1; 2; 3; 4; 5; 6; 7])
      [0; 1; 2; 3; 4; 5; 6; 7].

(** *** Position counts and draws *)

(** [str.split(sep)] for a one-character separator; with [merge] a run
    of separators counts once, as for the pattern [/\s+/]. *)
Fixpoint splitAux (isSep : ascii -> bool) (merge : bool) (s : string)
         (cur : string) (inRun : bool) : list string :=
  match s with
  | EmptyString => [cur]
  | String c t =>
      if isSep c then
        if merge && inRun then splitAux isSep merge t cur true
        else cur :: splitAux isSep merge t EmptyString true
      else splitAux isSep merge t (cur ++ String c EmptyString)%string false
  end.

Definition splitSpaces (s : string) : list string :=
  splitAux JS.isSpace true s EmptyString false.

Definition splitOn (sep : ascii) (s : string) : list string :=
  splitAux (Ascii.eqb sep) false s EmptyString false.

(** [trimFen]: the first four fields. *)
Definition trimFen (f : string) : string :=
  JS.join " " (firstn 4 (splitOn " " f)).

Definition getPositionCount (s : State) (f : string) : nat :=
  length (filter (String.eqb (trimFen f)) (_positionCount s)).

Definition incPositionCount (s : State) (f : string) : State :=
  {| _board := _board s; _turn := _turn s;
     _castlingW := _castlingW s; _castlingB := _castlingB s;
     _epSquare := _epSquare s; _halfMoves := _halfMoves s;
     _moveNumber := _moveNumber s; _history := _history s;
     _positionCount := trimFen f :: _positionCount s |}.

Definition isThreefoldRepetition (s : State) : bool :=
  (3 <=? getPositionCount s (fen s))%nat.

Definition isDrawByFiftyMoves (s : State) : bool := 100 <=? _halfMoves s.

Definition isDraw (s : State) : bool :=
  isDrawByFiftyMoves s || isStalemate s || isInsufficientMaterial s ||
  isThreefoldRepetition s.

Definition isGameOver (s : State) : bool :=
  isCheckmate s || isStalemate s || isDraw s.

(** *** Loading a FEN *)

Definition isDigit (c : ascii) : bool :=
  let n := nat_of_ascii c in ((48 <=? n) && (n <=? 57))%nat.

Definition digitValue (c : ascii) : Z := Z.of_nat (nat_of_ascii c - 48).

Definition inChars (c : ascii) (set : string) : bool :=
  existsb (Ascii.eqb c) (list_ascii_of_string set).

Fixpoint parseDigits (s : string) (acc : option Z) : option Z :=
  match s with
  | EmptyString => acc
  | String c t =>
      if isDigit c then
        parseDigits t (Some (10 * (match acc with Some a => a | None => 0 end) + digitValue c))
      else acc
  end.

(** [parseInt(s, 10)]; [NaN] is [None]. *)
Definition parseInt (s : string) : option Z :=
  match JS.trimStart s with
  | String "-" t => option_map Z.opp (parseDigits t None)
  | String "+" t => parseDigits t None
  | t => parseDigits t None
  end.

Definition symbolOfChar (c : ascii) : option PieceSymbol :=
  find (fun t => String.eqb (symbolChar t) (String c EmptyString))
       [PAWN; KNIGHT; BISHOP; ROOK; QUEEN; KING].

(** One row of the piece field: the error it raises, if any. *)
Fixpoint validateRow (row : string) (sumFields : Z) (previousWasNumber : bool)
  : option string :=
  match row with
  | EmptyString =>
      if sumFields =? 8 then None
      else Some "piece data is invalid (too many squares in rank)"%string
  | String c t =>
      if isDigit c then
        if previousWasNumber
        then Some "piece data is invalid (consecutive number)"%string
        else validateRow t (sumFields + digitValue c) true
      else if inChars c "prnbqkPRNBQK" then validateRow t (sumFields + 1) false
      else Some "piece data is invalid (invalid piece)"%string
  end.

Fixpoint validateRows (rows : list string) : option string :=
  match rows with
  | [] => None
  | row :: rest =>
      match validateRow row 0 false with
      | Some e => Some e
      | None => validateRows rest
      end
  end.

Definition countChar (c : ascii) (s : string) : nat :=
  length (filter (Ascii.eqb c) (list_ascii_of_string s)).

Definition tokenAt (tokens : list string) (i : nat) : string :=
  nth i tokens EmptyString.

(** [validateFen]: the text that follows ['Invalid FEN: '] in the error
    of the first criterion that fails. *)
Definition validateFen (f : string) : option string :=
  let tokens := splitSpaces f in
  let tok := tokenAt tokens in
  if negb (length tokens =? 6)%nat then
    Some "must contain six space-delimited fields"%string
  else if match parseInt (tok 5%nat) with Some n => n <=? 0 | None => true end then
    Some "move number must be a positive integer"%string
  else if match parseInt (tok 4%nat) with Some n => n <? 0 | None => true end then
    Some "half move counter number must be a non-negative integer"%string
  else if negb (String.eqb (tok 3%nat) "-" ||
                match tok 3%nat with
                | String a (String d EmptyString) => inChars a "abcdefgh" && inChars d "36"
                | _ => false
                end) then
    Some "en-passant square is invalid"%string
  else if existsb (fun c => negb (inChars c "kKqQ-")) (list_ascii_of_string (tok 2%nat)) then
    Some "castling availability is invalid"%string
  else if negb (String.eqb (tok 1%nat) "w" || String.eqb (tok 1%nat) "b") then
    Some "side-to-move is invalid"%string
  else
    let rows := splitOn "/" (tok 0%nat) in
    if negb (length rows =? 8)%nat then
      Some "piece data does not contain 8 '/'-delimited rows"%string
    else
      match validateRows rows with
      | Some e => Some e
      | None =>
          if (String.eqb (JS.charAt (tok 3%nat) 1) "3" && String.eqb (tok 1%nat) "w") ||
             (String.eqb (JS.charAt (tok 3%nat) 1) "6" && String.eqb (tok 1%nat) "b") then
            Some "illegal en-passant square"%string
          else if (countChar "K" (tok 0%nat) =? 0)%nat then Some "missing white king"%string
          else if (1 <? countChar "K" (tok 0%nat))%nat then Some "too many white kings"%string
          else if (countChar "k" (tok 0%nat) =? 0)%nat then Some "missing black king"%string
          else if (1 <? countChar "k" (tok 0%nat))%nat then Some "too many black kings"%string
          else if existsb (fun c => Ascii.eqb (JS.upperChar c) "P")
                          (list_ascii_of_string (tokenAt rows 0 ++ tokenAt rows 7)) then
            Some "some pawns are on the edge rows"%string
          else None
      end.

Fixpoint loadBoard (position : string) (square : Z) (b : Board) : Board :=
  match position with
  | EmptyString => b
  | String c t =>
      if Ascii.eqb c "/" then loadBoard t (square + 8) b
      else if isDigit c then loadBoard t (square + digitValue c) b
      else
        let color := if (nat_of_ascii c <? 97)%nat then WHITE else BLACK in
        match symbolOfChar (JS.lowerChar c) with
        | Some t' =>
            loadBoard t (square + 1)
                      (if offBoard square then b else set b square (Some (mkPiece color t')))
        | None => loadBoard t (square + 1) b
        end
  end.

(** FEN fields that are commonly left out are appended. *)
Definition completeFen (f : string) : string :=
  let tokens := splitSpaces f in
  let n := length tokens in
  if ((2 <=? n) && (n <? 6))%nat
  then JS.join " " (tokens ++ skipn (n - 2) ["-"; "-"; "0"; "1"]%string)
  else f.

(** [new Chess(fen)]: [load] on a fresh instance. *)
Definition load (f0 : string) : JS.Error + State :=
  let f := completeFen f0 in
  match validateFen f with
  | Some e => inl (JS.newError ("Invalid FEN: " ++ e))
  | None =>
      let tok := tokenAt (splitSpaces f) in
      let castle (c : ascii) (bit : Z) := if inChars c (tok 2%nat) then bit else 0 in
      inr {| _board := loadBoard (tok 0%nat) 0 emptyBoard;
             _turn := if String.eqb (tok 1%nat) "w" then WHITE else BLACK;
             _castlingW := Z.lor (castle "K"%char BITS_KSIDE_CASTLE)
                                 (castle "Q"%char BITS_QSIDE_CASTLE);
             _castlingB := Z.lor (castle "k"%char BITS_KSIDE_CASTLE)
                                 (castle "q"%char BITS_QSIDE_CASTLE);
             _epSquare := if String.eqb (tok 3%nat) "-" then EMPTY
                          else match squareOf (tok 3%nat) with
                               | Some sq => sq
                               | None => EMPTY
                               end;
             _halfMoves := match parseInt (tok 4%nat) with Some n => n | None => 0 end;
             _moveNumber := match parseInt (tok 5%nat) with Some n => n | None => 1 end;
             _history := [];
             _positionCount := [trimFen f] |}
  end.

(** *** Reading a move *)

Fixpoint removeFirst (c : ascii) (s : string) : string :=
  match s with
  | EmptyString => EmptyString
  | String a t => if Ascii.eqb a c then t else String a (removeFirst c t)
  end.

Fixpoint dropWhile (f : ascii -> bool) (l : list ascii) : list ascii :=
  match l with
  | [] => []
  | a :: t => if f a then dropWhile f t else l
  end.

(** [move.replace(/=/, '').replace(/[+#]?[?!]*$/, '')] *)
Definition strippedSan (mv : string) : string :=
  let r := dropWhile (fun c => inChars c "?!") (rev (list_ascii_of_string (removeFirst "=" mv))) in
  let r' := match r with
            | c :: t => if inChars c "+#" then t else r
            | [] => r
            end in
  string_of_list_ascii (rev r').

Definition isFileChar (c : ascii) : bool := inChars c "abcdefgh".
Definition isRankChar (c : ascii) : bool := inChars c "12345678".
Definition isPieceChar (c : ascii) : bool := inChars c "pnbrqkPNBRQK".
Definition isPromoChar (c : ascii) : bool := inChars c "qrbnQRBN".

(** Some [[a-h]\d] followed, anywhere later, by another one. *)
Fixpoint afterSquareLike (s : string) : option string :=
  match s with
  | String a ((String d t) as rest) =>
      if isFileChar a && isDigit d then Some t else afterSquareLike rest
  | _ => None
  end.

Definition hasTwoSquares (s : string) : bool :=
  match afterSquareLike s with
  | Some t => match afterSquareLike t with Some _ => true | None => false end
  | None => false
  end.

Definition filterOfChar (c : ascii) : PieceFilter :=
  match symbolOfChar c with
  | Some t => OnlyPiece t
  | None => OtherPiece
  end.

Definition inferPieceType (san : string) : PieceFilter :=
  match san with
  | EmptyString => EmptyPiece
  | String c _ =>
      if isFileChar c then
        if hasTwoSquares san then AnyPiece else OnlyPiece PAWN
      else if Ascii.eqb (JS.lowerChar c) "o" then OnlyPiece KING
      else filterOfChar (JS.lowerChar c)
  end.

(** What the two patterns of the permissive parser capture. *)
Record Captures := mkCaptures {
  c_piece : option ascii;
  c_from : string;
  c_to : string;
  c_promotion : option ascii
}.

(** [x?-?([a-h][1-8])([qrbnQRBN])?] at the head of [s]. *)
Definition matchTail (s : string) : option (string * option ascii) :=
  let s1 := match s with String "x" t => t | _ => s end in
  let s2 := match s1 with String "-" t => t | _ => s1 end in
  match s2 with
  | String f (String r t) =>
      if isFileChar f && isRankChar r then
        Some (String f (String r EmptyString),
              match t with
              | String q _ => if isPromoChar q then Some q else None
              | EmptyString => None
              end)
      else None
  | _ => None
  end.

Definition orElse {A : Type} (a b : option A) : option A :=
  match a with Some _ => a | None => b end.

(** [([a-h][1-8])x?-?([a-h][1-8])([qrbnQRBN])?] at the head of [s]. *)
Definition matchSquares (piece : option ascii) (s : string) : option Captures :=
  match s with
  | String f (String r t) =>
      if isFileChar f && isRankChar r then
        match matchTail t with
        | Some (to, promo) => Some (mkCaptures piece (String f (String r EmptyString)) to promo)
        | None => None
        end
      else None
  | _ => None
  end.

(** [([a-h]?[1-8]?)x?-?([a-h][1-8])([qrbnQRBN])?] at the head of [s],
    the optional parts tried longest first. *)
Definition matchLoose (piece : option ascii) (s : string) : option Captures :=
  let finish (from rest : string) :=
    match matchTail rest with
    | Some (to, promo) => Some (mkCaptures piece from to promo)
    | None => None
    end in
  orElse
    (match s with
     | String f (String r t) =>
         if isFileChar f && isRankChar r then finish (String f (String r EmptyString)) t
         else None
     | _ => None
     end)
    (orElse
       (match s with
        | String f t => if isFileChar f then finish (String f EmptyString) t else None
        | _ => None
        end)
       (orElse
          (match s with
           | String r t => if isRankChar r then finish (String r EmptyString) t else None
           | _ => None
           end)
          (finish EmptyString s))).

(** The optional leading piece letter, tried first with and then
    without it. *)
Definition withPiece (body : option ascii -> string -> option Captures) (s : string)
  : option Captures :=
  orElse
    (match s with
     | String p t => if isPieceChar p then body (Some p) t else None
     | EmptyString => None
     end)
    (body None s).

(** [str.match(re)]: the first position at which the pattern matches. *)
Fixpoint search (at_ : string -> option Captures) (s : string) : option Captures :=
  match at_ s with
  | Some c => Some c
  | None =>
      match s with
      | EmptyString => None
      | String _ t => search at_ t
      end
  end.

Definition lowerSymbolIs (c : option ascii) (t : PieceSymbol) : bool :=
  match c with
  | None => true
  | Some a => String.eqb (String (JS.lowerChar a) EmptyString) (symbolChar t)
  end.

Definition promotionIs (c : option ascii) (p : option PieceSymbol) : bool :=
  match c with
  | None => true
  | Some a =>
      match p with
      | Some t => String.eqb (String (JS.lowerChar a) EmptyString) (symbolChar t)
      | None => false
      end
  end.

Definition sameSquare (name : string) (sq : Z) : bool :=
  match squareOf name with
  | Some q => q =? sq
  | None => false
  end.

(** [_moveFromSan(move, strict = false)] *)
Definition moveFromSan (s : State) (mv : string) : option InternalMove :=
  let cleanMove := strippedSan mv in
  let strictMoves := legalMoves s (inferPieceType cleanMove) in
  match find (fun m => String.eqb cleanMove (strippedSan (moveToSan s m strictMoves)))
             strictMoves with
  | Some m => Some m
  | None =>
      match orElse (search (withPiece matchSquares) cleanMove)
                   (search (withPiece matchLoose) cleanMove) with
      | None => None
      | Some c =>
          let overlyDisambiguated := (String.length (c_from c) =? 1)%nat in
          let ms := legalMoves s (match c_piece c with
                                  | Some p => filterOfChar (JS.lowerChar p)
                                  | None => inferPieceType cleanMove
                                  end) in
          find (fun m =>
                  match c_from c with
                  | EmptyString =>
                      String.eqb cleanMove
                                 (removeFirst "x" (strippedSan (moveToSan s m ms)))
                  | from =>
                      (lowerSymbolIs (c_piece c) (i_piece m) &&
                       sameSquare from (i_from m) && sameSquare (c_to c) (i_to m) &&
                       promotionIs (c_promotion c) (i_promotion m)) ||
                      (overlyDisambiguated &&
                       lowerSymbolIs (c_piece c) (i_piece m) &&
                       sameSquare (c_to c) (i_to m) &&
                       (String.eqb from (JS.charAt (algebraic (i_from m)) 0) ||
                        String.eqb from (JS.charAt (algebraic (i_from m)) 1)) &&
                       promotionIs (c_promotion c) (i_promotion m))
                  end) ms
      end
  end.

Definition pushHistory (s : State) (m : Move) : State :=
  {| _board := _board s; _turn := _turn s;
     _castlingW := _castlingW s; _castlingB := _castlingB s;
     _epSquare := _epSquare s; _halfMoves := _halfMoves s;
     _moveNumber := _moveNumber s; _history := _history s ++ [m];
     _positionCount := _positionCount s |}.

(** [move(san)]: throws when the text names no legal move. *)
Definition move (s : State) (mv : string) : JS.Error + State :=
  match moveFromSan s mv with
  | None => inl (JS.newError ("Invalid move: " ++ mv))
  | Some m =>
      let after := makeMove s m in
      inr (incPositionCount (pushHistory after (prettyMove s m)) (fen after))
  end.

(** The number of move sequences of length [depth] from a position. *)
Fixpoint perft (depth : nat) (s : State) : nat :=
  match depth with
  | O => 1%nat
  | S d =>
      fold_left (fun n m => (n + perft d (makeMove s m))%nat) (legalMoves s AnyPiece) 0%nat
  end.

(** Two tests on a position, settled by evaluation: [move] accepts
    every string that [moves()] lists, and none of them is empty. *)
Definition acceptsListedMoves (s : State) : bool :=
  forallb (fun san => match move s san with inr _ => true | inl _ => false end)
          (moves s).

Definition listsNoEmptyMove (s : State) : bool :=
  forallb (fun san => negb (String.eqb san EmptyString)) (moves s).

#[export] Instance engine : ChessEngine :=
  Build_ChessEngine load fen _turn board _history movesVerbose moves move
                    isCheck isCheckmate isStalemate isInsufficientMaterial
                    isThreefoldRepetition isDraw isGameOver.

(** *** Arguments that are no strings *)

(** [new Chess(v)]: [load] starts with [fen.split(/\s+/)], which is a
    TypeError on a value that has no such method. *)
Definition loadOther (v : JS.NonString) : JS.Error :=
  match v with
  | JS.NSNull => JS.newError "Cannot read properties of null (reading 'split')"
  | _ => JS.newError "fen.split is not a function"
  end.

Definition BITS_NULL_MOVE : Z := 128.

(** [move.from === algebraic(m.from)] and the like. *)
Definition isText (v : option JS.Json) (s : string) : bool :=
  match v with
  | Some (JS.JString t) => String.eqb t s
  | _ => false
  end.

(** [move({ from, to, promotion })]: the first legal move with these
    squares, and with this promotion when it promotes. *)
Definition moveObject (s : State) (o : JS.Object) : option State :=
  match find (fun m =>
                isText (JS.prop o "from") (algebraic (i_from m)) &&
                isText (JS.prop o "to") (algebraic (i_to m)) &&
                match i_promotion m with
                | Some t => isText (JS.prop o "promotion") (symbolChar t)
                | None => true
                end)
             (legalMoves s AnyPiece) with
  | Some m =>
      let after := makeMove s m in
      Some (incPositionCount (pushHistory after (prettyMove s m)) (fen after))
  | None => None
  end.

(** [move(null)], as chess.js 1.4 takes it: a null move, which passes
    the turn and is not allowed in check. *)
Definition moveNull (s : State) : option State :=
  if isCheck s then None
  else
    let after :=
      {| _board := _board s;
         _turn := swapColor (_turn s);
         _castlingW := _castlingW s; _castlingB := _castlingB s;
         _epSquare := EMPTY;
         _halfMoves := _halfMoves s + 1;
         _moveNumber := match _turn s with
                        | BLACK => _moveNumber s + 1
                        | WHITE => _moveNumber s
                        end;
         _history := _history s;
         _positionCount := _positionCount s |} in
    let nullMove :=
      {| mv_color := _turn s;
         mv_from := algebraic 0; mv_to := algebraic 0;
         mv_piece := KING;
         mv_captured := None; mv_promotion := None;
         mv_flags := "-"; mv_san := "--"; mv_lan := "--" |} in
    Some (incPositionCount (pushHistory after nullMove) (fen after)).

(** [move(v)] for a value that is no string: [null] and objects reach
    the move search, arrays have no [from], and numbers and booleans
    are neither strings nor objects. *)
Definition moveOther (s : State) (v : JS.NonString) : option State :=
  match v with
  | JS.NSNull => moveNull s
  | JS.NSObject o => moveObject s o
  | JS.NSArray _ | JS.NSBool _ | JS.NSNumber _ => None
  end.

#[export] Instance untyped : ChessUntyped engine :=
  @Build_ChessUntyped engine loadOther moveOther.

End ChessJs.

(* ===================================================================== *)
(** ** Effects

    The handlers await the OpenAI client, [fetch] and [Math.random].  A
    program is the tree of the calls it makes; [run] plays it against the
    answers of the outside world.  [console] output is not modelled. *)
(* ===================================================================== *)

Inductive Prog (Ev : Type -> Type) (A : Type) : Type :=
| Ret (a : A)
| Vis (X : Type) (e : Ev X) (k : X -> Prog Ev A).

Arguments Ret {Ev A} a.
Arguments Vis {Ev A X} e k.

Fixpoint bind {Ev : Type -> Type} {A B : Type} (p : Prog Ev A) (f : A -> Prog Ev B)
  : Prog Ev B :=
  match p with
  | Ret a => f a
  | Vis e k => Vis e (fun x => bind (k x) f)
  end.

Notation "x <- p ;; q" := (bind p (fun x => q))
  (at level 61, p at next level, right associativity).

(** The answers of the outside world, one per kind of call. *)
Definition Handler (Ev : Type -> Type) : Type := forall X : Type, Ev X -> X.

Fixpoint run {Ev : Type -> Type} {A : Type} (h : Handler Ev) (p : Prog Ev A) : A :=
  match p with
  | Ret a => a
  | Vis e k => run h (k (h _ e))
  end.

(** The calls a program makes before it returns, in order. *)
Fixpoint calls {Ev : Type -> Type} {A : Type} (h : Handler Ev) (p : Prog Ev A)
  : list { X : Type & Ev X } :=
  match p with
  | Ret _ => []
  | Vis e k => existT _ _ e :: calls h (k (h _ e))
  end.

(* ===================================================================== *)
(** ** src/lib/simple-eval.ts *)
(* ===================================================================== *)

Section SimpleEval.

Context {E : ChessEngine}.

Local Open Scope Z_scope.

(** Standard chess piece values for material evaluation *)
Definition PIECE_VALUES (t : PieceSymbol) : Z :=
  match t with
  | PAWN => 1
  | KNIGHT => 3
  | BISHOP => 3
  | ROOK => 5
  | QUEEN => 9
  | KING => 0
  end.

(** [x || 0] on numbers *)
Definition orZero (x : Z) : Z := if x =? 0 then 0 else x.

(** [parseFloat(x.toFixed(1))]: [x] rounded to one decimal, halves away
    from zero. *)
Definition toFixed1 (x : Q) : Q :=
  Qred (Qmake (Z.sgn (Qnum x) * Qfloor (Qabs x * inject_Z 10 + (1 # 2))%Q) 10).

(** The body of the two nested loops, for one square. *)
Definition addSquare (materialScore : Z) (square : option BoardSquare) : Z :=
  match square with
  | Some sq =>
      let value := orZero (PIECE_VALUES (bs_type sq)) in
      materialScore + (match bs_color sq with WHITE => value | BLACK => - value end)
  | None => materialScore
  end.

Definition sumMaterial (b : list (list (option BoardSquare))) : Z :=
  fold_left (fun materialScore row => fold_left addSquare row materialScore) b 0.

Definition evaluateBoard (game : Chess) : Q :=
  if isCheckmate game then
    match turn game with
    | WHITE => inject_Z (-100)
    | BLACK => inject_Z 100
    end
  else if isDraw game || isThreefoldRepetition game || isInsufficientMaterial game then
    inject_Z 0
  else toFixed1 (inject_Z (sumMaterial (board game))).

End SimpleEval.

(* ===================================================================== *)
(** ** src/hooks/useChessGame.ts: the result shown when a game ends *)
(* ===================================================================== *)

Section GameResult.

Context {E : ChessEngine}.

(** The [reason] that [updateGameState] derives once
    [game.isGameOver() || game.isDraw()] holds. *)
Definition gameOverReason (game : Chess) : option string :=
  if isGameOver game || isDraw game then
    Some (if isCheckmate game then "checkmate"
          else if isStalemate game then "stalemate"
          else if isInsufficientMaterial game then "insufficient-material"
          else if isThreefoldRepetition game then "threefold-repetition"
          else "game-over")%string
  else None.

End GameResult.

(* ===================================================================== *)
(** ** HTTP values shared by the route handlers and the client *)
(* ===================================================================== *)

(** What [await request.json()] yields, as far as [POST] reads it:
    [null]; an object whose [fen] is a string or [undefined]; a number,
    a boolean, a string or an array, none of which has a [fen]; an
    object whose [fen] is a value that is no string. *)
Inductive RequestBody :=
| NullBody
| ObjectBody (fen : option string)
| NonObjectBody
| ObjectBodyWith (fen : JS.NonString).

(** A request: its body after [request.json()], which throws ([inl]) on
    text that is not JSON. *)
Record NextRequest := mkRequest {
  json : JS.Error + RequestBody
}.

(** [NextResponse.json(body, { status })]; the status defaults to 200. *)
Record NextResponse := mkResponse {
  res_status : Z;
  res_body : JS.Object
}.

Definition NextResponse_json (body : JS.Object) (status : option Z) : NextResponse :=
  {| res_status := match status with Some s => s | None => 200%Z end;
     res_body := body |}.

(** [process.env.NODE_ENV], and the [stack] the runtime attached to an
    error. *)
Record ProcessEnv := mkEnv {
  NODE_ENV : option string;
  stackOf : JS.Error -> string
}.

(** [completion.choices[0]?.message?.content]: the reply text, when the
    completion has one. *)
Definition Completion := option string.

Record AISettings := mkSettings {
  temperature : Q;
  max_tokens : Z;
  top_p : Q;
  frequency_penalty : Q;
  presence_penalty : Q
}.

Record ChatRequest := mkChat {
  chat_model : string;
  chat_system : string;
  chat_user : string;
  chat_settings : AISettings
}.

(** The calls of a route handler. *)
Inductive ServerEvent : Type -> Type :=
| OpenAICreate (req : ChatRequest) : ServerEvent (JS.Error + Completion)
| ServerRandom : ServerEvent Q.

Definition nl : string := String (ascii_of_nat 10) EmptyString.
Definition dq : string := String (ascii_of_nat 34) EmptyString.

(** A property that [JSON.stringify] leaves out when it is [undefined]. *)
Definition optionalProp (k : string) (v : option string) : JS.Object :=
  match v with
  | Some s => [(k, JS.JString s)]
  | None => []
  end.

(* ===================================================================== *)
(** ** src/app/api/chess-move/route.ts *)
(* ===================================================================== *)

Module ChessMove.
Section Route.

Context {E : ChessEngine} {U : ChessUntyped E}.

Local Open Scope string_scope.

Definition COMPLEXITY_THRESHOLD : Z := 30.

(** Model selection based on position complexity *)
Definition selectModel (moveCount : Z) : string :=
  if (30 <? moveCount)%Z then "gpt-4" else "gpt-3.5-turbo".

(** AI generation settings *)
Definition getAISettings : AISettings :=
  {| temperature := (4 # 10)%Q;
     max_tokens := 10%Z;
     top_p := (9 # 10)%Q;
     frequency_penalty := (5 # 10)%Q;
     presence_penalty := (5 # 10)%Q |}.

Definition createChessGame (fen : string) : JS.Error + Chess :=
  match newChess fen with
  | inl e => inl e
  | inr game =>
      if isGameOver game || isDraw game
      then inl (JS.newError "Game is already over")
      else inr game
  end.

(** [board.flat().filter(p => p?.color === c && p.type === t).length] *)
Definition countOf (b : list (list (option BoardSquare))) (c : Color) (t : PieceSymbol) : nat :=
  length (filter (fun p =>
                    match p with
                    | Some sq => Color_eqb (bs_color sq) c && PieceSymbol_eqb (bs_type sq) t
                    | None => false
                    end) (concat b)).

Record MaterialCount := mkMaterial {
  pawn : nat; knight : nat; bishop : nat; rook : nat; queen : nat
}.

Definition materialOf (b : list (list (option BoardSquare))) (c : Color) : MaterialCount :=
  {| pawn := countOf b c PAWN;
     knight := countOf b c KNIGHT;
     bishop := countOf b c BISHOP;
     rook := countOf b c ROOK;
     queen := countOf b c QUEEN |}.

(** [JSON.stringify(material, null, 2)] *)
Definition stringifySide (name : string) (m : MaterialCount) : string :=
  "  " ++ dq ++ name ++ dq ++ ": {" ++ nl ++
  "    " ++ dq ++ "pawn" ++ dq ++ ": " ++ JS.showNat (pawn m) ++ "," ++ nl ++
  "    " ++ dq ++ "knight" ++ dq ++ ": " ++ JS.showNat (knight m) ++ "," ++ nl ++
  "    " ++ dq ++ "bishop" ++ dq ++ ": " ++ JS.showNat (bishop m) ++ "," ++ nl ++
  "    " ++ dq ++ "rook" ++ dq ++ ": " ++ JS.showNat (rook m) ++ "," ++ nl ++
  "    " ++ dq ++ "queen" ++ dq ++ ": " ++ JS.showNat (queen m) ++ nl ++
  "  }".

Definition stringifyMaterial (white black : MaterialCount) : string :=
  "{" ++ nl ++ stringifySide "white" white ++ "," ++ nl ++
  stringifySide "black" black ++ nl ++ "}".

Definition isOpening (game : Chess) : bool := (length (history game) <? 10)%nat.
Definition isEndgame (game : Chess) : bool := (30 <? length (history game))%nat.

(** The text after [Game Phase:] in the user prompt. *)
Definition gamePhase (game : Chess) : string :=
  if isOpening game then "Opening"
  else if isEndgame game then "Endgame"
  else "Middlegame".

(** Game phase specific instructions *)
Definition phaseInstructions (game : Chess) : string :=
  if isOpening game then
    "Focus on controlling the center and developing pieces. Consider standard opening principles."
  else if isEndgame game then
    "Focus on king activation, pawn promotion, and opposition. Simplify to a winning endgame if possible."
  else
    "Focus on piece coordination, weak squares, and tactical opportunities. Consider pawn breaks and piece activity.".

Record Prompt := mkPrompt { system : string; user : string }.

Definition systemPrompt (turnText : string) (legalMoves : list string) : string :=
  "You are Magnus Carlsen, the reigning World Chess Champion. " ++ nl ++
  "    - You are playing as " ++ turnText ++ " in this position." ++ nl ++
  "    - You must respond with ONLY a valid move in algebraic notation from: " ++
    JS.join ", " legalMoves ++ nl ++
  "    - Think carefully about the position and choose the strongest move." ++ nl ++
  "    - Consider both tactical and strategic elements of the position." ++ nl ++
  "    - If you see a forced mate or significant material gain, play it immediately.".

Definition userPrompt (game : Chess) (fen : string) (turnText : string)
           (legalMoves : list string) : string :=
  "[Game Context]" ++ nl ++
  "- Position: " ++ fen ++ nl ++
  "- Turn: " ++ turnText ++ nl ++
  "- Game Phase: " ++ gamePhase game ++ nl ++
  "- Material Balance: " ++
    stringifyMaterial (materialOf (board game) WHITE) (materialOf (board game) BLACK) ++ nl ++
  nl ++
  "[Positional Evaluation]" ++ nl ++
  "1. King Safety: " ++ (if isCheck game then "King is in check!" else "King is safe") ++ nl ++
  "2. Piece Activity: " ++
    (if isCheckmate game then "Checkmate!"
     else if isDraw game then "Draw position" else "Game in progress") ++ nl ++
  "3. Pawn Structure: " ++ (if isStalemate game then "Stalemate" else "Normal") ++ nl ++
  "4. Tactical Opportunities: " ++
    (if isStalemate game then "No legal moves" else "Evaluate tactics") ++ nl ++
  "5. Long-term Plans: " ++ phaseInstructions game ++ nl ++
  nl ++
  "[Available Moves]" ++ nl ++
  JS.join ", " legalMoves ++ nl ++
  nl ++
  "[Instructions]" ++ nl ++
  "1. Analyze the position carefully" ++ nl ++
  "2. Consider candidate moves" ++ nl ++
  "3. Evaluate each candidate" ++ nl ++
  "4. Choose the strongest move" ++ nl ++
  "5. Respond ONLY with the move in algebraic notation (e.g., e4, Nf3, O-O)" ++ nl ++
  nl ++
  "[Think step by step before responding]".

(** Throws what [new Chess(fen)] throws. *)
Definition getChessPrompt (fen : string) (legalMoves : list string) : JS.Error + Prompt :=
  match newChess fen with
  | inl e => inl e
  | inr game =>
      let turnText := JS.toUpperCase (colorChar (turn game)) in
      inr {| system := systemPrompt turnText legalMoves;
             user := userPrompt game fen turnText legalMoves |}
  end.

(** [legalMoves[Math.floor(Math.random() * legalMoves.length)]] *)
Definition randomMove (legalMoves : list string) : Prog ServerEvent (option string) :=
  Vis ServerRandom (fun r => Ret (JS.randomElement r legalMoves)).

(** The move itself when [new Chess(fen).move(move)] does not throw,
    a random legal move otherwise. *)
Definition validateMove (fen move_ : string) (legalMoves : list string)
  : Prog ServerEvent (option string) :=
  match newChess fen with
  | inl _ => randomMove legalMoves
  | inr g =>
      match move g move_ with
      | inr _ => Ret (Some move_)
      | inl _ => randomMove legalMoves
      end
  end.

Definition isQuotaError (apiError : JS.Error) : bool :=
  match JS.code apiError with
  | Some c => String.eqb c "insufficient_quota"
  | None => false
  end ||
  match JS.status apiError with
  | Some s => (s =? 429)%Z
  | None => false
  end.

Definition turnName (c : Color) : string :=
  match c with WHITE => "white" | BLACK => "black" end.

(** The part of [POST] between [const game = createChessGame(fen)] and
    the end of the inner [try]; [inl] is a thrown error, which the
    inner [catch] rethrows. *)
Definition processGame (fen : string) : Prog ServerEvent (JS.Error + NextResponse) :=
  match createChessGame fen with
  | inl e => Ret (inl e)
  | inr game =>
      let legalMoves := moves game in
      if isCheckmate game then
        let winner := match turn game with WHITE => "Black" | BLACK => "White" end in
        Ret (inr (NextResponse_json
                    [("error", JS.JString ("Checkmate! " ++ winner ++ " wins!"));
                     ("gameOver", JS.JBool true);
                     ("winner", JS.JString winner);
                     ("reason", JS.JString "checkmate")] (Some 200%Z)))
      else if isDraw game then
        let reason :=
          if isStalemate game then "stalemate"
          else if isThreefoldRepetition game then "threefold repetition"
          else if isInsufficientMaterial game then "insufficient material"
          else "draw" in
        Ret (inr (NextResponse_json
                    [("error", JS.JString "Game drawn");
                     ("gameOver", JS.JBool true);
                     ("winner", JS.JNull);
                     ("reason", JS.JString reason)] (Some 200%Z)))
      else if isGameOver game then
        Ret (inr (NextResponse_json
                    [("error", JS.JString "Game over");
                     ("gameOver", JS.JBool true);
                     ("winner", JS.JNull);
                     ("reason", JS.JString "unknown")] (Some 200%Z)))
      else
        let model := selectModel (Z.of_nat (length legalMoves)) in
        let settings := getAISettings in
        match getChessPrompt fen legalMoves with
        | inl e => Ret (inl e)
        | inr prompt =>
            Vis (OpenAICreate (mkChat model (system prompt) (user prompt) settings))
                (fun completion =>
                   match completion with
                   | inl apiError =>
                       if isQuotaError apiError then
                         rnd <- randomMove legalMoves ;;
                         Ret (inr (NextResponse_json
                                     (optionalProp "move" rnd ++
                                      [("warning", JS.JString "Using random move due to API limits");
                                       ("originalError", JS.JString (JS.message apiError))])%list
                                     None))
                       else Ret (inl apiError)
                   | inr content =>
                       match option_map JS.trim content with
                       | None | Some EmptyString =>
                           Ret (inl (JS.newError "No move returned from AI"))
                       | Some move_ =>
                           validatedMove <- validateMove fen move_ legalMoves ;;
                           match createChessGame fen with
                           | inl e => Ret (inl e)
                           | inr gameAfterMove0 =>
                               match (match validatedMove with
                                      | Some m => move gameAfterMove0 m
                                      | None => inl (JS.newError "Invalid move: undefined")
                                      end) with
                               | inl e => Ret (inl e)
                               | inr gameAfterMove =>
                                   let turnText := turnName (turn gameAfterMove) in
                                   Ret (inr (NextResponse_json
                                               (optionalProp "move" validatedMove ++
                                                [("turn", JS.JString turnText);
                                                 ("inCheck", JS.JBool (isCheck gameAfterMove));
                                                 ("gameOver", JS.JBool false)] ++
                                                (if isCheck gameAfterMove then
                                                   [("message",
                                                     JS.JString ("Check! " ++
                                                                 (if String.eqb turnText "white"
                                                                  then "White" else "Black") ++
                                                                 " is in check."))]
                                                 else []))%list
                                               None))
                               end
                           end
                       end
                   end)
        end
  end.

(** The outer [catch]: the response for a thrown error. *)
Definition errorResponse (env : ProcessEnv) (error : JS.Error) : NextResponse :=
  let errorMessage := JS.message error in
  let statusCode :=
    if JS.includes (JS.toLowerCase errorMessage) "already over" ||
       JS.includes (JS.toLowerCase errorMessage) "invalid fen"
    then 400%Z else 500%Z in
  NextResponse_json
    ([("error", JS.JString errorMessage);
      ("gameOver", JS.JBool (JS.includes errorMessage "Game over" ||
                             JS.includes errorMessage "Checkmate" ||
                             JS.includes errorMessage "drawn"))] ++
     (match NODE_ENV env with
      | Some mode =>
          if String.eqb mode "development" then [("stack", JS.JString (stackOf env error))]
          else []
      | None => []
      end))%list
    (Some statusCode).

(** The error that destructuring [fen] out of [null] throws. *)
Definition destructureNull : JS.Error :=
  JS.newError "Cannot destructure property 'fen' of 'requestBody' as it is null.".

Definition POST (env : ProcessEnv) (request : NextRequest) : Prog ServerEvent NextResponse :=
  match json request with
  | inl parseError =>
      Ret (NextResponse_json [("error", JS.JString "Invalid JSON in request body")]
                             (Some 400%Z))
  | inr NullBody => Ret (errorResponse env destructureNull)
  | inr (ObjectBody None) | inr (ObjectBody (Some EmptyString)) | inr NonObjectBody =>
      Ret (NextResponse_json [("error", JS.JString "FEN string is required")] (Some 400%Z))
  | inr (ObjectBodyWith fen) =>
      if JS.truthyOther fen
      then Ret (errorResponse env (newChessOther fen))
      else Ret (NextResponse_json [("error", JS.JString "FEN string is required")]
                                  (Some 400%Z))
  | inr (ObjectBody (Some fen)) =>
      r <- processGame fen ;;
      match r with
      | inr response => Ret response
      | inl error => Ret (errorResponse env error)
      end
  end.

End Route.
End ChessMove.

(* ===================================================================== *)
(** ** The chess-move-2 endpoint (second handler of src/app/api/health/route.ts)

    The handler of the second endpoint is the text of [ChessMove.POST]
    with [selectModel()] and a richer [getChessPrompt].  What follows is
    the model choice and the part of the prompt builder that computes the
    game phase, the hanging pieces and the threats, with the block of the
    user prompt that embeds them. *)
(* ===================================================================== *)

Module ChessMove2.
Section Route.

Context {E : ChessEngine}.

Local Open Scope string_scope.

(** Model selection based on position complexity *)
Definition selectModel (_ : unit) : string := "gpt-4".

Definition moveHistory (game : Chess) : list Move := history game.

Definition isOpening (game : Chess) : bool := (length (moveHistory game) <? 10)%nat.
Definition isEndgame (game : Chess) : bool := (30 <? length (moveHistory game))%nat.

(** The text after [Phase:] in the user prompt. *)
Definition gamePhase (game : Chess) : string :=
  if isOpening game then "Opening"
  else if isEndgame game then "Endgame"
  else "Middlegame".

Definition phaseInstructions (game : Chess) : string :=
  if isOpening game then
    "Focus on controlling the center (e4, e5, d4, d5), developing minor pieces (knights before bishops), and castling early. Avoid moving the same piece multiple times in the opening."
  else if isEndgame game then
    "Activate your king, create passed pawns, and use the opposition. Calculate concrete variations carefully. Remember: king activity is crucial in endgames."
  else
    "Look for tactical opportunities (forks, pins, skewers). Improve your worst placed piece. Control open files and strong squares. Consider pawn breaks.".

(** Helper function to get piece value *)
Definition getPieceValue (piece : PieceSymbol) : Z :=
  orZero (match piece with
          | PAWN => 1 | KNIGHT => 3 | BISHOP => 3
          | ROOK => 5 | QUEEN => 9 | KING => 0
          end)%Z.

(** Helper function to check if a square is defended: some move of
    [byColor] in a copy of the game goes to [square]. *)
Definition isSquareDefended (game : Chess) (square : string) (byColor : Color)
  : JS.Error + bool :=
  match newChess (fen game) with
  | inl e => inl e
  | inr tempGame =>
      inr (existsb (fun m => String.eqb (mv_to m) square && Color_eqb (mv_color m) byColor)
                   (movesVerbose tempGame))
  end.

Record HangingPiece := mkHanging {
  hp_piece : string;
  hp_from : string;
  hp_to : string;
  hp_captured : PieceSymbol;
  hp_value : Z;
  hp_defended : bool
}.

Definition currentColor (game : Chess) : Color := turn game.
Definition opponentColor (game : Chess) : Color := swapColor (currentColor game).

Definition isCaptured (m : Move) : bool :=
  match mv_captured m with Some _ => true | None => false end.

(** [arr.map(f)] for an [f] that may throw. *)
Fixpoint mapThrowing {A B : Type} (f : A -> JS.Error + B) (l : list A) : JS.Error + list B :=
  match l with
  | [] => inr []
  | a :: t =>
      match f a with
      | inl e => inl e
      | inr b =>
          match mapThrowing f t with
          | inl e => inl e
          | inr bs => inr (b :: bs)
          end
      end
  end.

(** [arr.sort((a, b) => b.value - a.value)]: a stable sort, most
    valuable first. *)
Fixpoint insertByValue (x : HangingPiece) (l : list HangingPiece) : list HangingPiece :=
  match l with
  | [] => [x]
  | y :: t =>
      if (hp_value y <? hp_value x)%Z then x :: l else y :: insertByValue x t
  end.

Definition sortByValue (l : list HangingPiece) : list HangingPiece :=
  fold_left (fun acc x => insertByValue x acc) l [].

(** Find all pieces that are under attack and can be captured *)
Definition hangingPieces (game : Chess) : JS.Error + list HangingPiece :=
  let allMoves := movesVerbose game in
  match mapThrowing
          (fun m =>
             match mv_captured m with
             | None => inr None
             | Some capturedPiece =>
                 match isSquareDefended game (mv_to m) (currentColor game) with
                 | inl e => inl e
                 | inr d =>
                     inr (Some {| hp_piece := JS.toUpperCase (symbolChar (mv_piece m));
                                  hp_from := mv_from m;
                                  hp_to := mv_to m;
                                  hp_captured := capturedPiece;
                                  hp_value := getPieceValue capturedPiece;
                                  hp_defended := d |})
                 end
             end)
          (filter (fun m => isCaptured m && Color_eqb (mv_color m) (opponentColor game))
                  allMoves) with
  | inl e => inl e
  | inr l =>
      inr (sortByValue (flat_map (fun o => match o with Some h => [h] | None => [] end) l))
  end.

(** Format hanging pieces info *)
Definition hangingPiecesInfo (l : list HangingPiece) : string :=
  JS.join nl
          (map (fun p =>
                  hp_piece p ++ " on " ++ hp_to p ++ " (value: " ++ JS.showZ (hp_value p) ++
                  (if hp_defended p then ", but defended" else EmptyString) ++ ")") l).

Definition threatText (m : Move) : string :=
  match mv_captured m with
  | Some c =>
      JS.toUpperCase (symbolChar (mv_piece m)) ++ mv_from m ++ " takes " ++
      symbolChar c ++ " on " ++ mv_to m
  | None =>
      JS.toUpperCase (symbolChar (mv_piece m)) ++ mv_from m ++ " gives check to " ++ mv_to m
  end.

(** Find threats (checks and captures) of one side *)
Definition threatsOf (game : Chess) (c : Color) : list string :=
  map threatText
      (filter (fun m => (isCaptured m || JS.includes (mv_san m) "+") &&
                        Color_eqb (mv_color m) c)
              (movesVerbose game)).

Definition opponentThreats (game : Chess) : list string := threatsOf game (opponentColor game).
Definition ourThreats (game : Chess) : list string := threatsOf game (currentColor game).

Definition bullet : string :=
  string_of_list_ascii (map ascii_of_nat [226; 128; 162]).
Definition warningSign : string :=
  string_of_list_ascii (map ascii_of_nat [226; 154; 160; 239; 184; 143]).

(** The text under [[IMMEDIATE CONSIDERATIONS]] in the user prompt. *)
Definition immediateConsiderations (game : Chess) (hanging : list HangingPiece) : string :=
  (if isCheck game
   then bullet ++ " " ++ warningSign ++ " YOU ARE IN CHECK! You must get out of check." ++ nl
   else EmptyString) ++
  (match hanging with
   | _ :: _ =>
       bullet ++ " " ++ warningSign ++ " HANGING PIECES (save yours, capture opponent's):" ++
       nl ++ hangingPiecesInfo hanging ++ nl
   | [] => EmptyString
   end) ++
  (match opponentThreats game with
   | _ :: _ => bullet ++ " Opponent threats: " ++ JS.join ", " (opponentThreats game) ++ nl
   | [] => EmptyString
   end) ++
  (match ourThreats game with
   | _ :: _ => bullet ++ " Your threats: " ++ JS.join ", " (ourThreats game) ++ nl
   | [] => EmptyString
   end) ++
  bullet ++ " " ++ phaseInstructions game.

End Route.
End ChessMove2.

(* ===================================================================== *)
(** ** src/lib/chess-ai.ts *)
(* ===================================================================== *)

Record FetchRequest := mkFetch {
  fetch_url : string;
  fetch_method : string;
  fetch_headers : list (string * string);
  fetch_fen : string
}.

(** What [fetch] resolves to: [response.ok], the status, and what
    [await response.json()] yields, any JSON value, or the error it
    throws on a body that is no JSON. *)
Record FetchResponse := mkFetchResponse {
  ok : bool;
  fetch_status : Z;
  fetch_json : JS.Error + JS.Json
}.

(** The calls of the client; [fetch] rejects ([inl]) on a network
    failure. *)
Inductive ClientEvent : Type -> Type :=
| Fetch (req : FetchRequest) : ClientEvent (JS.Error + FetchResponse)
| ClientRandom : ClientEvent Q.

Section ChessAi.

Context {E : ChessEngine} {U : ChessUntyped E}.

Local Open Scope string_scope.

(** [game.move(v)] for a parsed value [v], a string or not; [None]
    when it throws. *)
Definition moveAny (game : Chess) (v : JS.Json) : option Chess :=
  match JS.classify v with
  | inl s =>
      match move game s with
      | inr game' => Some game'
      | inl _ => None
      end
  | inr other => moveOther game other
  end.

(** [x || null] on a string or [undefined] *)
Definition orNull (x : option string) : JS.Json :=
  match x with
  | Some EmptyString | None => JS.JNull
  | Some s => JS.JString s
  end.

(** The outer [catch]: a random member of [game.moves()]. *)
Definition fallbackMove (game : Chess) : Prog ClientEvent JS.Json :=
  let moves_ := moves game in
  Vis ClientRandom (fun r => Ret (orNull (JS.randomElement r moves_))).

(** The promise resolves to [null] ([JS.JNull]) or to the [move] of the
    reply as it was parsed.  Destructuring [null] throws, and so does
    [move(undefined)] in every engine that throws on an invalid move. *)
Definition getAiMove (game : Chess) : Prog ClientEvent JS.Json :=
  if isGameOver game || isDraw game then Ret JS.JNull
  else
    Vis (Fetch {| fetch_url := "/api/chess-move";
                  fetch_method := "POST";
                  fetch_headers := [("Content-Type", "application/json")];
                  fetch_fen := fen game |})
        (fun result =>
           match result with
           | inl _ => fallbackMove game
           | inr response =>
               if negb (ok response) then fallbackMove game
               else
                 match fetch_json response with
                 | inl _ | inr JS.JNull => fallbackMove game
                 | inr body =>
                     match JS.field body "move" with
                     | None => fallbackMove game
                     | Some move_ =>
                         match newChess (fen game) with
                         | inl _ => fallbackMove game
                         | inr g =>
                             match moveAny g move_ with
                             | Some _ => Ret move_
                             | None => fallbackMove game
                             end
                         end
                     end
                 end
           end).

End ChessAi.

(* ===================================================================== *)
(** ** What the proofs assume of the rules engine

    Each property is stated for one game (or one FEN), so that it can be
    checked by evaluation on a given position of [ChessJs]. *)
(* ===================================================================== *)

Section EngineProperties.

Context {E : ChessEngine}.

(** [isGameOver()] is [isCheckmate() || isStalemate() || isDraw()]. *)
Definition MateEndsGame (g : Chess) : Prop :=
  isCheckmate g = true -> isGameOver g = true.

(** A game that is not over has a legal move. *)
Definition MovesWhileOngoing (g : Chess) : Prop :=
  isGameOver g = false -> moves g <> [].

(** [isDraw()] covers stalemate, repetition and insufficient material. *)
Definition StalemateIsDraw (g : Chess) : Prop :=
  isStalemate g = true -> isDraw g = true.

Definition RepetitionIsDraw (g : Chess) : Prop :=
  isThreefoldRepetition g = true -> isDraw g = true.

Definition InsufficientIsDraw (g : Chess) : Prop :=
  isInsufficientMaterial g = true -> isDraw g = true.

(** [move] accepts every string that [moves()] lists. *)
Definition Accepted (g : Chess) (s : string) : Prop :=
  exists g', move g s = inr g'.

Definition ListedMovesAccepted (g : Chess) : Prop :=
  forall s, In s (moves g) -> Accepted g s.

(** The moves generated for a position are moves of the side to move. *)
Definition MoverColor (g : Chess) : Prop :=
  forall m, In m (movesVerbose g) -> mv_color m = turn g.

(** No move is written as the empty string. *)
Definition SanNonEmpty (g : Chess) : Prop :=
  forall s, In s (moves g) -> s <> EmptyString.

(** A game built from a FEN has no move history. *)
Definition FreshHistory (fen_ : string) : Prop :=
  forall g, newChess fen_ = inr g -> history g = [].

(** The constructor rejects a FEN with a message that starts with
    ['Invalid FEN']. *)
Definition InvalidFenMessage (fen_ : string) : Prop :=
  forall e, newChess fen_ = inl e -> JS.startsWith (JS.message e) "Invalid FEN" = true.

End EngineProperties.

(* ===================================================================== *)
(** ** The quantities the specification speaks of *)
(* ===================================================================== *)

Section SpecTerms.

Local Open Scope Z_scope.

(** Piece values {pawn:1, knight:3, bishop:3, rook:5, queen:9, king:0}. *)
Definition pieceValue (t : PieceSymbol) : Z :=
  match t with
  | PAWN => 1 | KNIGHT => 3 | BISHOP => 3 | ROOK => 5 | QUEEN => 9 | KING => 0
  end.

(** Piece value, positive for White and negative for Black. *)
Definition signedValue (sq : BoardSquare) : Z :=
  match bs_color sq with
  | WHITE => pieceValue (bs_type sq)
  | BLACK => - pieceValue (bs_type sq)
  end.

Definition occupied (b : list (list (option BoardSquare))) : list BoardSquare :=
  flat_map (fun o => match o with Some sq => [sq] | None => [] end) (concat b).

(** The sum of the signed values over all occupied squares. *)
Definition materialBalance (b : list (list (option BoardSquare))) : Z :=
  fold_right Z.add 0 (map signedValue (occupied b)).

(** The number of plies played before the position of a FEN: twice the
    full moves completed, plus one when Black is to move. *)
Definition plyCountOfFen (f : string) : option Z :=
  let tok := ChessJs.tokenAt (ChessJs.splitSpaces f) in
  match ChessJs.parseInt (tok 5%nat) with
  | Some n => Some (2 * (n - 1) + (if String.eqb (tok 1%nat) "b" then 1 else 0))
  | None => None
  end.

(** [Math.random()] returns a number in [0, 1). *)
Definition unitInterval (r : Q) : Prop := (0 <= r)%Q /\ (r < 1)%Q.

End SpecTerms.

Section InputClasses.

Context {E : ChessEngine} {U : ChessUntyped E}.




(** The request that [ChessMove.POST] sends to the model for the
    ongoing game [g] loaded from [f]. *)
Definition chatFor (f : string) (g : Chess) : ChatRequest :=
  let turnText := JS.toUpperCase (colorChar (turn g)) in
  mkChat (ChessMove.selectModel (Z.of_nat (length (moves g))))
         (ChessMove.systemPrompt turnText (moves g))
         (ChessMove.userPrompt g f turnText (moves g))
         ChessMove.getAISettings.

(** The request that [getAiMove] sends for the game [g]. *)
Definition fetchFor (g : Chess) : FetchRequest :=
  {| fetch_url := "/api/chess-move";
     fetch_method := "POST";
     fetch_headers := [("Content-Type", "application/json")]%string;
     fetch_fen := fen g |}.

(** The engine's [move] accepts the value [m], a string or not, on the
    game [g] and gives [g']. *)
Definition Plays (g : Chess) (m : JS.Json) (g' : Chess) : Prop :=
  (exists s, m = JS.JString s /\ move g s = inr g') \/
  (exists v, m = JS.ofNonString v /\ moveOther g v = Some g').

(** The endpoint answered with an OK status and an object whose [move],
    a string or any other value, the engine accepts on the position of
    [game.fen()]. *)
Definition EndpointMoveValid (g : Chess) (reply : JS.Error + FetchResponse) (m : JS.Json)
  : Prop :=
  exists response body g0 g1,
    reply = inr response /\ ok response = true /\
    fetch_json response = inr (JS.JObject body) /\
    JS.prop body "move" = Some m /\
    newChess (fen g) = inr g0 /\ Plays g0 m g1.

(** The FEN that a request carries, if it carries one. *)
Definition fenOf (request : NextRequest) : option string :=
  match json request with
  | inr (ObjectBody (Some f)) => Some f
  | _ => None
  end.

End InputClasses.

(* ===================================================================== *)
(** ** Positions used for evaluation *)
(* ===================================================================== *)

Module Positions.

Local Open Scope string_scope.

Definition start : string :=
  "rnbqkbnr/pppppppp/8/8/8/8/PPPPPPPP/RNBQKBNR w KQkq - 0 1".

(** After 1. f3 e5 2. g4 Qh4, White is checkmated. *)
Definition foolsMate : string :=
  "rnb1kbnr/pppp1ppp/8/4p3/6Pq/5P2/PPPPP2P/RNBQKBNR w KQkq - 1 3".

(** After 1. e4 d5, White can capture on d5. *)
Definition scandinavian : string :=
  "rnbqkbnr/ppp1pppp/8/3p4/4P3/8/PPPP1PPP/RNBQKBNR w KQkq d6 0 2".

(** A middlegame position with 48 legal moves, given as move 1. *)
Definition kiwipete : string :=
  "r3k2r/p1ppqpb1/bn2pnp1/3PN3/1p2P3/2N2Q1p/PPPBBPPP/R3K2R w KQkq - 0 1".

(** King and pawn against king at move 40. *)
Definition pawnEnding : string :=
  "8/8/8/4k3/8/4K3/4P3/8 w - - 0 40".

(** Nine queens, two rooks, two bishops and a knight against a bare
    king that is not attacked. *)
Definition heavy : string :=
  "7k/8/8/8/8/8/QRQQRBBN/QQQQQQ1K w - - 0 1".

(** Black to move has no legal move and is not in check. *)
Definition stalemate : string :=
  "7k/5Q2/6K1/8/8/8/8/8 b - - 0 1".

(** U+00A0, the no-break space. *)
Definition nbsp : string :=
  String (ascii_of_nat 194) (String (ascii_of_nat 160) EmptyString).

Definition gameOf (f : string) : ChessJs.State :=
  match ChessJs.load f with
  | inr g => g
  | inl _ => ChessJs.mkState ChessJs.emptyBoard WHITE 0 0 ChessJs.EMPTY 0 1 [] []
  end.

Definition env : ProcessEnv := {| NODE_ENV := None; stackOf := fun _ => EmptyString |}.

Definition request (f : string) : NextRequest := {| json := inr (ObjectBody (Some f)) |}.

(** The outside world of a route handler: the answer of the model and
    the number that [Math.random()] draws. *)
Definition server (reply : JS.Error + Completion) (r : Q) : Handler ServerEvent :=
  fun X e =>
    match e in ServerEvent T return T with
    | OpenAICreate _ => reply
    | ServerRandom => r
    end.

(** The outside world of the client. *)
Definition client (reply : JS.Error + FetchResponse) (r : Q) : Handler ClientEvent :=
  fun X e =>
    match e in ClientEvent T return T with
    | Fetch _ => reply
    | ClientRandom => r
    end.

Definition quotaError : JS.Error :=
  {| JS.message := "You exceeded your current quota";
     JS.code := Some "insufficient_quota";
     JS.status := Some 429%Z |}.

End Positions.

(* ===================================================================== *)
(** ** src/app/api/chess-move/route.ts: the shapes of a response *)
(* ===================================================================== *)

Section ResponseShapes.

Context {E : ChessEngine}.

Local Open Scope string_scope.

(** The body that [POST] returns after a quota or rate-limit error. *)
Definition quotaResponse (rnd : option string) (apiError : JS.Error) : NextResponse :=
  NextResponse_json
    (optionalProp "move" rnd ++
     [("warning", JS.JString "Using random move due to API limits");
      ("originalError", JS.JString (JS.message apiError))])%list
    None.

(** The body that [POST] returns once the validated move was played on
    [gameAfterMove]. *)
Definition moveResponse (validatedMove : string) (gameAfterMove : Chess) : NextResponse :=
  let turnText := ChessMove.turnName (turn gameAfterMove) in
  NextResponse_json
    ([("move", JS.JString validatedMove);
      ("turn", JS.JString turnText);
      ("inCheck", JS.JBool (isCheck gameAfterMove));
      ("gameOver", JS.JBool false)] ++
     (if isCheck gameAfterMove then
        [("message",
          JS.JString ("Check! " ++ (if String.eqb turnText "white" then "White" else "Black") ++
                      " is in check."))]
      else []))%list
    None.

(** An answer that is a move or an error, and names no winner. *)
Definition WellShaped (response : NextResponse) : Prop :=
  ((res_status response = 200%Z /\
    (exists m, JS.prop (res_body response) "move" = Some (JS.JString m)) /\
    JS.prop (res_body response) "error" = None) \/
   ((res_status response = 400%Z \/ res_status response = 500%Z) /\
    (exists msg, JS.prop (res_body response) "error" = Some (JS.JString msg)) /\
    JS.prop (res_body response) "move" = None)) /\
  JS.prop (res_body response) "winner" = None /\
  JS.prop (res_body response) "reason" = None.

End ResponseShapes.

(* ===================================================================== *)
(** ** src/hooks/useChessGame.ts *)
(* ===================================================================== *)

Inductive GameStatus := Idle | PlayerTurn | AiThinking | GameOverStatus.

(** [winner] is ['white'], ['black'] or [null]. *)
Record GameResult := mkGameResult {
  winner : option Color;
  reason : string;
  result_message : string
}.

(** The values held by the [useState] cells of the hook. *)
Record HookState := mkHookState {
  hk_fen : string;
  hk_history : list Move;
  hk_evaluation : Q;
  hk_error : option string;
  hk_gameOver : bool;
  hk_status : GameStatus;
  hk_gameResult : option GameResult
}.

Section UseChessGame.

Context {E : ChessEngine} {U : ChessUntyped E}.

Local Open Scope string_scope.

Definition getGameOverMessage (reason_ : string) (winner_ : option Color) : string :=
  if String.eqb reason_ "checkmate" then
    "Checkmate! " ++
    (match winner_ with Some WHITE => "White" | _ => "Black" end) ++ " wins!"
  else if String.eqb reason_ "stalemate" then "Game drawn by stalemate"
  else if String.eqb reason_ "insufficient-material" then
    "Game drawn by insufficient material"
  else if String.eqb reason_ "threefold-repetition" then
    "Game drawn by threefold repetition"
  else "Game over".

(** The [GameResult] that [updateGameState] stores for a finished game. *)
Definition resultOf (game : Chess) : GameResult :=
  let winner0 := Some (match turn game with WHITE => BLACK | BLACK => WHITE end) in
  let '(reason_, winner_) :=
    if isCheckmate game then ("checkmate", winner0)
    else if isStalemate game then ("stalemate", None)
    else if isInsufficientMaterial game then ("insufficient-material", None)
    else if isThreefoldRepetition game then ("threefold-repetition", None)
    else ("game-over", winner0) in
  {| winner := winner_;
     reason := reason_;
     result_message := getGameOverMessage reason_ winner_ |}.

(** [updateGameState]; [mounted] is [isMounted.current]. *)
Definition updateGameState (mounted : bool) (game : Chess) (st : HookState) : HookState :=
  if negb mounted then st
  else
    let evalScore := evaluateBoard game in
    if isGameOver game || isDraw game then
      {| hk_fen := fen game;
         hk_history := history game;
         hk_evaluation := evalScore;
         hk_error := hk_error st;
         hk_gameOver := true;
         hk_status := GameOverStatus;
         hk_gameResult := Some (resultOf game) |}
    else
      {| hk_fen := fen game;
         hk_history := history game;
         hk_evaluation := evalScore;
         hk_error := hk_error st;
         hk_gameOver := hk_gameOver st;
         hk_status := match turn game with BLACK => AiThinking | WHITE => PlayerTurn end;
         hk_gameResult := hk_gameResult st |}.

Definition withStatus (st : HookState) (s : GameStatus) (err : option string) : HookState :=
  {| hk_fen := hk_fen st;
     hk_history := hk_history st;
     hk_evaluation := hk_evaluation st;
     hk_error := err;
     hk_gameOver := hk_gameOver st;
     hk_status := s;
     hk_gameResult := hk_gameResult st |}.

(** [makeAIMove]: the game and the state once the promise settles;
    [mounted] is [isMounted.current] after the [await]. *)
Definition makeAIMove (mounted : bool) (game : Chess) (st : HookState)
  : Prog ClientEvent (Chess * HookState) :=
  if isGameOver game || isDraw game then
    Ret (game, withStatus st GameOverStatus (hk_error st))
  else
    let st1 := withStatus st AiThinking None in
    aiMove <- getAiMove game ;;
    if negb mounted then Ret (game, st1)
    else if JS.truthy aiMove then
      match moveAny game aiMove with
      | Some game' => Ret (game', updateGameState mounted game' st1)
      | None =>
          Ret (game, withStatus st1 PlayerTurn
                                (Some "Failed to get AI move. Please try again."))
      end
    else Ret (game, st1).

End UseChessGame.

(* ===================================================================== *)
(** ** The client and the endpoint together *)
(* ===================================================================== *)

Section Transport.

Context {E : ChessEngine} {U : ChessUntyped E}.

Local Open Scope string_scope.




End Transport.

(* ===================================================================== *)
(** ** src/components/MoveHistory.tsx *)
(* ===================================================================== *)

Section MoveHistory.

Local Open Scope string_scope.

(** The loop that fills [movePairs]: [[history[i], history[i + 1]]]
    for [i = 0, 2, 4, ...]; [None] is [undefined]. *)
Fixpoint movePairs (history_ : list Move) : list (Move * option Move) :=
  match history_ with
  | [] => []
  | whiteMove :: rest =>
      match rest with
      | [] => [(whiteMove, None)]
      | blackMove :: rest' => (whiteMove, Some blackMove) :: movePairs rest'
      end
  end.

(** The two cells of the table row of index [index]. *)
Definition rowCells (index : nat) (row : Move * option Move) : string * string :=
  (JS.showNat (index + 1) ++ ". " ++ mv_san (fst row),
   match snd row with
   | Some blackMove => mv_san blackMove
   | None => EmptyString
   end).

Fixpoint rowsFrom (index : nat) (pairs : list (Move * option Move)) : list (string * string) :=
  match pairs with
  | [] => []
  | row :: rest => rowCells index row :: rowsFrom (S index) rest
  end.

Definition tableRows (history_ : list Move) : list (string * string) :=
  rowsFrom 0 (movePairs history_).

(** The moves of a list of pairs, in order. *)
Definition unpair (pairs : list (Move * option Move)) : list Move :=
  flat_map (fun row => fst row :: match snd row with Some b => [b] | None => [] end) pairs.

End MoveHistory.

(* ===================================================================== *)
(** ** The chess-move-2 endpoint: weak squares and pawn structure *)
(* ===================================================================== *)

(** What [game.get(square)] returns. *)
Record PieceOn := mkPieceOn { on_type : PieceSymbol; on_color : Color }.

(** [game.get(square)]; [None] is the falsy value for an empty or
    unknown square. *)
Class ChessBoardAccess (E : ChessEngine) := {
  get : Chess -> string -> option PieceOn
}.

Definition chessjs_get (s : ChessJs.State) (square : string) : option PieceOn :=
  match ChessJs.squareOf square with
  | Some sq =>
      match ChessJs.get (ChessJs._board s) sq with
      | Some p => Some (mkPieceOn (ChessJs.p_type p) (ChessJs.p_color p))
      | None => None
      end
  | None => None
  end.

#[export] Instance chessjs_access : ChessBoardAccess ChessJs.engine :=
  @Build_ChessBoardAccess ChessJs.engine chessjs_get.

Module ChessMove2Position.
Section Helpers.

Context {E : ChessEngine} {A : ChessBoardAccess E}.

Local Open Scope string_scope.

(** [arr.forEach((x, i) => ...)] collecting what the body pushes. *)
Fixpoint forEachIndexed {X Y : Type} (f : X -> nat -> list Y) (i : nat) (l : list X) : list Y :=
  match l with
  | [] => []
  | x :: t => (f x i ++ forEachIndexed f (S i) t)%list
  end.

(** [String.fromCharCode(97 + fileIdx) + (8 - rankIdx)] *)
Definition squareName (fileIdx rankIdx : nat) : string :=
  String (ascii_of_nat (97 + fileIdx)) EmptyString ++
  JS.showZ (8 - Z.of_nat rankIdx).

Definition weakSquares (game : Chess) (color : Color) : list string :=
  let opponent := match color with WHITE => BLACK | BLACK => WHITE end in
  forEachIndexed
    (fun rank_ rankIdx =>
       forEachIndexed
         (fun square fileIdx =>
            match square with
            | Some _ => []
            | None =>
                let name := squareName fileIdx rankIdx in
                match get game name with
                | Some inFront =>
                    if PieceSymbol_eqb (on_type inFront) PAWN &&
                       Color_eqb (on_color inFront) opponent
                    then [name] else []
                | None => []
                end
            end) 0 rank_)
    0 (board game).

Definition identifyWeakSquares (game : Chess) (color : Color) : string :=
  match weakSquares game color with
  | [] => "No obvious weak squares"
  | l => JS.join ", " l
  end.

(** The squares of the pawns of [color], in board order. *)
Definition pawnSquares (game : Chess) (color : Color) : list string :=
  flat_map (fun o =>
              match o with
              | Some sq =>
                  if PieceSymbol_eqb (bs_type sq) PAWN && Color_eqb (bs_color sq) color
                  then [bs_square sq] else []
              | None => []
              end) (concat (board game)).

Definition optAsciiEqb (a b : option ascii) : bool :=
  match a, b with
  | Some x, Some y => Ascii.eqb x y
  | None, None => true
  | _, _ => false
  end.

(** [new Set(items)]: the items without repetition, in the order in
    which they first occur. *)
Fixpoint addAll (seen : list (option ascii)) (items : list (option ascii))
  : list (option ascii) :=
  match items with
  | [] => seen
  | x :: rest =>
      if existsb (optAsciiEqb x) seen then addAll seen rest
      else addAll (seen ++ [x])%list rest
  end.

Definition newSet (items : list (option ascii)) : list (option ascii) := addAll [] items.

(** [pawns.map(p => p[0])]; [None] is [undefined]. *)
Definition pawnFiles (game : Chess) (color : Color) : list (option ascii) :=
  map (String.get 0) (pawnSquares game color).

Definition files (game : Chess) (color : Color) : list (option ascii) :=
  newSet (pawnFiles game color).

Definition doubledPawns (game : Chess) (color : Color) : nat :=
  length (pawnSquares game color) - length (files game color).

(** [files.has(String.fromCharCode(code))] *)
Definition hasCode (fs : list (option ascii)) (code_ : Z) : bool :=
  existsb (fun f =>
             match f with
             | Some c => (Z.of_nat (nat_of_ascii c) =? code_)%Z
             | None => false
             end) fs.

Definition isIsolated (fs : list (option ascii)) (f : ascii) : bool :=
  let c := Z.of_nat (nat_of_ascii f) in
  negb (hasCode fs (c - 1)) && negb (hasCode fs (c + 1)).

(** The number of files kept by the filter; it throws on [undefined]. *)
Definition isolatedPawns (game : Chess) (color : Color) : JS.Error + nat :=
  let fs := files game color in
  if existsb (optAsciiEqb None) fs then
    inl (JS.newError "Cannot read properties of undefined (reading 'charCodeAt')")
  else
    inr (length (filter (fun f => match f with
                                  | Some c => isIsolated fs c
                                  | None => false
                                  end) fs)).

Definition evaluatePawnStructure (game : Chess) (color : Color) : JS.Error + string :=
  match pawnSquares game color with
  | [] => inr "No pawns"
  | pawns =>
      match isolatedPawns game color with
      | inl e => inl e
      | inr isolated =>
          inr (JS.showNat (length pawns) ++ " pawns, " ++
               JS.showNat (doubledPawns game color) ++ " doubled, " ++
               JS.showNat isolated ++ " isolated")
      end
  end.

End Helpers.
End ChessMove2Position.

(* ===================================================================== *)
(** ** Further assumptions on the rules engine *)
(* ===================================================================== *)

Section MoreEngineProperties.

Context {E : ChessEngine} {U : ChessUntyped E}.

(** A move, a string or any other value, that the engine accepts on
    the game rebuilt from [game.fen()] is accepted on the game itself. *)
Definition FenFaithful (g : Chess) : Prop :=
  forall g0 m g1, newChess (fen g) = inr g0 -> Plays g0 m g1 -> exists g', Plays g m g'.

(** [get] returns nothing on a square that [board()] shows empty. *)
Definition BoardMatchesGet {A : ChessBoardAccess E} (g : Chess) : Prop :=
  forall rankIdx fileIdx rank_,
    nth_error (board g) rankIdx = Some rank_ ->
    nth_error rank_ fileIdx = Some None ->
    get g (ChessMove2Position.squareName fileIdx rankIdx) = None.

End MoreEngineProperties.

Section MoreSpecTerms.

(** The same board with the colours of all pieces exchanged. *)
Definition swapSides (b : list (list (option BoardSquare))) : list (list (option BoardSquare)) :=
  map (map (option_map (fun sq => {| bs_square := bs_square sq;
                                     bs_type := bs_type sq;
                                     bs_color := swapColor (bs_color sq) |}))) b.

End MoreSpecTerms.

Module MorePositions.

Local Open Scope string_scope.

(** King and pawn against king with the fifty-move counter at 100. *)
Definition fiftyMoves : string := "8/8/8/4k3/8/4K3/4P3/8 w - - 100 80".

(** White has doubled pawns on the c-file and an isolated h-pawn. *)
Definition doubled : string := "4k3/8/8/8/2P5/2P5/1P5P/4K3 w - - 0 1".

(** After 1. f3 e5 2. g4: Black mates with Qh4. *)
Definition beforeMate : string :=
  "rnbqkbnr/pppp1ppp/8/4p3/6P1/5P2/PPPPP2P/RNBQKBNR b KQkq - 0 2".

(** A development server. *)
Definition devEnv : ProcessEnv :=
  {| NODE_ENV := Some "development";
     stackOf := fun e => "Error: " ++ JS.message e |}.

(** A king and a pawn each; the colours of [pawnUp] exchanged. *)
Definition pawnUp : string := "4k3/8/8/8/8/8/4P3/4K3 w - - 0 1".
Definition pawnDown : string := "4K3/8/8/8/8/8/4p3/4k3 w - - 0 1".

Definition initialState : HookState :=
  {| hk_fen := Positions.start;
     hk_history := [];
     hk_evaluation := inject_Z 0;
     hk_error := None;
     hk_gameOver := false;
     hk_status := PlayerTurn;
     hk_gameResult := None |}.

End MorePositions.

(* ===================================================================== *)
(** * Properties *)
(* ===================================================================== *)

From Stdlib Require Import Qcanon.

Close Scope Qc_scope.
Close Scope Q_scope.

(** ** Strings and random picks *)

(** [trim] removes every white-space character and line terminator at
    both ends, and nothing else: U+0085 and U+200B stay. *)
Example trim_white_space :
  let bytes l := string_of_list_ascii (map ascii_of_nat l) in
  let spaces := bytes [9; 10; 11; 12; 13; 32; 194; 160; 225; 154; 128;
                       226; 128; 128; 226; 128; 138; 226; 128; 168; 226; 128; 169;
                       226; 128; 175; 226; 129; 159; 227; 128; 128; 239; 187; 191] in
  JS.trim (spaces ++ "e4 e5" ++ spaces) = "e4 e5"%string /\
  JS.trim spaces = EmptyString /\
  JS.trim (bytes [194; 133; 101; 52; 226; 128; 139]) = bytes [194; 133; 101; 52; 226; 128; 139].
Proof. vm_compute. repeat split. Qed.


Lemma startsWith_append (p t : string) : JS.startsWith (p ++ t) p = true.
Proof.
  induction p as [|c p IH]; simpl; [reflexivity |].
  now rewrite Ascii.eqb_refl, IH.
Qed.


Lemma startsWith_includes (s p : string) :
  JS.startsWith s p = true -> JS.includes s p = true.
Proof.
  intros H. destruct s; simpl in *; rewrite H; reflexivity.
Qed.

Lemma includes_append_r (a b sub : string) :
  JS.includes b sub = true -> JS.includes (a ++ b) sub = true.
Proof.
  intros H. induction a as [|c a IH]; simpl; [exact H |].
  rewrite IH. apply orb_true_r.
Qed.


Section RandomPick.

Variable A : Type.

Lemma randomIndex_bounds (r : Q) (len : nat) :
  unitInterval r -> (0 < len)%nat ->
  (0 <= JS.randomIndex r len < Z.of_nat len)%Z.
Proof.
  intros [H0 H1] Hlen. unfold JS.randomIndex.
  set (n := inject_Z (Z.of_nat len)).
  assert (Hn : (0 < n)%Q).
  { unfold n. change 0%Q with (inject_Z 0). rewrite <- Zlt_Qlt. lia. }
  split.
  - change 0%Z with (Qfloor 0). apply Qfloor_resp_le.
    apply Qmult_le_0_compat; [exact H0 | apply Qlt_le_weak, Hn].
  - rewrite Zlt_Qlt. fold n.
    apply Qle_lt_trans with (r * n)%Q; [apply Qfloor_le |].
    setoid_replace n with (1 * n)%Q at 2 by ring.
    apply Qmult_lt_compat_r; assumption.
Qed.

(** A number of [0, 1) picks a member of a non-empty array. *)
Lemma randomElement_nonempty (r : Q) (l : list A) :
  unitInterval r -> l <> [] -> exists x, JS.randomElement r l = Some x /\ In x l.
Proof.
  intros Hr Hl.
  assert (Hlen : (0 < length l)%nat) by (destruct l; [congruence | simpl; lia]).
  destruct (randomIndex_bounds Hr Hlen) as [Hlo Hhi].
  unfold JS.randomElement.
  destruct (Z.ltb_spec (JS.randomIndex r (length l)) 0) as [Hneg | _]; [lia |].
  destruct (nth_error l (Z.to_nat (JS.randomIndex r (length l)))) as [x |] eqn:Hx.
  - exists x. split; [reflexivity | eapply nth_error_In; exact Hx].
  - apply nth_error_None in Hx. lia.
Qed.

(** Whatever number is drawn, the pick is a member or [undefined]. *)
Lemma randomElement_member (r : Q) (l : list A) (x : A) :
  JS.randomElement r l = Some x -> In x l.
Proof.
  unfold JS.randomElement.
  destruct (JS.randomIndex r (length l) <? 0)%Z; [discriminate |].
  apply nth_error_In.
Qed.

Lemma randomElement_empty (r : Q) : JS.randomElement r (@nil A) = None.
Proof.
  unfold JS.randomElement.
  destruct (JS.randomIndex r (length (@nil A)) <? 0)%Z; [reflexivity |].
  now destruct (Z.to_nat _).
Qed.

End RandomPick.

(** ** The evaluator *)

Section EvaluatorFacts.

Local Open Scope Z_scope.

(** Rounding to one decimal leaves a whole number unchanged. *)
Lemma toFixed1_whole (z : Z) : toFixed1 (inject_Z z) = inject_Z z.
Proof.
  unfold toFixed1, inject_Z. cbn [Qnum Qabs Qmult Qplus Qfloor Qden].
  change (Z.pos (1 * 1)) with 1. change (Z.pos (1 * 1 * 2)) with 2.
  replace ((Z.abs z * 10 * 2 + 1 * 1) / 2) with (10 * Z.abs z)
    by (apply Z.div_unique with (r := 1); lia).
  replace (Z.sgn z * (10 * Z.abs z)) with (z * 10) by lia.
  transitivity (Qred (z # 1)).
  - apply Qred_complete. unfold Qeq; cbn. lia.
  - apply Qred_identity. cbn. apply Z.gcd_1_r.
Qed.

Lemma orZero_value (t : PieceSymbol) : orZero (PIECE_VALUES t) = pieceValue t.
Proof. destruct t; reflexivity. Qed.

Lemma addSquare_row (row : list (option BoardSquare)) (acc : Z) :
  fold_left addSquare row acc =
  acc + fold_right Z.add 0
                   (map signedValue
                        (flat_map (fun o => match o with Some sq => [sq] | None => [] end) row)).
Proof.
  revert acc; induction row as [|[sq|] row IH]; intros acc; cbn [fold_left flat_map].
  - cbn. lia.
  - rewrite IH. cbn [app map fold_right].
    unfold addSquare, signedValue. rewrite orZero_value.
    destruct (bs_color sq); lia.
  - rewrite IH. cbn. reflexivity.
Qed.

Lemma sumMaterial_rows (b : list (list (option BoardSquare))) (acc : Z) :
  fold_left (fun materialScore row => fold_left addSquare row materialScore) b acc =
  acc + materialBalance b.
Proof.
  unfold materialBalance, occupied.
  revert acc; induction b as [|row b IH]; intros acc; cbn [fold_left concat].
  - cbn. lia.
  - rewrite IH, addSquare_row, flat_map_app, map_app, fold_right_app.
    set (f := fun o : option BoardSquare => match o with Some sq => [sq] | None => [] end).
    generalize (fold_right Z.add 0 (map signedValue (flat_map f (concat b)))).
    intros rest.
    assert (Hshift : forall l k, fold_right Z.add k l = fold_right Z.add 0 l + k).
    { induction l as [|x l IHl]; intros k; cbn; [lia | rewrite IHl; lia]. }
    rewrite (Hshift _ rest). lia.
Qed.

(** The two nested loops of [evaluateBoard] compute the material
    balance. *)
Lemma sumMaterial_balance (b : list (list (option BoardSquare))) :
  sumMaterial b = materialBalance b.
Proof. unfold sumMaterial. rewrite sumMaterial_rows. lia. Qed.

End EvaluatorFacts.

(** ** The reference engine has the assumed properties *)

Section ChessJsProperties.

Local Existing Instance ChessJs.engine.
Local Existing Instance ChessJs.untyped.

(** Replace the methods of the interface by the functions of
    [ChessJs] without evaluating them. *)
Ltac on_chessjs :=
  cbv beta iota delta
      [ChessJs.engine Chess newChess fen turn board history movesVerbose moves move
       isCheck isCheckmate isStalemate isInsufficientMaterial isThreefoldRepetition
       isDraw isGameOver
       MateEndsGame MovesWhileOngoing StalemateIsDraw RepetitionIsDraw
       InsufficientIsDraw Accepted ListedMovesAccepted MoverColor SanNonEmpty
       FreshHistory InvalidFenMessage].

Lemma chessjs_mate_ends_game (s : ChessJs.State) : MateEndsGame s.
Proof.
  on_chessjs. unfold ChessJs.isGameOver. now intros ->.
Qed.

Lemma chessjs_moves_while_ongoing (s : ChessJs.State) : MovesWhileOngoing s.
Proof.
  on_chessjs.
  unfold ChessJs.isGameOver, ChessJs.isCheckmate, ChessJs.isStalemate,
    ChessJs.moves, ChessJs.noMoves.
  destruct (ChessJs.legalMoves s ChessJs.AnyPiece) as [|m ms]; [| discriminate].
  destruct (ChessJs.isCheck s); discriminate.
Qed.

Lemma chessjs_stalemate_is_draw (s : ChessJs.State) : StalemateIsDraw s.
Proof.
  on_chessjs. unfold ChessJs.isDraw. intros ->.
  now rewrite orb_true_r.
Qed.

Lemma chessjs_repetition_is_draw (s : ChessJs.State) : RepetitionIsDraw s.
Proof.
  on_chessjs. unfold ChessJs.isDraw. intros ->.
  now rewrite orb_true_r.
Qed.

Lemma chessjs_insufficient_is_draw (s : ChessJs.State) : InsufficientIsDraw s.
Proof.
  on_chessjs. unfold ChessJs.isDraw. intros ->.
  now rewrite orb_true_r.
Qed.

Lemma chessjs_fresh_history (f : string) : FreshHistory f.
Proof.
  on_chessjs. unfold ChessJs.load. intros g.
  destruct (ChessJs.validateFen _); [discriminate |].
  intros H; injection H as <-. reflexivity.
Qed.


Lemma acceptsListedMoves_sound (s : ChessJs.State) :
  ChessJs.acceptsListedMoves s = true -> ListedMovesAccepted s.
Proof.
  on_chessjs. unfold ChessJs.acceptsListedMoves.
  intros H san Hin. rewrite forallb_forall in H. specialize (H san Hin).
  destruct (ChessJs.move s san) as [e | g']; [discriminate | now exists g'].
Qed.

Lemma listsNoEmptyMove_sound (s : ChessJs.State) :
  ChessJs.listsNoEmptyMove s = true -> SanNonEmpty s.
Proof.
  on_chessjs. unfold ChessJs.listsNoEmptyMove.
  intros H san Hin ->. rewrite forallb_forall in H. specialize (H _ Hin).
  discriminate.
Qed.

End ChessJsProperties.

(** *** Every generated move carries the colour of the side to move *)

Section MoverColorInvariant.

Import ChessJs.

Lemma addMove_color c from to piece captured flags m :
  In m (addMove c from to piece captured flags) -> i_color m = c.
Proof.
  unfold addMove.
  destruct (PieceSymbol_eqb piece PAWN && _).
  - rewrite in_map_iff. intros [promo [<- _]]. reflexivity.
  - intros [<- | []]. reflexivity.
Qed.

Ltac by_addMove :=
  match goal with
  | H : In _ (addMove _ _ _ _ _ _) |- _ => exact (addMove_color _ _ _ _ _ _ _ H)
  | H : In _ [] |- _ => destruct H
  end.

Lemma pawnMoves_color s from m : In m (pawnMoves s from) -> i_color m = _turn s.
Proof.
  unfold pawnMoves. rewrite in_app_iff, in_flat_map.
  intros [H | [j [_ H]]].
  - destruct (isEmptySq _ _); [| by_addMove].
    rewrite in_app_iff in H. destruct H as [H | H]; [by_addMove |].
    destruct (_ && _); by_addMove.
  - destruct (offBoard _); [by_addMove |].
    destruct (get _ _) as [p |].
    + destruct (Color_eqb _ _); [by_addMove |].
      destruct (_ =? _)%Z; by_addMove.
    + destruct (_ =? _)%Z; by_addMove.
Qed.

Lemma slide_color fuel s from cur offset t m :
  In m (slide fuel s from cur offset t) -> i_color m = _turn s.
Proof.
  revert cur; induction fuel as [|fuel IH]; intros cur; cbn [slide]; [intros [] |].
  destruct (offBoard _); [intros [] |].
  destruct (get _ _) as [p |].
  - destruct (Color_eqb _ _); intros H; by_addMove.
  - rewrite in_app_iff. intros [H | H]; [by_addMove |].
    destruct (_ || _); [destruct H | exact (IH _ H)].
Qed.

Lemma pieceMoves_color s from t m : In m (pieceMoves s from t) -> i_color m = _turn s.
Proof.
  unfold pieceMoves. rewrite in_flat_map. intros [offset [_ H]].
  exact (slide_color _ _ _ _ _ _ _ H).
Qed.

Lemma castlingMoves_color s m : In m (castlingMoves s) -> i_color m = _turn s.
Proof.
  unfold castlingMoves. rewrite in_app_iff.
  intros [H | H]; destruct (hasBit _ _); try by_addMove;
    match type of H with In _ (if ?c then _ else _) => destruct c end; by_addMove.
Qed.

Lemma pseudoMoves_color s forPiece m :
  In m (pseudoMoves s forPiece) -> i_color m = _turn s.
Proof.
  unfold pseudoMoves. rewrite in_app_iff, in_flat_map.
  intros [[from [_ H]] | H].
  - destruct (get _ _) as [p |]; [| destruct H].
    destruct (_ && _); [| destruct H].
    destruct (p_type p);
      first [exact (pawnMoves_color _ _ _ H) | exact (pieceMoves_color _ _ _ _ H)].
  - destruct (wantCastling _); [exact (castlingMoves_color _ _ H) | destruct H].
Qed.

Lemma legalMoves_color s forPiece m :
  In m (legalMoves s forPiece) -> i_color m = _turn s.
Proof.
  unfold legalMoves. destruct (_ =? _)%Z.
  - apply pseudoMoves_color.
  - rewrite filter_In. intros [H _]. exact (pseudoMoves_color _ _ _ H).
Qed.

Lemma chessjs_mover_color (s : State) : MoverColor (E := engine) s.
Proof.
  unfold MoverColor.
  change (forall m, In m (movesVerbose s) -> mv_color m = _turn s).
  unfold movesVerbose. intros m.
  rewrite in_map_iff. intros [im [<- Him]]. cbn [prettyMoveWith mv_color].
  exact (legalMoves_color _ _ _ Him).
Qed.

End MoverColorInvariant.

(** ** The evaluator: checkmate, draws and material *)

Section EvaluatorClaims.

Context {E : ChessEngine} {U : ChessUntyped E}.

Local Open Scope Z_scope.

(** C2, amended.  On a checkmate position [evaluateBoard] returns -100
    when White is to move and +100 when Black is to move.  Conversely,
    a score of absolute value 100 means that the position is checkmate
    or that it is not a draw and its material balance is itself 100 or
    -100. *)
Theorem evaluateBoard_mate_score (g : Chess) :
  (isCheckmate g = true ->
   evaluateBoard g = match turn g with
                     | WHITE => inject_Z (-100)
                     | BLACK => inject_Z 100
                     end) /\
  (Qabs (evaluateBoard g) = inject_Z 100 ->
   isCheckmate g = true \/
   ((isDraw g || isThreefoldRepetition g || isInsufficientMaterial g) = false /\
    Z.abs (materialBalance (board g)) = 100)).
Proof.
  unfold evaluateBoard. split.
  - now intros ->.
  - destruct (isCheckmate g); [now left |].
    destruct (isDraw g || isThreefoldRepetition g || isInsufficientMaterial g).
    + discriminate.
    + rewrite toFixed1_whole, sumMaterial_balance. cbn.
      intros H. right. split; [reflexivity | now injection H].
Qed.

(** C3.  When the position is neither checkmate nor a draw,
    [evaluateBoard] returns the sum of the signed piece values over the
    occupied squares; the sum is a whole number, which the rounding to
    one decimal leaves as it is.  When the position is a draw by
    stalemate, insufficient material or threefold repetition (it is one
    of these and not checkmate; this is the order in which
    [useChessGame] names the result of a finished game), it returns 0. *)
Theorem evaluateBoard_material_and_draws (g : Chess) :
  RepetitionIsDraw g -> InsufficientIsDraw g -> StalemateIsDraw g ->
  (isCheckmate g = false -> isDraw g = false ->
   evaluateBoard g = inject_Z (materialBalance (board g))) /\
  (isCheckmate g = false ->
   isStalemate g = true \/ isInsufficientMaterial g = true \/
   isThreefoldRepetition g = true ->
   evaluateBoard g = inject_Z 0) /\
  (forall reason,
      gameOverReason g = Some reason ->
      In reason ["stalemate"; "insufficient-material"; "threefold-repetition"]%string ->
      evaluateBoard g = inject_Z 0).
Proof.
  intros Hrep Hins Hstale.
  assert (Hzero : isCheckmate g = false ->
                  isStalemate g = true \/ isInsufficientMaterial g = true \/
                  isThreefoldRepetition g = true ->
                  evaluateBoard g = inject_Z 0).
  { unfold evaluateBoard. intros -> [Hs | [Hi | Hr]].
    - now rewrite (Hstale Hs).
    - now rewrite Hi, !orb_true_r.
    - now rewrite Hr, orb_true_r. }
  split; [| split; [exact Hzero |]].
  - unfold evaluateBoard. intros -> Hdraw. rewrite Hdraw.
    destruct (isThreefoldRepetition g) eqn:Hr; [rewrite (Hrep Hr) in Hdraw; discriminate |].
    destruct (isInsufficientMaterial g) eqn:Hi; [rewrite (Hins Hi) in Hdraw; discriminate |].
    cbn [orb]. now rewrite sumMaterial_balance, toFixed1_whole.
  - intros reason. unfold gameOverReason.
    destruct (isGameOver g || isDraw g); [| discriminate].
    destruct (isCheckmate g) eqn:Hmate.
    { intros [= <-] Hin. cbn in Hin. intuition discriminate. }
    destruct (isStalemate g) eqn:Hs; [intros _ _; apply Hzero; auto |].
    destruct (isInsufficientMaterial g) eqn:Hi; [intros _ _; apply Hzero; auto |].
    destruct (isThreefoldRepetition g) eqn:Hr; [intros _ _; apply Hzero; auto |].
    intros [= <-] Hin. cbn in Hin. intuition discriminate.
Qed.

End EvaluatorClaims.

Section EvaluatorOnChessJs.

Local Existing Instance ChessJs.engine.
Local Existing Instance ChessJs.untyped.

(** The claim of C2 as stated fails on [Positions.heavy]: the score is
    100 on material alone and the position is not checkmate. *)
Lemma evaluateBoard_100_without_mate :
  newChess Positions.heavy = inr (Positions.gameOf Positions.heavy) /\
  Qabs (evaluateBoard (Positions.gameOf Positions.heavy)) = inject_Z 100 /\
  isCheckmate (Positions.gameOf Positions.heavy) = false.
Proof. vm_compute. repeat split. Qed.

Example evaluateBoard_fools_mate :
  evaluateBoard (Positions.gameOf Positions.foolsMate) = inject_Z (-100).
Proof. vm_compute. reflexivity. Qed.

Example evaluateBoard_start :
  evaluateBoard (Positions.gameOf Positions.start) = inject_Z 0.
Proof. vm_compute. reflexivity. Qed.

(** C3 on a pawn ending, where White is a pawn up and the score is 1,
    and on a stalemate, where White has an extra queen and the score
    is 0. *)
Lemma evaluateBoard_material_and_draws_witness :
  let g := Positions.gameOf Positions.pawnEnding in
  let g' := Positions.gameOf Positions.stalemate in
  (RepetitionIsDraw g /\ InsufficientIsDraw g /\ StalemateIsDraw g /\
   isCheckmate g = false /\ isDraw g = false /\
   materialBalance (board g) = 1%Z /\
   evaluateBoard g = inject_Z 1) /\
  (RepetitionIsDraw g' /\ InsufficientIsDraw g' /\ StalemateIsDraw g' /\
   gameOverReason g' = Some "stalemate"%string /\
   materialBalance (board g') = 9%Z /\
   evaluateBoard g' = inject_Z 0).
Proof.
  intros g g'. split.
  - pose proof (chessjs_repetition_is_draw g) as Hr.
    pose proof (chessjs_insufficient_is_draw g) as Hi.
    pose proof (chessjs_stalemate_is_draw g) as Hs.
    assert (Hmate : isCheckmate g = false) by (vm_compute; reflexivity).
    assert (Hdraw : isDraw g = false) by (vm_compute; reflexivity).
    assert (Hbal : materialBalance (board g) = 1%Z) by (vm_compute; reflexivity).
    refine (conj Hr (conj Hi (conj Hs (conj Hmate (conj Hdraw (conj Hbal _)))))).
    exact (eq_trans (proj1 (evaluateBoard_material_and_draws Hr Hi Hs) Hmate Hdraw)
                    (f_equal inject_Z Hbal)).
  - pose proof (chessjs_repetition_is_draw g') as Hr.
    pose proof (chessjs_insufficient_is_draw g') as Hi.
    pose proof (chessjs_stalemate_is_draw g') as Hs.
    refine (conj Hr (conj Hi (conj Hs (conj _ (conj _ _))))).
    + vm_compute. reflexivity.
    + vm_compute. reflexivity.
    + apply (proj2 (proj2 (evaluateBoard_material_and_draws Hr Hi Hs)) "stalemate"%string).
      * vm_compute. reflexivity.
      * now left.
Defined.

(** The move generator of the reference engine on standard test
    positions. *)
Example perft_start :
  ChessJs.perft 1 (Positions.gameOf Positions.start) = 20%nat /\
  ChessJs.perft 2 (Positions.gameOf Positions.start) = 400%nat.
Proof. vm_compute. split; reflexivity. Qed.

Example perft_kiwipete :
  ChessJs.perft 1 (Positions.gameOf Positions.kiwipete) = 48%nat /\
  ChessJs.perft 2 (Positions.gameOf Positions.kiwipete) = 2039%nat.
Proof. vm_compute. split; reflexivity. Qed.

Example moves_start :
  moves (Positions.gameOf Positions.start)
  = ["a3"; "a4"; "b3"; "b4"; "c3"; "c4"; "d3"; "d4"; "e3"; "e4"; "f3"; "f4";
     "g3"; "g4"; "h3"; "h4"; "Na3"; "Nc3"; "Nf3"; "Nh3"]%string.
Proof. vm_compute. reflexivity. Qed.

Example moves_pawnEnding :
  moves (Positions.gameOf Positions.pawnEnding) = ["Kf3"; "Kf2"; "Kd2"; "Kd3"]%string.
Proof. vm_compute. reflexivity. Qed.

Example fen_roundtrip_kiwipete :
  fen (Positions.gameOf Positions.kiwipete) = Positions.kiwipete.
Proof. vm_compute. reflexivity. Qed.

End EvaluatorOnChessJs.

(** ** The chess-move endpoint *)

Lemma run_bind {Ev : Type -> Type} {A B : Type} (h : Handler Ev)
      (p : Prog Ev A) (f : A -> Prog Ev B) :
  run h (bind p f) = run h (f (run h p)).
Proof.
  induction p as [a | X e k IH]; cbn; [reflexivity | apply IH].
Qed.

Section ChessMoveFacts.

Context {E : ChessEngine} {U : ChessUntyped E}.

Import ChessMove.

Lemma createChessGame_inv (f : string) (g : Chess) :
  createChessGame f = inr g ->
  newChess f = inr g /\ isGameOver g = false /\ isDraw g = false.
Proof.
  unfold createChessGame. destruct (newChess f) as [e | g0]; [discriminate |].
  destruct (isGameOver g0 || isDraw g0) eqn:Hover; [discriminate |].
  intros [= <-]. apply orb_false_iff in Hover. tauto.
Qed.

Lemma createChessGame_ongoing (f : string) (g : Chess) :
  newChess f = inr g -> isGameOver g = false -> isDraw g = false ->
  createChessGame f = inr g.
Proof. unfold createChessGame. now intros -> -> ->. Qed.

Lemma createChessGame_over (f : string) (g : Chess) :
  newChess f = inr g -> (isGameOver g || isDraw g) = true ->
  createChessGame f = inl (JS.newError "Game is already over").
Proof. unfold createChessGame. now intros -> ->. Qed.


(** A request with a non-empty FEN is answered by [processGame] and
    the outer [catch]. *)
Lemma POST_with_fen (env : ProcessEnv) (request : NextRequest) (c : ascii) (f : string) :
  json request = inr (ObjectBody (Some (String c f))) ->
  POST env request =
  (r <- processGame (String c f) ;;
   match r with
   | inr response => Ret response
   | inl error => Ret (errorResponse env error)
   end).
Proof. unfold POST. now intros ->. Qed.

Lemma errorResponse_already_over (env : ProcessEnv) :
  let response := errorResponse env (JS.newError "Game is already over") in
  res_status response = 400%Z /\
  JS.prop (res_body response) "error" = Some (JS.JString "Game is already over") /\
  JS.prop (res_body response) "gameOver" = Some (JS.JBool false) /\
  JS.prop (res_body response) "winner" = None /\
  JS.prop (res_body response) "reason" = None.
Proof.
  unfold errorResponse. cbn.
  destruct (NODE_ENV env) as [mode |]; [destruct (String.eqb mode "development") |];
    repeat split.
Qed.




(** C4, what the code does.  For a FEN whose side to move is
    checkmated, [createChessGame] throws before the game-status checks
    of [POST] are reached: the response has status 400, the error
    ['Game is already over'], [gameOver: false], and neither a
    [winner] nor a [reason]. *)
Theorem POST_checkmate_400 (env : ProcessEnv) (request : NextRequest)
        (f : string) (g : Chess) :
  json request = inr (ObjectBody (Some f)) ->
  f <> EmptyString ->
  newChess f = inr g ->
  isCheckmate g = true ->
  MateEndsGame g ->
  exists response,
    POST env request = Ret response /\
    res_status response = 400%Z /\
    JS.prop (res_body response) "error" = Some (JS.JString "Game is already over") /\
    JS.prop (res_body response) "gameOver" = Some (JS.JBool false) /\
    JS.prop (res_body response) "winner" = None /\
    JS.prop (res_body response) "reason" = None.
Proof.
  intros Hreq Hne Hnew Hmate Hlaw.
  destruct f as [|c f]; [congruence |].
  rewrite (POST_with_fen env request Hreq).
  assert (Hover : (isGameOver g || isDraw g) = true) by now rewrite (Hlaw Hmate).
  unfold processGame. rewrite (createChessGame_over _ Hnew Hover). cbn [bind].
  eexists; split; [reflexivity |].
  apply errorResponse_already_over.
Qed.

End ChessMoveFacts.

Section ChessMoveModelCall.

Context {E : ChessEngine} {U : ChessUntyped E}.

Import ChessMove.

Lemma errorResponse_no_move (env : ProcessEnv) (e : JS.Error) :
  JS.prop (res_body (errorResponse env e)) "move" = None.
Proof.
  unfold errorResponse. cbn.
  destruct (NODE_ENV env) as [mode |]; [destruct (String.eqb mode "development") |];
    reflexivity.
Qed.

(** For a game that is not over, [processGame] reaches the call to the
    model. *)
Lemma processGame_calls_model (f : string) (g : Chess) :
  newChess f = inr g -> isGameOver g = false -> isDraw g = false ->
  MateEndsGame g ->
  exists k, processGame f = Vis (OpenAICreate (chatFor f g)) k.
Proof.
  intros Hnew Hover Hdraw Hlaw.
  assert (Hmate : isCheckmate g = false).
  { destruct (isCheckmate g) eqn:Hm; [| reflexivity].
    rewrite (Hlaw Hm) in Hover. discriminate. }
  unfold processGame.
  rewrite (createChessGame_ongoing _ Hnew Hover Hdraw), Hmate, Hdraw, Hover.
  unfold getChessPrompt. rewrite Hnew. cbn [system user].
  eexists. reflexivity.
Qed.

Lemma POST_calls_model (env : ProcessEnv) (request : NextRequest)
      (f : string) (g : Chess) :
  json request = inr (ObjectBody (Some f)) ->
  f <> EmptyString ->
  newChess f = inr g -> isGameOver g = false -> isDraw g = false ->
  MateEndsGame g ->
  exists k, POST env request = Vis (OpenAICreate (chatFor f g)) k.
Proof.
  intros Hreq Hne Hnew Hover Hdraw Hlaw.
  destruct f as [|c f]; [congruence |].
  destruct (processGame_calls_model _ Hnew Hover Hdraw Hlaw) as [k Hk].
  rewrite (POST_with_fen env request Hreq), Hk. cbn [bind].
  eexists. reflexivity.
Qed.

(** C9, amended.  The chess-move endpoint asks for gpt-4 when the
    position has more than 30 legal moves and for gpt-3.5-turbo
    otherwise; the chess-move-2 variant always selects gpt-4. *)
Theorem POST_model_by_legal_moves (env : ProcessEnv) (request : NextRequest)
        (f : string) (g : Chess) :
  json request = inr (ObjectBody (Some f)) ->
  f <> EmptyString ->
  newChess f = inr g -> isGameOver g = false -> isDraw g = false ->
  MateEndsGame g ->
  (exists chat k,
      POST env request = Vis (OpenAICreate chat) k /\
      chat_model chat = if (30 <? Z.of_nat (length (moves g)))%Z
                        then "gpt-4"%string else "gpt-3.5-turbo"%string) /\
  ChessMove2.selectModel tt = "gpt-4"%string.
Proof.
  intros Hreq Hne Hnew Hover Hdraw Hlaw. split; [| reflexivity].
  destruct (POST_calls_model env request Hreq Hne Hnew Hover Hdraw Hlaw) as [k Hk].
  exists (chatFor f g), k. split; [exact Hk | reflexivity].
Qed.

(** C6.  When the call to the model fails with the code
    ['insufficient_quota'] or the status 429, a request with the FEN of
    an ongoing game is answered with status 200, a [move] that is a
    member of the legal-move list, and a [warning]. *)
Theorem POST_quota_fallback (env : ProcessEnv) (request : NextRequest)
        (f : string) (g : Chess) (h : Handler ServerEvent) (apiError : JS.Error) :
  json request = inr (ObjectBody (Some f)) ->
  f <> EmptyString ->
  newChess f = inr g -> isGameOver g = false -> isDraw g = false ->
  MateEndsGame g -> MovesWhileOngoing g ->
  (forall chat, h _ (OpenAICreate chat) = inl apiError) ->
  JS.code apiError = Some "insufficient_quota"%string \/ JS.status apiError = Some 429%Z ->
  unitInterval (h _ ServerRandom) ->
  let response := run h (POST env request) in
  res_status response = 200%Z /\
  (exists m, JS.prop (res_body response) "move" = Some (JS.JString m) /\ In m (moves g)) /\
  (exists w, JS.prop (res_body response) "warning" = Some (JS.JString w)).
Proof.
  intros Hreq Hne Hnew Hover Hdraw Hlaw Hmoves Hfail Hquota Hrnd response.
  subst response.
  destruct f as [|c f]; [congruence |].
  assert (Hmate : isCheckmate g = false).
  { destruct (isCheckmate g) eqn:Hm; [| reflexivity].
    rewrite (Hlaw Hm) in Hover. discriminate. }
  assert (Hq : isQuotaError apiError = true).
  { unfold isQuotaError. destruct Hquota as [-> | ->]; cbn; [reflexivity | apply orb_true_r]. }
  rewrite (POST_with_fen env request Hreq), run_bind.
  unfold processGame.
  rewrite (createChessGame_ongoing _ Hnew Hover Hdraw), Hmate, Hdraw, Hover.
  unfold getChessPrompt. rewrite Hnew. cbn [run].
  rewrite Hfail, Hq. unfold randomMove. cbn [bind run].
  destruct (randomElement_nonempty Hrnd (Hmoves Hover)) as [m [Hpick Hin]].
  rewrite Hpick. cbn.
  split; [reflexivity |]. split; [exists m; split; [reflexivity | exact Hin] |].
  eexists. reflexivity.
Qed.

(** C1, amended.  When the response carries a [move], the request
    carries a FEN that the engine loads, and the move is a member of
    the legal-move list of that position or it is the reply of the
    model, trimmed, which the engine's [move] accepted on that position;
    given that [move] accepts every listed move, applying the returned
    move to the position does not throw. *)
Theorem POST_move_is_playable (env : ProcessEnv) (request : NextRequest)
        (h : Handler ServerEvent) (m : string) :
  JS.prop (res_body (run h (POST env request))) "move" = Some (JS.JString m) ->
  exists f g,
    json request = inr (ObjectBody (Some f)) /\
    newChess f = inr g /\
    (In m (moves g) \/
     (exists chat content,
         h _ (OpenAICreate chat) = inr (Some content) /\
         m = JS.trim content /\ Accepted g m)) /\
    (ListedMovesAccepted g -> Accepted g m).
Proof.
  unfold POST.
  destruct (json request) as [parseError | [| [[|c f] |] | | v]] eqn:Hreq;
    try (cbn; discriminate).
  { cbn [run]. now rewrite errorResponse_no_move. }
  2: { destruct (JS.truthyOther v); cbn [run];
       [now rewrite errorResponse_no_move | cbn; discriminate]. }
  rewrite run_bind. unfold processGame.
  destruct (createChessGame (String c f)) as [e | g] eqn:Hgame.
  { cbn [run]. now rewrite errorResponse_no_move. }
  destruct (createChessGame_inv _ Hgame) as [Hnew [Hover Hdraw]].
  destruct (isCheckmate g); [cbn; discriminate |].
  rewrite Hdraw, Hover.
  unfold getChessPrompt. rewrite Hnew. cbn [run].
  match goal with
  | |- context [h _ (OpenAICreate ?chat)] =>
      set (asked := chat);
      destruct (h _ (OpenAICreate asked)) as [apiError | content] eqn:Hreply
  end.
  - destruct (isQuotaError apiError).
    + unfold randomMove. cbn [bind run].
      destruct (JS.randomElement (h _ ServerRandom) (moves g)) as [x |] eqn:Hpick;
        cbn; [| discriminate].
      intros [= <-]. pose proof (randomElement_member _ _ Hpick) as Hin.
      exists (String c f), g. auto.
    + cbn [run]. now rewrite errorResponse_no_move.
  - destruct content as [text |]; cbn [option_map];
      [| cbn [run]; now rewrite errorResponse_no_move].
    destruct (JS.trim text) as [|c1 mv] eqn:Htrim;
      [cbn [run]; now rewrite errorResponse_no_move |].
    rewrite run_bind. unfold validateMove. rewrite Hnew.
    destruct (move g (String c1 mv)) as [e | g1] eqn:Hmove.
    + unfold randomMove. cbn [run].
      destruct (JS.randomElement (h _ ServerRandom) (moves g)) as [x |] eqn:Hpick.
      * destruct (move g x) as [e1 | g2] eqn:Hx.
        { cbn [run]. now rewrite errorResponse_no_move. }
        cbn. intros [= <-]. pose proof (randomElement_member _ _ Hpick) as Hin.
        exists (String c f), g.
        split; [reflexivity |]. split; [exact Hnew |]. split; [now left |].
        intros _. now exists g2.
      * cbn [run]. now rewrite errorResponse_no_move.
    + cbn [run]. rewrite Hmove. cbn. intros [= <-].
      assert (Hacc : Accepted g (String c1 mv)) by now exists g1.
      exists (String c f), g.
      split; [reflexivity |]. split; [exact Hnew |].
      split; [| intros _; exact Hacc].
      right. exists asked, text. rewrite Htrim. auto.
Qed.

End ChessMoveModelCall.

(** ** The prompt builders: game phase and hanging pieces *)

Lemma append_assoc (a b c : string) : ((a ++ b) ++ c = a ++ (b ++ c))%string.
Proof. induction a as [|x a IH]; simpl; [reflexivity | now rewrite IH]. Qed.

Lemma filter_none {A : Type} (f : A -> bool) (l : list A) :
  (forall x, In x l -> f x = false) -> filter f l = [].
Proof.
  induction l as [|x l IH]; intros H; simpl; [reflexivity |].
  rewrite (H x (or_introl eq_refl)). apply IH. intros y Hy. apply H. now right.
Qed.

Lemma Color_eqb_swap (c : Color) : Color_eqb c (swapColor c) = false.
Proof. now destruct c. Qed.

Section PromptClaims.

Context {E : ChessEngine} {U : ChessUntyped E}.

Local Open Scope string_scope.

(** C7, what the code does.  Both prompt builders count the plies of
    [new Chess(fen).history()], which is empty for a game built from a
    FEN: the phase is 'Opening' for every FEN, whatever the ply count
    of the position, and this is the phase that the user prompt of the
    chess-move endpoint shows. *)
Theorem prompt_phase_always_opening (f : string) (g : Chess) (legalMoves : list string) :
  newChess f = inr g ->
  FreshHistory f ->
  ChessMove.gamePhase g = "Opening" /\
  ChessMove2.gamePhase g = "Opening" /\
  exists prompt,
    ChessMove.getChessPrompt f legalMoves = inr prompt /\
    JS.includes (ChessMove.user prompt) "- Game Phase: Opening" = true.
Proof.
  intros Hnew Hfresh. pose proof (Hfresh g Hnew) as Hhist.
  assert (H1 : ChessMove.gamePhase g = "Opening").
  { unfold ChessMove.gamePhase, ChessMove.isOpening. now rewrite Hhist. }
  assert (H2 : ChessMove2.gamePhase g = "Opening").
  { unfold ChessMove2.gamePhase, ChessMove2.isOpening, ChessMove2.moveHistory.
    now rewrite Hhist. }
  split; [exact H1 |]. split; [exact H2 |].
  unfold ChessMove.getChessPrompt. rewrite Hnew.
  eexists. split; [reflexivity |]. cbn [ChessMove.user].
  unfold ChessMove.userPrompt. rewrite H1.
  do 8 apply includes_append_r.
  rewrite <- append_assoc.
  apply startsWith_includes, startsWith_append.
Qed.

(** C8, what the code does.  The hanging-piece list keeps the moves of
    the side to move whose [color] is the opponent's; the moves of a
    position all carry the colour of the side to move, so the list is
    empty for every position, whatever captures are legal. *)
Theorem hangingPieces_always_empty (g : Chess) :
  MoverColor g -> ChessMove2.hangingPieces g = inr [].
Proof.
  intros Hcolor. unfold ChessMove2.hangingPieces.
  rewrite filter_none; [reflexivity |].
  intros m Hin. rewrite (Hcolor m Hin).
  unfold ChessMove2.opponentColor, ChessMove2.currentColor.
  rewrite Color_eqb_swap. apply andb_false_r.
Qed.

End PromptClaims.

(** ** The client *)

Section ClientClaims.

Context {E : ChessEngine} {U : ChessUntyped E}.

Lemma fallbackMove_result (g : Chess) (h : Handler ClientEvent) :
  SanNonEmpty g -> unitInterval (h _ ClientRandom) ->
  (exists s, run h (fallbackMove g) = JS.JString s /\ In s (moves g)) \/
  (run h (fallbackMove g) = JS.JNull /\ moves g = []).
Proof.
  intros Hsan Hrnd. unfold fallbackMove. cbn [run].
  destruct (moves g) as [|x l] eqn:Hmoves.
  - right. now rewrite randomElement_empty.
  - left.
    destruct (@randomElement_nonempty _ (h _ ClientRandom) (x :: l) Hrnd)
      as [s [Hpick Hin]]; [discriminate |].
    rewrite Hpick. exists s. split; [| exact Hin].
    destruct s; [| reflexivity].
    exfalso. apply (Hsan EmptyString); [now rewrite Hmoves | reflexivity].
Qed.

Lemma moveAny_plays (g : Chess) (m : JS.Json) (g' : Chess) :
  moveAny g m = Some g' <-> Plays g m g'.
Proof.
  unfold moveAny, Plays. split.
  - destruct m as [| b | q | s | items | o]; cbn [JS.classify]; intros H;
      try (right;
           first [ exists JS.NSNull; split; [reflexivity | exact H]
                 | exists (JS.NSBool b); split; [reflexivity | exact H]
                 | exists (JS.NSNumber q); split; [reflexivity | exact H]
                 | exists (JS.NSArray items); split; [reflexivity | exact H]
                 | exists (JS.NSObject o); split; [reflexivity | exact H] ]).
    left. exists s. split; [reflexivity |].
    destruct (move g s) as [e | g1]; [discriminate | congruence].
  - intros [[s [-> Hs]] | [v [-> Hv]]].
    + cbn [JS.classify]. now rewrite Hs.
    + destruct v; exact Hv.
Qed.

(** C10, amended.  [getAiMove] returns [null] without a request when
    the game is over or drawn.  Otherwise it returns the [move] of the
    endpoint's reply as it was parsed, a string or any other value,
    when the request succeeds and the engine's [move] accepts that
    value on the position of [game.fen()]; in every other case it
    returns a member of the game's legal-move list, or [null] if that
    list is empty.  So it returns [null], an object or the like when
    the reply carries one that the engine accepts. *)
Theorem getAiMove_result (g : Chess) (h : Handler ClientEvent) :
  SanNonEmpty g ->
  unitInterval (h _ ClientRandom) ->
  ((isGameOver g || isDraw g) = true -> getAiMove g = Ret JS.JNull) /\
  ((isGameOver g || isDraw g) = false ->
   let reply := h _ (Fetch (fetchFor g)) in
   let result := run h (getAiMove g) in
   (forall m, EndpointMoveValid g reply m -> result = m) /\
   ((forall m, ~ EndpointMoveValid g reply m) ->
    (exists s, result = JS.JString s /\ In s (moves g)) \/
    (result = JS.JNull /\ moves g = []))).
Proof.
  intros Hsan Hrnd. unfold getAiMove. split; intros Hover; rewrite Hover.
  - reflexivity.
  - cbn [run]. fold (fetchFor g).
    pose proof (@fallbackMove_result g h Hsan Hrnd) as Hfall.
    split.
    + intros m (response & body & g0 & g1 & Hreply & Hok & Hjson & Hfield & Hnew & Hmove).
      apply moveAny_plays in Hmove.
      rewrite Hreply, Hok, Hjson. cbn [negb JS.field].
      now rewrite Hfield, Hnew, Hmove.
    + intros Hnone.
      destruct (h _ (Fetch (fetchFor g))) as [e | response] eqn:Hreply; [exact Hfall |].
      destruct (ok response) eqn:Hok; cbn [negb]; [| exact Hfall].
      destruct (fetch_json response) as [e | [| b | q | s | items | o]] eqn:Hjson;
        try exact Hfall.
      destruct (JS.field (JS.JObject o) "move") as [m |] eqn:Hfield; [| exact Hfall].
      destruct (newChess (fen g)) as [e | g0] eqn:Hnew; [exact Hfall |].
      destruct (moveAny g0 m) as [g1 |] eqn:Hmove; [| exact Hfall].
      exfalso. apply (Hnone m). exists response, o, g0, g1.
      apply moveAny_plays in Hmove. repeat split; assumption.
Qed.

End ClientClaims.

(** ** The claims on positions of the reference engine *)

Section OnChessJs.

Local Existing Instance ChessJs.engine.
Local Existing Instance ChessJs.untyped.

Import Positions.

Local Open Scope string_scope.

Lemma half_in_unit_interval : unitInterval (1 # 2)%Q.
Proof. split; [discriminate | reflexivity]. Qed.

(** *** C1 *)

(** The model answers [e2e4] on the starting position: the engine
    accepts the text and the endpoint returns it as it is. *)
Lemma POST_move_is_playable_witness :
  let h := server (inr (Some "e2e4")) (1 # 2)%Q in
  JS.prop (res_body (run h (ChessMove.POST env (request start)))) "move"
  = Some (JS.JString "e2e4") /\
  exists f g,
    json (request start) = inr (ObjectBody (Some f)) /\
    newChess f = inr g /\
    (In "e2e4" (moves g) \/
     (exists chat content,
         h _ (OpenAICreate chat) = inr (Some content) /\
         "e2e4" = JS.trim content /\ Accepted g "e2e4")) /\
    (ListedMovesAccepted g -> Accepted g "e2e4").
Proof.
  intros h.
  assert (Hmove : JS.prop (res_body (run h (ChessMove.POST env (request start)))) "move"
                  = Some (JS.JString "e2e4")) by (vm_compute; reflexivity).
  split; [exact Hmove |].
  exact (POST_move_is_playable env (request start) h Hmove).
Defined.

(** The claim of C1 as stated fails there: [e2e4] is returned and is
    not a member of the legal-move list of the starting position. *)
Lemma POST_move_not_listed :
  let h := server (inr (Some "e2e4")) (1 # 2)%Q in
  newChess start = inr (gameOf start) /\
  JS.prop (res_body (run h (ChessMove.POST env (request start)))) "move"
  = Some (JS.JString "e2e4") /\
  ~ In "e2e4" (moves (gameOf start)).
Proof.
  intros h. split; [vm_compute; reflexivity |].
  split; [vm_compute; reflexivity |].
  intros Hin. vm_compute in Hin.
  repeat (destruct Hin as [Hin | Hin]; [discriminate Hin |]).
  exact Hin.
Qed.

Example POST_keeps_decorated_move :
  JS.prop (res_body (run (server (inr (Some " e4! ")) (1 # 2)%Q)
                         (ChessMove.POST env (request start)))) "move"
  = Some (JS.JString "e4!").
Proof. vm_compute. reflexivity. Qed.

(** The reply is trimmed of the no-break space as of any white space. *)
Example POST_trims_no_break_space :
  JS.prop (res_body (run (server (inr (Some (nbsp ++ "e2e4" ++ nbsp))) (1 # 2)%Q)
                         (ChessMove.POST env (request start)))) "move"
  = Some (JS.JString "e2e4").
Proof. vm_compute. reflexivity. Qed.

Example POST_replaces_illegal_move :
  JS.prop (res_body (run (server (inr (Some "Ke2")) (1 # 2)%Q)
                         (ChessMove.POST env (request start)))) "move"
  = Some (JS.JString "f3").
Proof. vm_compute. reflexivity. Qed.

(** *** C4 *)

(** The failing input of C4: White is checkmated, and the response is
    the 400 of a finished game. *)
Lemma POST_checkmate_400_witness :
  let g := gameOf foolsMate in
  json (request foolsMate) = inr (ObjectBody (Some foolsMate)) /\
  foolsMate <> EmptyString /\
  newChess foolsMate = inr g /\
  isCheckmate g = true /\
  MateEndsGame g /\
  exists response,
    ChessMove.POST env (request foolsMate) = Ret response /\
    res_status response = 400%Z /\
    JS.prop (res_body response) "error" = Some (JS.JString "Game is already over") /\
    JS.prop (res_body response) "gameOver" = Some (JS.JBool false) /\
    JS.prop (res_body response) "winner" = None /\
    JS.prop (res_body response) "reason" = None.
Proof.
  intros g.
  assert (Hreq : json (request foolsMate) = inr (ObjectBody (Some foolsMate)))
    by reflexivity.
  assert (Hne : foolsMate <> EmptyString) by discriminate.
  assert (Hnew : newChess foolsMate = inr g) by (vm_compute; reflexivity).
  assert (Hmate : isCheckmate g = true) by (vm_compute; reflexivity).
  pose proof (chessjs_mate_ends_game g) as Hlaw.
  refine (conj Hreq (conj Hne (conj Hnew (conj Hmate (conj Hlaw _))))).
  exact (POST_checkmate_400 env (request foolsMate) Hreq Hne Hnew Hmate Hlaw).
Defined.

(** *** C5 *)




Example POST_missing_fen :
  ChessMove.POST env {| json := inr (ObjectBody None) |}
  = Ret (NextResponse_json [("error", JS.JString "FEN string is required")] (Some 400%Z)).
Proof. reflexivity. Qed.

Example POST_stalemate_400 :
  res_status (run (server (inr None) (1 # 2)%Q) (ChessMove.POST env (request stalemate)))
  = 400%Z.
Proof. vm_compute. reflexivity. Qed.

(** *** C6 *)

Lemma POST_quota_fallback_witness :
  let h := server (inl quotaError) (1 # 2)%Q in
  let g := gameOf start in
  let response := run h (ChessMove.POST env (request start)) in
  newChess start = inr g /\ isGameOver g = false /\ isDraw g = false /\
  res_status response = 200%Z /\
  (exists m, JS.prop (res_body response) "move" = Some (JS.JString m) /\ In m (moves g)) /\
  (exists w, JS.prop (res_body response) "warning" = Some (JS.JString w)).
Proof.
  intros h g response.
  assert (Hnew : newChess start = inr g) by (vm_compute; reflexivity).
  assert (Hover : isGameOver g = false) by (vm_compute; reflexivity).
  assert (Hdraw : isDraw g = false) by (vm_compute; reflexivity).
  refine (conj Hnew (conj Hover (conj Hdraw _))).
  refine (@POST_quota_fallback _ _ env (request start) start g h quotaError
            eq_refl _ Hnew Hover Hdraw
            (chessjs_mate_ends_game g) (chessjs_moves_while_ongoing g)
            (fun _ => eq_refl) (or_introl eq_refl) half_in_unit_interval).
  discriminate.
Defined.

Example POST_quota_fallback_move :
  res_body (run (server (inl quotaError) (1 # 2)%Q) (ChessMove.POST env (request start)))
  = [("move", JS.JString "f3");
     ("warning", JS.JString "Using random move due to API limits");
     ("originalError", JS.JString "You exceeded your current quota")].
Proof. vm_compute. reflexivity. Qed.

(** *** C9 *)

Lemma POST_model_by_legal_moves_witness :
  let g := gameOf pawnEnding in
  newChess pawnEnding = inr g /\ isGameOver g = false /\ isDraw g = false /\
  length (moves g) = 4%nat /\
  (exists chat k,
      ChessMove.POST env (request pawnEnding) = Vis (OpenAICreate chat) k /\
      chat_model chat = if (30 <? Z.of_nat (length (moves g)))%Z
                        then "gpt-4" else "gpt-3.5-turbo") /\
  ChessMove2.selectModel tt = "gpt-4".
Proof.
  intros g.
  assert (Hnew : newChess pawnEnding = inr g) by (vm_compute; reflexivity).
  assert (Hover : isGameOver g = false) by (vm_compute; reflexivity).
  assert (Hdraw : isDraw g = false) by (vm_compute; reflexivity).
  assert (Hlen : length (moves g) = 4%nat) by (vm_compute; reflexivity).
  refine (conj Hnew (conj Hover (conj Hdraw (conj Hlen _)))).
  refine (@POST_model_by_legal_moves _ _ env (request pawnEnding) pawnEnding g
            eq_refl _ Hnew Hover Hdraw (chessjs_mate_ends_game g)).
  discriminate.
Defined.

(** The claim of C9 as stated fails in both directions.  [kiwipete] is
    at ply 0 (by its FEN and by its history) and has 48 legal moves:
    gpt-4 is asked.  [pawnEnding] is at ply 78 and has 4 legal moves:
    gpt-3.5-turbo is asked. *)
Lemma POST_model_ignores_ply_count :
  (plyCountOfFen kiwipete = Some 0%Z /\
   length (history (gameOf kiwipete)) = 0%nat /\
   exists k, ChessMove.POST env (request kiwipete)
             = Vis (OpenAICreate (chatFor kiwipete (gameOf kiwipete))) k /\
             chat_model (chatFor kiwipete (gameOf kiwipete)) = "gpt-4") /\
  (plyCountOfFen pawnEnding = Some 78%Z /\
   exists k, ChessMove.POST env (request pawnEnding)
             = Vis (OpenAICreate (chatFor pawnEnding (gameOf pawnEnding))) k /\
             chat_model (chatFor pawnEnding (gameOf pawnEnding)) = "gpt-3.5-turbo").
Proof.
  assert (Hcall : forall f,
             f <> EmptyString ->
             newChess f = inr (gameOf f) ->
             isGameOver (gameOf f) = false -> isDraw (gameOf f) = false ->
             exists k, ChessMove.POST env (request f)
                       = Vis (OpenAICreate (chatFor f (gameOf f))) k).
  { intros f Hne Hnew Hover Hdraw.
    exact (@POST_calls_model _ _ env (request f) f (gameOf f) eq_refl Hne Hnew Hover Hdraw
                             (chessjs_mate_ends_game (gameOf f))). }
  split.
  - split; [vm_compute; reflexivity |]. split; [vm_compute; reflexivity |].
    destruct (Hcall kiwipete) as [k Hk];
      [discriminate | vm_compute; reflexivity ..|].
    exists k. split; [exact Hk | vm_compute; reflexivity].
  - split; [vm_compute; reflexivity |].
    destruct (Hcall pawnEnding) as [k Hk];
      [discriminate | vm_compute; reflexivity ..|].
    exists k. split; [exact Hk | vm_compute; reflexivity].
Qed.

End OnChessJs.

Section PromptsAndClientOnChessJs.

Local Existing Instance ChessJs.engine.
Local Existing Instance ChessJs.untyped.

Import Positions.

Local Open Scope string_scope.

(** *** C7 *)

(** The failing input of C7: a position at move 40 (ply 78) is given
    the phase 'Opening' by both prompt builders. *)
Lemma prompt_phase_always_opening_witness :
  let g := gameOf pawnEnding in
  newChess pawnEnding = inr g /\
  FreshHistory pawnEnding /\
  plyCountOfFen pawnEnding = Some 78%Z /\
  ChessMove.gamePhase g = "Opening" /\
  ChessMove2.gamePhase g = "Opening" /\
  exists prompt,
    ChessMove.getChessPrompt pawnEnding (moves g) = inr prompt /\
    JS.includes (ChessMove.user prompt) "- Game Phase: Opening" = true.
Proof.
  intros g.
  assert (Hnew : newChess pawnEnding = inr g) by (vm_compute; reflexivity).
  pose proof (chessjs_fresh_history pawnEnding) as Hfresh.
  refine (conj Hnew (conj Hfresh (conj _ _))).
  - vm_compute. reflexivity.
  - exact (prompt_phase_always_opening (moves g) Hnew Hfresh).
Defined.

(** *** C8 *)

(** The failing input of C8: after 1. e4 d5 the capture exd5 is legal,
    and the hanging-piece list is empty. *)
Lemma hangingPieces_always_empty_witness :
  let g := gameOf scandinavian in
  MoverColor g /\
  (exists m, In m (movesVerbose g) /\ mv_san m = "exd5" /\ mv_captured m = Some PAWN) /\
  ChessMove2.hangingPieces g = inr [].
Proof.
  intros g.
  pose proof (chessjs_mover_color g) as Hcolor.
  refine (conj Hcolor (conj _ (hangingPieces_always_empty Hcolor))).
  exists (mkMove WHITE "e4" "d5" PAWN (Some PAWN) None "c" "exd5" "e4d5").
  split; [| split; reflexivity].
  vm_compute. tauto.
Defined.

(** *** C10 *)

(** The request fails on the network: a legal move of the starting
    position is returned. *)
Lemma getAiMove_result_witness :
  let g := gameOf start in
  let h := client (inl (JS.newError "Failed to fetch")) (1 # 2)%Q in
  SanNonEmpty g /\
  unitInterval (h _ ClientRandom) /\
  ((isGameOver g || isDraw g) = true -> getAiMove g = Ret JS.JNull) /\
  ((isGameOver g || isDraw g) = false ->
   let reply := h _ (Fetch (fetchFor g)) in
   let result := run h (getAiMove g) in
   (forall m, EndpointMoveValid g reply m -> result = m) /\
   ((forall m, ~ EndpointMoveValid g reply m) ->
    (exists s, result = JS.JString s /\ In s (moves g)) \/
    (result = JS.JNull /\ moves g = []))).
Proof.
  intros g h.
  assert (Hsan : SanNonEmpty g).
  { apply listsNoEmptyMove_sound. vm_compute. reflexivity. }
  assert (Hrnd : unitInterval (h _ ClientRandom)).
  { split; [discriminate | reflexivity]. }
  refine (conj Hsan (conj Hrnd _)).
  exact (@getAiMove_result _ _ g h Hsan Hrnd).
Defined.

(** The claim of C10 as stated fails on the reply [{ move: null }]:
    the engine takes [null] as a null move, so the client returns
    [null], which is no member of the list of 20 legal moves. *)
Lemma getAiMove_returns_null :
  let g := gameOf start in
  let reply := {| ok := true; fetch_status := 200%Z;
                  fetch_json := inr (JS.JObject [("move", JS.JNull)]) |} in
  (isGameOver g || isDraw g) = false /\
  length (moves g) = 20%nat /\
  run (client (inr reply) (1 # 2)%Q) (getAiMove g) = JS.JNull.
Proof. vm_compute. repeat split. Qed.

Example getAiMove_network_failure :
  run (client (inl (JS.newError "Failed to fetch")) (1 # 2)%Q) (getAiMove (gameOf start))
  = JS.JString "f3".
Proof. vm_compute. reflexivity. Qed.

Example getAiMove_endpoint_move :
  run (client (inr {| ok := true; fetch_status := 200%Z;
                      fetch_json := inr (JS.JObject [("move", JS.JString "Nf3")]) |})
              (1 # 2)%Q)
      (getAiMove (gameOf start))
  = JS.JString "Nf3".
Proof. vm_compute. reflexivity. Qed.

(** A move given by its squares is returned as the object it is. *)
Example getAiMove_object_move :
  let squares := JS.JObject [("from", JS.JString "e2"); ("to", JS.JString "e4")] in
  run (client (inr {| ok := true; fetch_status := 200%Z;
                      fetch_json := inr (JS.JObject [("move", squares)]) |})
              (1 # 2)%Q)
      (getAiMove (gameOf start))
  = squares.
Proof. vm_compute. reflexivity. Qed.

Example getAiMove_finished_game :
  getAiMove (gameOf foolsMate) = Ret JS.JNull.
Proof. vm_compute. reflexivity. Qed.

(** The engine accepts every move it lists on the positions above. *)
Example start_moves_accepted : ListedMovesAccepted (gameOf start).
Proof. apply acceptsListedMoves_sound. vm_compute. reflexivity. Qed.

Example kiwipete_moves_accepted : ListedMovesAccepted (gameOf kiwipete).
Proof. apply acceptsListedMoves_sound. vm_compute. reflexivity. Qed.

End PromptsAndClientOnChessJs.

(* ===================================================================== *)
(** * Further properties of the sources *)
(* ===================================================================== *)

Lemma calls_bind {Ev : Type -> Type} {A B : Type} (h : Handler Ev)
      (p : Prog Ev A) (f : A -> Prog Ev B) :
  calls h (bind p f) = (calls h p ++ calls h (f (run h p)))%list.
Proof.
  induction p as [a | X e k IH]; cbn; [reflexivity | now rewrite IH].
Qed.

Section EndpointRuns.

Context {E : ChessEngine} {U : ChessUntyped E}.

Import ChessMove.

Local Open Scope string_scope.

Lemma run_validateMove (h : Handler ServerEvent) (f move_ : string) (game : Chess) :
  newChess f = inr game ->
  run h (validateMove f move_ (moves game)) =
  match move game move_ with
  | inr _ => Some move_
  | inl _ => JS.randomElement (h _ ServerRandom) (moves game)
  end.
Proof.
  intros Hnew. unfold validateMove. rewrite Hnew.
  destruct (move game move_); reflexivity.
Qed.

Lemma calls_validateMove (h : Handler ServerEvent) (f move_ : string) (game : Chess) :
  newChess f = inr game ->
  calls h (validateMove f move_ (moves game)) =
  match move game move_ with
  | inr _ => []
  | inl _ => [existT _ _ ServerRandom]
  end.
Proof.
  intros Hnew. unfold validateMove. rewrite Hnew.
  destruct (move game move_); reflexivity.
Qed.

(** The answer of [POST] for the FEN of a game that goes on, by the
    answer of the model. *)
Lemma POST_ongoing (env : ProcessEnv) (h : Handler ServerEvent) (request : NextRequest)
      (f : string) (game : Chess) :
  json request = inr (ObjectBody (Some f)) ->
  f <> EmptyString ->
  createChessGame f = inr game ->
  isCheckmate game = false ->
  run h (POST env request) =
  match h _ (OpenAICreate (chatFor f game)) with
  | inl apiError =>
      if isQuotaError apiError
      then quotaResponse (JS.randomElement (h _ ServerRandom) (moves game)) apiError
      else errorResponse env apiError
  | inr content =>
      match option_map JS.trim content with
      | None | Some EmptyString =>
          errorResponse env (JS.newError "No move returned from AI")
      | Some move_ =>
          match (match move game move_ with
                 | inr _ => Some move_
                 | inl _ => JS.randomElement (h _ ServerRandom) (moves game)
                 end) with
          | Some m =>
              match move game m with
              | inr gameAfterMove => moveResponse m gameAfterMove
              | inl e => errorResponse env e
              end
          | None => errorResponse env (JS.newError "Invalid move: undefined")
          end
      end
  end.
Proof.
  intros Hreq Hne Hcreate Hmate.
  destruct (createChessGame_inv _ Hcreate) as [Hnew [Hover Hdraw]].
  destruct f as [|c f]; [congruence |].
  rewrite (POST_with_fen env request Hreq), run_bind.
  unfold processGame.
  rewrite Hcreate, Hmate, Hdraw, Hover.
  unfold getChessPrompt. rewrite Hnew. cbn [system user run].
  change (mkChat _ _ _ _) with (chatFor (String c f) game).
  destruct (h _ (OpenAICreate (chatFor (String c f) game))) as [apiError | content].
  - destruct (isQuotaError apiError); reflexivity.
  - destruct content as [content |]; cbn [option_map]; [| reflexivity].
    destruct (JS.trim content) as [| c' t] eqn:Htrim; [reflexivity |].
    rewrite run_bind, (@run_validateMove h _ (String c' t) _ Hnew).
    destruct (move game (String c' t)) as [e | g1] eqn:Hmove.
    + destruct (JS.randomElement (h _ ServerRandom) (moves game)) as [m |];
        [| reflexivity].
      destruct (move game m); reflexivity.
    + rewrite Hmove. reflexivity.
Qed.

(** The calls of [POST] for the FEN of a game that goes on. *)
Lemma POST_ongoing_calls (env : ProcessEnv) (h : Handler ServerEvent) (request : NextRequest)
      (f : string) (game : Chess) :
  json request = inr (ObjectBody (Some f)) ->
  f <> EmptyString ->
  createChessGame f = inr game ->
  isCheckmate game = false ->
  calls h (POST env request) = [existT _ _ (OpenAICreate (chatFor f game))] \/
  calls h (POST env request) =
  [existT _ _ (OpenAICreate (chatFor f game)); existT _ _ ServerRandom].
Proof.
  intros Hreq Hne Hcreate Hmate.
  destruct (createChessGame_inv _ Hcreate) as [Hnew [Hover Hdraw]].
  destruct f as [|c f]; [congruence |].
  rewrite (POST_with_fen env request Hreq), calls_bind.
  unfold processGame.
  rewrite Hcreate, Hmate, Hdraw, Hover.
  unfold getChessPrompt. rewrite Hnew. cbn [system user run calls].
  change (mkChat _ _ _ _) with (chatFor (String c f) game).
  destruct (h _ (OpenAICreate (chatFor (String c f) game))) as [apiError | content].
  - destruct (isQuotaError apiError); cbn; [right | left]; reflexivity.
  - destruct content as [content |]; cbn [option_map]; [| left; reflexivity].
    destruct (JS.trim content) as [| c' t] eqn:Htrim; [left; reflexivity |].
    rewrite run_bind, calls_bind, (@run_validateMove h _ (String c' t) _ Hnew),
      (@calls_validateMove h _ (String c' t) _ Hnew).
    destruct (move game (String c' t)) as [e | g1] eqn:Hmove.
    + right.
      destruct (JS.randomElement (h _ ServerRandom) (moves game)) as [m |];
        [| reflexivity].
      destruct (move game m); reflexivity.
    + left. rewrite Hmove. reflexivity.
Qed.

(** The calls of [POST] for any other request: none. *)
Lemma POST_not_ongoing (env : ProcessEnv) (request : NextRequest) :
  (forall f game, json request = inr (ObjectBody (Some f)) -> f <> EmptyString ->
                  createChessGame f = inr game -> False) ->
  exists response,
    POST env request = Ret response /\
    (response = NextResponse_json [("error", JS.JString "Invalid JSON in request body")]
                                  (Some 400%Z) \/
     response = NextResponse_json [("error", JS.JString "FEN string is required")]
                                  (Some 400%Z) \/
     exists error, response = errorResponse env error).
Proof.
  intros Hnot. unfold POST.
  destruct (json request) as [parseError | [| [f |] | | v]] eqn:Hreq.
  - eexists. split; [reflexivity | left; reflexivity].
  - eexists. split; [reflexivity | right; right; eexists; reflexivity].
  - destruct f as [| c f].
    + eexists. split; [reflexivity | right; left; reflexivity].
    + unfold processGame.
      destruct (createChessGame (String c f)) as [e | game] eqn:Hcreate.
      * eexists. split; [reflexivity | right; right; eexists; reflexivity].
      * exfalso. apply (Hnot (String c f) game); [reflexivity | discriminate | exact Hcreate].
  - eexists. split; [reflexivity | right; left; reflexivity].
  - eexists. split; [reflexivity | right; left; reflexivity].
  - destruct (JS.truthyOther v); eexists;
      (split; [reflexivity |]); [right; right; eexists; reflexivity | right; left; reflexivity].
Qed.

End EndpointRuns.

Section EndpointProperties.

Context {E : ChessEngine} {U : ChessUntyped E}.

Import ChessMove.

Local Open Scope string_scope.

Lemma request_cases (request : NextRequest) :
  (exists f game, json request = inr (ObjectBody (Some f)) /\ f <> EmptyString /\
                  createChessGame f = inr game) \/
  (forall f game, json request = inr (ObjectBody (Some f)) -> f <> EmptyString ->
                  createChessGame f = inr game -> False).
Proof.
  destruct (json request) as [e | [| [f |] | | v]]; try (right; intros; discriminate).
  destruct (createChessGame f) as [e | game] eqn:Hcreate.
  - right. intros f' game' Hf _ Hc. injection Hf as <-. congruence.
  - destruct f as [| c f].
    + right. intros f' game' Hf Hne _. injection Hf as <-. congruence.
    + left. exists (String c f), game. repeat split; [discriminate | exact Hcreate].
Qed.

Lemma errorResponse_fields (env : ProcessEnv) (e : JS.Error) :
  let response := errorResponse env e in
  (res_status response = 400%Z \/ res_status response = 500%Z) /\
  JS.prop (res_body response) "error" = Some (JS.JString (JS.message e)) /\
  JS.prop (res_body response) "move" = None /\
  JS.prop (res_body response) "winner" = None /\
  JS.prop (res_body response) "reason" = None /\
  JS.prop (res_body response) "warning" = None.
Proof.
  unfold errorResponse. cbn.
  split.
  - destruct (_ || _); [left | right]; reflexivity.
  - destruct (NODE_ENV env) as [mode |]; [destruct (String.eqb mode "development") |];
      repeat split.
Qed.

Lemma errorResponse_stack (env : ProcessEnv) (e : JS.Error) :
  JS.prop (res_body (errorResponse env e)) "stack" <> None ->
  NODE_ENV env = Some "development".
Proof.
  unfold errorResponse. cbn.
  destruct (NODE_ENV env) as [mode |]; [| now intros H; elim H].
  destruct (String.eqb mode "development") eqn:Hmode; [| now intros H; elim H].
  intros _. apply String.eqb_eq in Hmode. now subst.
Qed.

Lemma moveResponse_fields (m : string) (g : Chess) :
  let response := moveResponse m g in
  res_status response = 200%Z /\
  JS.prop (res_body response) "move" = Some (JS.JString m) /\
  JS.prop (res_body response) "turn" = Some (JS.JString (turnName (turn g))) /\
  JS.prop (res_body response) "inCheck" = Some (JS.JBool (isCheck g)) /\
  JS.prop (res_body response) "gameOver" = Some (JS.JBool false) /\
  (JS.prop (res_body response) "message" <> None <-> isCheck g = true) /\
  JS.prop (res_body response) "error" = None /\
  JS.prop (res_body response) "winner" = None /\
  JS.prop (res_body response) "reason" = None /\
  JS.prop (res_body response) "warning" = None /\
  JS.prop (res_body response) "stack" = None.
Proof.
  unfold moveResponse. cbn.
  destruct (isCheck g); cbn; repeat split; try congruence; try discriminate.
Qed.

Lemma quotaResponse_fields (rnd : option string) (apiError : JS.Error) :
  let response := quotaResponse rnd apiError in
  res_status response = 200%Z /\
  JS.prop (res_body response) "move" = option_map JS.JString rnd /\
  JS.prop (res_body response) "warning"
  = Some (JS.JString "Using random move due to API limits") /\
  JS.prop (res_body response) "error" = None /\
  JS.prop (res_body response) "winner" = None /\
  JS.prop (res_body response) "reason" = None /\
  JS.prop (res_body response) "stack" = None.
Proof.
  unfold quotaResponse. destruct rnd; cbn; repeat split.
Qed.

(** The branch of [POST] for a game that reports checkmate and is not
    over. *)
Lemma POST_mate_branch (env : ProcessEnv) (request : NextRequest) (f : string) (game : Chess) :
  json request = inr (ObjectBody (Some f)) ->
  f <> EmptyString ->
  createChessGame f = inr game ->
  isCheckmate game = true ->
  exists body,
    POST env request = Ret (NextResponse_json body (Some 200%Z)) /\
    JS.prop body "move" = None /\ JS.prop body "stack" = None.
Proof.
  intros Hreq Hne Hcreate Hmate.
  destruct f as [| c f]; [congruence |].
  rewrite (POST_with_fen env request Hreq).
  unfold processGame. rewrite Hcreate, Hmate. cbn [bind].
  eexists. split; [reflexivity |]. split; reflexivity.
Qed.

Lemma errorResponse_shaped (env : ProcessEnv) (e : JS.Error) :
  WellShaped (errorResponse env e).
Proof.
  destruct (errorResponse_fields env e) as [Hs [He [Hm [Hw [Hr _]]]]].
  split; [right | split; assumption].
  split; [exact Hs | split; [eexists; exact He | exact Hm]].
Qed.

Lemma moveResponse_shaped (m : string) (g : Chess) : WellShaped (moveResponse m g).
Proof.
  destruct (moveResponse_fields m g) as [Hs [Hm [_ [_ [_ [_ [He [Hw [Hr _]]]]]]]]].
  split; [left | split; assumption].
  split; [exact Hs | split; [eexists; exact Hm | exact He]].
Qed.

Lemma quotaResponse_shaped (m : string) (apiError : JS.Error) :
  WellShaped (quotaResponse (Some m) apiError).
Proof.
  destruct (quotaResponse_fields (Some m) apiError) as [Hs [Hm [_ [He [Hw [Hr _]]]]]].
  split; [left | split; assumption].
  split; [exact Hs | split; [eexists; exact Hm | exact He]].
Qed.

Lemma ongoing_not_mate (f : string) (game : Chess) :
  createChessGame f = inr game -> MateEndsGame game -> isCheckmate game = false.
Proof.
  intros Hcreate Hlaw.
  destruct (createChessGame_inv _ Hcreate) as [_ [Hover _]].
  destruct (isCheckmate game) eqn:Hm; [| reflexivity].
  rewrite (Hlaw Hm) in Hover. discriminate.
Qed.

(** X1.  Every answer of the chess-move endpoint has one of two shapes:
    status 200 with a [move] and no [error], or status 400 or 500 with
    an [error] and no [move]; none carries a [winner] or a [reason].
    This holds for every request and every answer of the model, given
    [Math.random()] in [0, 1) and an engine for which checkmate ends the
    game and a game that is not over has a legal move. *)
Theorem POST_response_shape (env : ProcessEnv) (h : Handler ServerEvent)
        (request : NextRequest) :
  (forall f g, fenOf request = Some f -> newChess f = inr g ->
               MateEndsGame g /\ MovesWhileOngoing g) ->
  unitInterval (h _ ServerRandom) ->
  let response := run h (POST env request) in
  ((res_status response = 200%Z /\
    (exists m, JS.prop (res_body response) "move" = Some (JS.JString m)) /\
    JS.prop (res_body response) "error" = None) \/
   ((res_status response = 400%Z \/ res_status response = 500%Z) /\
    (exists msg, JS.prop (res_body response) "error" = Some (JS.JString msg)) /\
    JS.prop (res_body response) "move" = None)) /\
  JS.prop (res_body response) "winner" = None /\
  JS.prop (res_body response) "reason" = None.
Proof.
  intros Hlaws Hrnd response.
  change (WellShaped response). unfold response. clear response.
  destruct (request_cases request) as [[f [game [Hreq [Hne Hcreate]]]] | Hnot].
  - destruct (createChessGame_inv _ Hcreate) as [Hnew [Hover Hdraw]].
    assert (Hfen : fenOf request = Some f) by (unfold fenOf; now rewrite Hreq).
    destruct (Hlaws f game Hfen Hnew) as [Hmate Hmoves].
    rewrite (@POST_ongoing _ _ env h request f game Hreq Hne Hcreate
                           (ongoing_not_mate _ Hcreate Hmate)).
    destruct (@randomElement_nonempty _ (h _ ServerRandom) (moves game) Hrnd (Hmoves Hover))
      as [x [Hpick _]].
    rewrite Hpick.
    destruct (h _ (OpenAICreate (chatFor f game))) as [apiError | content].
    + destruct (isQuotaError apiError);
        [apply quotaResponse_shaped | apply errorResponse_shaped].
    + destruct (option_map JS.trim content) as [[| c t] |];
        try apply errorResponse_shaped.
      destruct (move game (String c t)) as [e | g1] eqn:Hmv.
      * destruct (move game x) as [e' | g2];
          [apply errorResponse_shaped | apply moveResponse_shaped].
      * rewrite Hmv. apply moveResponse_shaped.
  - destruct (@POST_not_ongoing _ _ env request Hnot) as [r [-> Hr]]. cbn [run].
    destruct Hr as [-> | [-> | [e ->]]]; [| | apply errorResponse_shaped];
      (split; [right | split; reflexivity]);
      (split; [left; reflexivity | split; [eexists; reflexivity | reflexivity]]).
Qed.

(** X2.  The endpoint puts the [stack] of an error in its answer only
    when NODE_ENV is ['development']. *)
Theorem POST_stack_only_in_development (env : ProcessEnv) (h : Handler ServerEvent)
        (request : NextRequest) :
  JS.prop (res_body (run h (POST env request))) "stack" <> None ->
  NODE_ENV env = Some "development".
Proof.
  destruct (request_cases request) as [[f [game [Hreq [Hne Hcreate]]]] | Hnot].
  - destruct (isCheckmate game) eqn:Hmate.
    + destruct (@POST_mate_branch env request f game Hreq Hne Hcreate Hmate) as [body [-> [_ Hs]]].
      cbn [run res_body NextResponse_json]. now intros H; elim H.
    + rewrite (@POST_ongoing _ _ env h request f game Hreq Hne Hcreate Hmate).
      destruct (h _ (OpenAICreate (chatFor f game))) as [apiError | content].
      * destruct (isQuotaError apiError); [| apply errorResponse_stack].
        intros Hs. exfalso. apply Hs. apply quotaResponse_fields.
      * destruct (option_map JS.trim content) as [[| c t] |];
          try apply errorResponse_stack.
        destruct (match move game (String c t) with
                  | inr _ => Some (String c t)
                  | inl _ => JS.randomElement (h _ ServerRandom) (moves game)
                  end) as [m |]; [| apply errorResponse_stack].
        destruct (move game m) as [e | g1]; [apply errorResponse_stack |].
        intros Hs. exfalso. apply Hs. apply moveResponse_fields.
  - destruct (@POST_not_ongoing _ _ env request Hnot) as [r [-> Hr]]. cbn [run].
    destruct Hr as [-> | [-> | [e ->]]]; [now intros H; elim H .. | apply errorResponse_stack].
Qed.

(** X3.  For every request the endpoint asks the model at most once,
    draws at most one random number, and draws it only after the
    model was asked. *)
Theorem POST_calls_model_once (env : ProcessEnv) (h : Handler ServerEvent)
        (request : NextRequest) :
  calls h (POST env request) = [] \/
  exists chat,
    calls h (POST env request) = [existT _ _ (OpenAICreate chat)] \/
    calls h (POST env request) = [existT _ _ (OpenAICreate chat); existT _ _ ServerRandom].
Proof.
  destruct (request_cases request) as [[f [game [Hreq [Hne Hcreate]]]] | Hnot].
  - destruct (isCheckmate game) eqn:Hmate.
    + destruct (@POST_mate_branch env request f game Hreq Hne Hcreate Hmate) as [body [-> _]].
      left. reflexivity.
    + right. exists (chatFor f game).
      exact (@POST_ongoing_calls _ _ env h request f game Hreq Hne Hcreate Hmate).
  - destruct (@POST_not_ongoing _ _ env request Hnot) as [r [-> _]]. left. reflexivity.
Qed.

(** X4.  When the endpoint answers with a move chosen after a reply of
    the model (no [warning]), the other fields describe the position
    after that move: [turn] is the side then to move, [inCheck] tells
    whether that side is in check, and [message] is present exactly
    then.  [gameOver] is [false] in every such answer, whatever the
    position after the move is. *)
Theorem POST_move_fields (env : ProcessEnv) (h : Handler ServerEvent)
        (request : NextRequest) (m : string) :
  JS.prop (res_body (run h (POST env request))) "move" = Some (JS.JString m) ->
  JS.prop (res_body (run h (POST env request))) "warning" = None ->
  exists f game gameAfterMove,
    json request = inr (ObjectBody (Some f)) /\
    newChess f = inr game /\
    move game m = inr gameAfterMove /\
    let body := res_body (run h (POST env request)) in
    JS.prop body "turn" = Some (JS.JString (turnName (turn gameAfterMove))) /\
    JS.prop body "inCheck" = Some (JS.JBool (isCheck gameAfterMove)) /\
    (JS.prop body "message" <> None <-> isCheck gameAfterMove = true) /\
    JS.prop body "gameOver" = Some (JS.JBool false).
Proof.
  assert (Herr : forall e, JS.prop (res_body (errorResponse env e)) "move"
                           <> Some (JS.JString m)).
  { intros e. rewrite errorResponse_no_move. discriminate. }
  destruct (request_cases request) as [[f [game [Hreq [Hne Hcreate]]]] | Hnot].
  - destruct (createChessGame_inv _ Hcreate) as [Hnew _].
    destruct (isCheckmate game) eqn:Hmate.
    + destruct (@POST_mate_branch env request f game Hreq Hne Hcreate Hmate)
        as [body [-> [Hm _]]].
      cbn [run res_body NextResponse_json]. rewrite Hm. discriminate.
    + rewrite (@POST_ongoing _ _ env h request f game Hreq Hne Hcreate Hmate).
      destruct (h _ (OpenAICreate (chatFor f game))) as [apiError | content].
      * destruct (isQuotaError apiError); [| intros Hm; now elim (Herr apiError)].
        intros _ Hw.
        destruct (quotaResponse_fields
                    (JS.randomElement (h _ ServerRandom) (moves game)) apiError)
          as [_ [_ [Hw' _]]].
        rewrite Hw' in Hw. discriminate.
      * destruct (option_map JS.trim content) as [[| c t] |];
          try (intros Hm; now elim (Herr (JS.newError "No move returned from AI"))).
        destruct (match move game (String c t) with
                  | inr _ => Some (String c t)
                  | inl _ => JS.randomElement (h _ ServerRandom) (moves game)
                  end) as [m' |];
          [| intros Hm; now elim (Herr (JS.newError "Invalid move: undefined"))].
        destruct (move game m') as [e | g1] eqn:Hmv; [intros Hm; now elim (Herr e) |].
        destruct (moveResponse_fields m' g1) as [_ [Hm' [Ht [Hc [Hg [Hmsg _]]]]]].
        intros Hm _. rewrite Hm' in Hm. injection Hm as ->.
        exists f, game, g1. repeat split; try assumption; apply Hmsg.
  - destruct (@POST_not_ongoing _ _ env request Hnot) as [r [-> Hr]]. cbn [run].
    destruct Hr as [-> | [-> | [e ->]]]; [discriminate .. | intros Hm; now elim (Herr e)].
Qed.

(** X5.  When the call to the model fails with an error that is no
    quota or rate-limit error, the endpoint plays no fallback move: it
    answers with the message of that error as [error] and no [move].
    The status is 500, or 400 when the message contains 'already over'
    or 'invalid fen' in any letter case. *)
Theorem POST_model_failure (env : ProcessEnv) (h : Handler ServerEvent)
        (request : NextRequest) (f : string) (g : Chess) (apiError : JS.Error) :
  json request = inr (ObjectBody (Some f)) ->
  f <> EmptyString ->
  newChess f = inr g -> isGameOver g = false -> isDraw g = false ->
  MateEndsGame g ->
  h _ (OpenAICreate (chatFor f g)) = inl apiError ->
  isQuotaError apiError = false ->
  let response := run h (POST env request) in
  res_status response =
  (if JS.includes (JS.toLowerCase (JS.message apiError)) "already over" ||
      JS.includes (JS.toLowerCase (JS.message apiError)) "invalid fen"
   then 400%Z else 500%Z) /\
  JS.prop (res_body response) "error" = Some (JS.JString (JS.message apiError)) /\
  JS.prop (res_body response) "move" = None /\
  calls h (POST env request) = [existT _ _ (OpenAICreate (chatFor f g))].
Proof.
  intros Hreq Hne Hnew Hover Hdraw Hlaw Hreply Hquota response.
  assert (Hcreate := createChessGame_ongoing _ Hnew Hover Hdraw).
  assert (Hmate := ongoing_not_mate _ Hcreate Hlaw).
  unfold response.
  rewrite (@POST_ongoing _ _ env h request f g Hreq Hne Hcreate Hmate), Hreply, Hquota.
  destruct (errorResponse_fields env apiError) as [_ [He [Hm _]]].
  split; [reflexivity |]. split; [exact He |]. split; [exact Hm |].
  destruct f as [| c f]; [congruence |].
  rewrite (POST_with_fen env request Hreq), calls_bind.
  unfold processGame. rewrite Hcreate, Hmate, Hdraw, Hover.
  unfold getChessPrompt. rewrite Hnew. cbn [system user run calls].
  change (mkChat _ _ _ _) with (chatFor (String c f) g).
  rewrite Hreply, Hquota. reflexivity.
Qed.

(** X6.  When the model replies with no content, or with white space
    only, the endpoint answers with status 500 and the error 'No move
    returned from AI'; it draws no random move. *)
Theorem POST_blank_reply (env : ProcessEnv) (h : Handler ServerEvent)
        (request : NextRequest) (f : string) (g : Chess) (content : option string) :
  json request = inr (ObjectBody (Some f)) ->
  f <> EmptyString ->
  newChess f = inr g -> isGameOver g = false -> isDraw g = false ->
  MateEndsGame g ->
  h _ (OpenAICreate (chatFor f g)) = inr content ->
  option_map JS.trim content = None \/ option_map JS.trim content = Some EmptyString ->
  let response := run h (POST env request) in
  res_status response = 500%Z /\
  JS.prop (res_body response) "error" = Some (JS.JString "No move returned from AI") /\
  JS.prop (res_body response) "move" = None /\
  calls h (POST env request) = [existT _ _ (OpenAICreate (chatFor f g))].
Proof.
  intros Hreq Hne Hnew Hover Hdraw Hlaw Hreply Hblank response.
  assert (Hcreate := createChessGame_ongoing _ Hnew Hover Hdraw).
  assert (Hmate := ongoing_not_mate _ Hcreate Hlaw).
  assert (Hrun : response = errorResponse env (JS.newError "No move returned from AI")).
  { unfold response.
    rewrite (@POST_ongoing _ _ env h request f g Hreq Hne Hcreate Hmate), Hreply.
    destruct Hblank as [-> | ->]; reflexivity. }
  rewrite Hrun.
  destruct (errorResponse_fields env (JS.newError "No move returned from AI"))
    as [_ [He [Hm _]]].
  split; [reflexivity |]. split; [exact He |]. split; [exact Hm |].
  destruct f as [| c f]; [congruence |].
  rewrite (POST_with_fen env request Hreq), calls_bind.
  unfold processGame. rewrite Hcreate, Hmate, Hdraw, Hover.
  unfold getChessPrompt. rewrite Hnew. cbn [system user run calls].
  change (mkChat _ _ _ _) with (chatFor (String c f) g).
  rewrite Hreply.
  destruct Hblank as [-> | ->]; reflexivity.
Qed.

(** X7.  When the model replies with any text that is not blank, the
    endpoint answers with status 200 and a move that the engine
    accepts on the position: the reply itself, trimmed, when the engine
    accepts it, and a member of the legal-move list otherwise.  This
    needs [Math.random()] in [0, 1) and an engine that has a legal move
    while the game goes on and accepts the moves it lists. *)
Theorem POST_reply_answered (env : ProcessEnv) (h : Handler ServerEvent)
        (request : NextRequest) (f : string) (g : Chess) (content : string) :
  json request = inr (ObjectBody (Some f)) ->
  f <> EmptyString ->
  newChess f = inr g -> isGameOver g = false -> isDraw g = false ->
  MateEndsGame g -> MovesWhileOngoing g -> ListedMovesAccepted g ->
  unitInterval (h _ ServerRandom) ->
  h _ (OpenAICreate (chatFor f g)) = inr (Some content) ->
  JS.trim content <> EmptyString ->
  let response := run h (POST env request) in
  res_status response = 200%Z /\
  JS.prop (res_body response) "error" = None /\
  exists m,
    JS.prop (res_body response) "move" = Some (JS.JString m) /\
    Accepted g m /\
    (Accepted g (JS.trim content) -> m = JS.trim content) /\
    (~ Accepted g (JS.trim content) -> In m (moves g)).
Proof.
  intros Hreq Hne Hnew Hover Hdraw Hlaw Hmoves Hlisted Hrnd Hreply Htrim response.
  assert (Hcreate := createChessGame_ongoing _ Hnew Hover Hdraw).
  assert (Hmate := ongoing_not_mate _ Hcreate Hlaw).
  unfold response.
  rewrite (@POST_ongoing _ _ env h request f g Hreq Hne Hcreate Hmate), Hreply.
  cbn [option_map].
  destruct (JS.trim content) as [| c t]; [congruence |].
  destruct (move g (String c t)) as [e | g1] eqn:Hmv.
  - destruct (@randomElement_nonempty _ (h _ ServerRandom) (moves g) Hrnd (Hmoves Hover))
      as [x [Hpick Hin]].
    rewrite Hpick.
    destruct (Hlisted x Hin) as [g2 Hx]. rewrite Hx.
    destruct (moveResponse_fields x g2) as [Hs [Hm [_ [_ [_ [_ [He _]]]]]]].
    split; [exact Hs |]. split; [exact He |].
    exists x. split; [exact Hm |]. split; [now exists g2 |].
    split; [| intros _; exact Hin].
    intros [g' Hacc]. congruence.
  - rewrite Hmv.
    destruct (moveResponse_fields (String c t) g1) as [Hs [Hm [_ [_ [_ [_ [He _]]]]]]].
    split; [exact Hs |]. split; [exact He |].
    exists (String c t). split; [exact Hm |]. split; [now exists g1 |].
    split; [reflexivity |].
    intros Hnot. elim Hnot. now exists g1.
Qed.

End EndpointProperties.

Section ClientProperties.

Context {E : ChessEngine} {U : ChessUntyped E}.

Import ChessMove.

Local Open Scope string_scope.




(** What [getAiMove] returns on a game that goes on is accepted by the
    engine on the game itself, and it is truthy unless the reply of the
    endpoint carried it. *)
Lemma getAiMove_accepted (g : Chess) (h : Handler ClientEvent) :
  (isGameOver g || isDraw g) = false ->
  SanNonEmpty g -> MovesWhileOngoing g -> ListedMovesAccepted g -> FenFaithful g ->
  unitInterval (h _ ClientRandom) ->
  (exists g', Plays g (run h (getAiMove g)) g') /\
  (JS.truthy (run h (getAiMove g)) = true \/
   EndpointMoveValid g (h _ (Fetch (fetchFor g))) (run h (getAiMove g))).
Proof.
  intros Hongoing Hsan Hmoves Hlisted Hfen Hrnd.
  assert (Hover : isGameOver g = false).
  { destruct (isGameOver g); [discriminate | reflexivity]. }
  assert (Hfall : (exists g', Plays g (run h (fallbackMove g)) g') /\
                  JS.truthy (run h (fallbackMove g)) = true).
  { destruct (@fallbackMove_result _ g h Hsan Hrnd) as [[s [Hs Hin]] | [_ Hnone]].
    - rewrite Hs. split.
      + destruct (Hlisted s Hin) as [g' Hg']. exists g'. left. now exists s.
      + cbn [JS.truthy]. destruct s; [| reflexivity].
        elim (Hsan EmptyString Hin). reflexivity.
    - elim (Hmoves Hover Hnone). }
  unfold getAiMove. rewrite Hongoing. fold (fetchFor g). cbn [run].
  destruct (h _ (Fetch (fetchFor g))) as [e | response] eqn:Hreply;
    [split; [apply Hfall | left; apply Hfall] |].
  destruct (ok response) eqn:Hok; cbn [negb];
    [| split; [apply Hfall | left; apply Hfall]].
  destruct (fetch_json response) as [e | [| b | q | s | items | o]] eqn:Hjson;
    try (split; [apply Hfall | left; apply Hfall]).
  cbn [JS.field].
  destruct (JS.prop o "move") as [m |] eqn:Hfield;
    [| split; [apply Hfall | left; apply Hfall]].
  destruct (newChess (fen g)) as [e | g0] eqn:Hnew;
    [split; [apply Hfall | left; apply Hfall] |].
  destruct (moveAny g0 m) as [g1 |] eqn:Hmv;
    [| split; [apply Hfall | left; apply Hfall]].
  apply moveAny_plays in Hmv.
  cbn [run]. split.
  - exact (Hfen g0 m g1 Hnew Hmv).
  - right. exists response, o, g0, g1. repeat split; assumption.
Qed.

(** X9.  On a game that goes on, with the component mounted,
    [makeAIMove] never takes the branch that reports 'Failed to get AI
    move'.  When what [getAiMove] returned is truthy, it ends with a
    move played on the board: the game is the result of a move that
    the engine accepted, and the state is the one that
    [updateGameState] computes for it, with the error cleared, the FEN
    and the history of the new position.  What [getAiMove] returned is
    falsy only when the endpoint itself replied with a falsy [move]
    that the engine accepts ([null], the empty string); then nothing
    is played and the status stays 'ai-thinking'.  This needs
    [Math.random()] in [0, 1) and an engine that lists no empty move,
    has a move while the game goes on, accepts the moves it lists, and
    accepts on a game what it accepts on the game rebuilt from its FEN. *)
Theorem makeAIMove_plays_move (g : Chess) (st : HookState) (h : Handler ClientEvent) :
  (isGameOver g || isDraw g) = false ->
  SanNonEmpty g -> MovesWhileOngoing g -> ListedMovesAccepted g -> FenFaithful g ->
  unitInterval (h _ ClientRandom) ->
  let aiMove := run h (getAiMove g) in
  let thinking := withStatus st AiThinking None in
  (JS.truthy aiMove = true ->
   exists g',
     Plays g aiMove g' /\
     run h (makeAIMove true g st) = (g', updateGameState true g' thinking) /\
     hk_error (snd (run h (makeAIMove true g st))) = None /\
     hk_fen (snd (run h (makeAIMove true g st))) = fen g' /\
     hk_history (snd (run h (makeAIMove true g st))) = history g') /\
  (JS.truthy aiMove = false ->
   EndpointMoveValid g (h _ (Fetch (fetchFor g))) aiMove /\
   run h (makeAIMove true g st) = (g, thinking)).
Proof.
  intros Hongoing Hsan Hmoves Hlisted Hfen Hrnd. cbv zeta.
  destruct (@getAiMove_accepted g h Hongoing Hsan Hmoves Hlisted Hfen Hrnd)
    as [[g' Hacc] Htruthy].
  assert (Hrun : run h (makeAIMove true g st) =
                 if JS.truthy (run h (getAiMove g))
                 then match moveAny g (run h (getAiMove g)) with
                      | Some g' =>
                          (g', updateGameState true g' (withStatus st AiThinking None))
                      | None =>
                          (g, withStatus (withStatus st AiThinking None) PlayerTurn
                                         (Some "Failed to get AI move. Please try again."))
                      end
                 else (g, withStatus st AiThinking None)).
  { unfold makeAIMove. rewrite Hongoing, run_bind. cbn [negb].
    destruct (JS.truthy (run h (getAiMove g))); [| reflexivity].
    destruct (moveAny g (run h (getAiMove g))); reflexivity. }
  split.
  - intros Htrue. rewrite Hrun, Htrue.
    rewrite (proj2 (moveAny_plays g (run h (getAiMove g)) g') Hacc).
    exists g'. split; [exact Hacc |]. split; [reflexivity |].
    unfold updateGameState. cbn [negb snd].
    destruct (isGameOver g' || isDraw g'); repeat split.
  - intros Hfalse. rewrite Hrun, Hfalse. split; [| reflexivity].
    destruct Htruthy as [Htrue | Hvalid]; [congruence | exact Hvalid].
Qed.

(** X10.  When the position is checkmate, [updateGameState] ends the
    game with the side that is not to move as winner, names that
    side in the message, and sets the evaluation to +100 for a
    white win and -100 for a black win. *)
Theorem updateGameState_checkmate (g : Chess) (st : HookState) :
  isCheckmate g = true ->
  MateEndsGame g ->
  let st' := updateGameState true g st in
  hk_gameOver st' = true /\
  hk_status st' = GameOverStatus /\
  hk_gameResult st' =
  Some {| winner := Some (swapColor (turn g));
          reason := "checkmate";
          result_message := match turn g with
                            | WHITE => "Checkmate! Black wins!"
                            | BLACK => "Checkmate! White wins!"
                            end |} /\
  hk_evaluation st' = match swapColor (turn g) with
                      | WHITE => inject_Z 100
                      | BLACK => inject_Z (-100)
                      end.
Proof.
  intros Hmate Hlaw st'. unfold st', updateGameState, resultOf, evaluateBoard.
  rewrite (Hlaw Hmate), Hmate. cbn [negb orb hk_gameOver hk_status hk_gameResult hk_evaluation].
  destruct (turn g); repeat split.
Qed.

(** X11.  When the position is a draw and not checkmate,
    [updateGameState] ends the game with evaluation 0, and the winner
    is [null] exactly for stalemate, insufficient material and
    threefold repetition.  For any other draw (the fifty-move rule)
    the result names the side that is not to move as winner, with the
    reason 'game-over' and the message 'Game over'. *)
Theorem updateGameState_draw_winner (g : Chess) (st : HookState) :
  isDraw g = true ->
  isCheckmate g = false ->
  let st' := updateGameState true g st in
  hk_status st' = GameOverStatus /\
  hk_evaluation st' = inject_Z 0 /\
  exists result,
    hk_gameResult st' = Some result /\
    (winner result = None <->
     isStalemate g = true \/ isInsufficientMaterial g = true \/
     isThreefoldRepetition g = true) /\
    (isStalemate g = false -> isInsufficientMaterial g = false ->
     isThreefoldRepetition g = false ->
     result = {| winner := Some (swapColor (turn g));
                 reason := "game-over";
                 result_message := "Game over" |}).
Proof.
  intros Hdraw Hmate st'. unfold st', updateGameState, resultOf, evaluateBoard.
  rewrite Hdraw, Hmate, Bool.orb_true_r.
  cbn [negb orb hk_gameOver hk_status hk_gameResult hk_evaluation].
  split; [reflexivity |]. split; [reflexivity |].
  eexists. split; [reflexivity |].
  destruct (isStalemate g); [| destruct (isInsufficientMaterial g);
                               [| destruct (isThreefoldRepetition g)]];
    cbn [winner]; (split; [split |]); try tauto; try discriminate;
    try (intros [H | [H | H]]; discriminate).
Qed.

End ClientProperties.

Section MoreOnChessJs.

Local Existing Instance ChessJs.engine.
Local Existing Instance ChessJs.untyped.

Import Positions MorePositions.

Local Open Scope string_scope.

Lemma chessjs_laws (request_ : NextRequest) (f : string) (g : Chess) :
  fenOf request_ = Some f -> newChess f = inr g ->
  MateEndsGame g /\ MovesWhileOngoing g.
Proof.
  intros _ _. split; [apply chessjs_mate_ends_game | apply chessjs_moves_while_ongoing].
Qed.

Lemma POST_response_shape_witness :
  let h := server (inr (Some "e4")) (1 # 2)%Q in
  (forall f g, fenOf (request start) = Some f -> newChess f = inr g ->
               MateEndsGame g /\ MovesWhileOngoing g) /\
  unitInterval (h _ ServerRandom) /\
  let response := run h (ChessMove.POST env (request start)) in
  ((res_status response = 200%Z /\
    (exists m, JS.prop (res_body response) "move" = Some (JS.JString m)) /\
    JS.prop (res_body response) "error" = None) \/
   ((res_status response = 400%Z \/ res_status response = 500%Z) /\
    (exists msg, JS.prop (res_body response) "error" = Some (JS.JString msg)) /\
    JS.prop (res_body response) "move" = None)) /\
  JS.prop (res_body response) "winner" = None /\
  JS.prop (res_body response) "reason" = None.
Proof.
  intros h.
  exact (conj (chessjs_laws (request start))
              (conj half_in_unit_interval
                    (@POST_response_shape _ _ env h (request start)
                                          (chessjs_laws (request start))
                                          half_in_unit_interval))).
Defined.

Lemma POST_stack_only_in_development_witness :
  let h := server (inr None) (1 # 2)%Q in
  JS.prop (res_body (run h (ChessMove.POST devEnv (request "not a fen")))) "stack" <> None /\
  NODE_ENV devEnv = Some "development".
Proof.
  intros h.
  assert (Hstack : JS.prop (res_body (run h (ChessMove.POST devEnv (request "not a fen"))))
                           "stack" <> None) by (vm_compute; discriminate).
  exact (conj Hstack (@POST_stack_only_in_development _ _ devEnv h (request "not a fen") Hstack)).
Defined.

Example POST_hides_stack_in_production :
  res_body (run (server (inr None) (1 # 2)%Q)
                (ChessMove.POST {| NODE_ENV := Some "production";
                                   stackOf := fun e => "Error: " ++ JS.message e |}
                                (request "not a fen")))
  = [("error", JS.JString "Invalid FEN: castling availability is invalid");
     ("gameOver", JS.JBool false)].
Proof. vm_compute. reflexivity. Qed.

Lemma POST_move_fields_witness :
  let h := server (inr (Some "Qh4#")) (1 # 2)%Q in
  let body := res_body (run h (ChessMove.POST env (request beforeMate))) in
  JS.prop body "move" = Some (JS.JString "Qh4#") /\
  JS.prop body "warning" = None /\
  match ChessJs.move (gameOf beforeMate) "Qh4#" with
  | inr g' => ChessJs.isCheckmate g'
  | inl _ => false
  end = true /\
  exists f game gameAfterMove,
    json (request beforeMate) = inr (ObjectBody (Some f)) /\
    newChess f = inr game /\
    move game "Qh4#" = inr gameAfterMove /\
    let body := res_body (run h (ChessMove.POST env (request beforeMate))) in
    JS.prop body "turn" = Some (JS.JString (ChessMove.turnName (turn gameAfterMove))) /\
    JS.prop body "inCheck" = Some (JS.JBool (isCheck gameAfterMove)) /\
    (JS.prop body "message" <> None <-> isCheck gameAfterMove = true) /\
    JS.prop body "gameOver" = Some (JS.JBool false).
Proof.
  intros h body.
  assert (Hmove : JS.prop body "move" = Some (JS.JString "Qh4#")) by (vm_compute; reflexivity).
  assert (Hwarn : JS.prop body "warning" = None) by (vm_compute; reflexivity).
  refine (conj Hmove (conj Hwarn (conj _ _))).
  - vm_compute. reflexivity.
  - exact (@POST_move_fields _ _ env h (request beforeMate) "Qh4#" Hmove Hwarn).
Defined.

Lemma start_ongoing :
  newChess start = inr (gameOf start) /\
  isGameOver (gameOf start) = false /\ isDraw (gameOf start) = false.
Proof. vm_compute. repeat split. Qed.

Lemma POST_model_failure_witness :
  let apiError := JS.newError "Connection error." in
  let h := server (inl apiError) (1 # 2)%Q in
  let g := gameOf start in
  let response := run h (ChessMove.POST env (request start)) in
  newChess start = inr g /\ isGameOver g = false /\ isDraw g = false /\
  ChessMove.isQuotaError apiError = false /\
  res_status response = 500%Z /\
  JS.prop (res_body response) "error" = Some (JS.JString "Connection error.") /\
  JS.prop (res_body response) "move" = None /\
  calls h (ChessMove.POST env (request start)) = [existT _ _ (OpenAICreate (chatFor start g))].
Proof.
  intros apiError h g response.
  destruct start_ongoing as [Hnew [Hover Hdraw]].
  refine (conj Hnew (conj Hover (conj Hdraw (conj eq_refl _)))).
  refine (@POST_model_failure _ _ env h (request start) start g apiError
            eq_refl _ Hnew Hover Hdraw (chessjs_mate_ends_game g) eq_refl eq_refl).
  discriminate.
Defined.

Lemma POST_blank_reply_witness :
  let content := Some (nbsp ++ " ") in
  let h := server (inr content) (1 # 2)%Q in
  let g := gameOf start in
  let response := run h (ChessMove.POST env (request start)) in
  newChess start = inr g /\ isGameOver g = false /\ isDraw g = false /\
  option_map JS.trim content = Some EmptyString /\
  res_status response = 500%Z /\
  JS.prop (res_body response) "error" = Some (JS.JString "No move returned from AI") /\
  JS.prop (res_body response) "move" = None /\
  calls h (ChessMove.POST env (request start)) = [existT _ _ (OpenAICreate (chatFor start g))].
Proof.
  intros content h g response.
  destruct start_ongoing as [Hnew [Hover Hdraw]].
  refine (conj Hnew (conj Hover (conj Hdraw (conj eq_refl _)))).
  refine (@POST_blank_reply _ _ env h (request start) start g content
            eq_refl _ Hnew Hover Hdraw (chessjs_mate_ends_game g) eq_refl
            (or_intror eq_refl)).
  discriminate.
Defined.

Lemma start_moves_listed : ListedMovesAccepted (gameOf start).
Proof. apply acceptsListedMoves_sound. vm_compute. reflexivity. Qed.

Lemma POST_reply_answered_witness :
  let h := server (inr (Some "Ke2")) (1 # 2)%Q in
  let g := gameOf start in
  let response := run h (ChessMove.POST env (request start)) in
  newChess start = inr g /\ isGameOver g = false /\ isDraw g = false /\
  ListedMovesAccepted g /\
  JS.trim "Ke2" <> EmptyString /\
  res_status response = 200%Z /\
  JS.prop (res_body response) "error" = None /\
  exists m,
    JS.prop (res_body response) "move" = Some (JS.JString m) /\
    Accepted g m /\
    (Accepted g (JS.trim "Ke2") -> m = JS.trim "Ke2") /\
    (~ Accepted g (JS.trim "Ke2") -> In m (moves g)).
Proof.
  intros h g response.
  destruct start_ongoing as [Hnew [Hover Hdraw]].
  assert (Htrim : JS.trim "Ke2" <> EmptyString) by discriminate.
  refine (conj Hnew (conj Hover (conj Hdraw (conj start_moves_listed (conj Htrim _))))).
  refine (@POST_reply_answered _ _ env h (request start) start g "Ke2"
            eq_refl _ Hnew Hover Hdraw (chessjs_mate_ends_game g)
            (chessjs_moves_while_ongoing g) start_moves_listed
            half_in_unit_interval eq_refl Htrim).
  discriminate.
Defined.



Lemma start_fen_faithful : FenFaithful (gameOf start).
Proof.
  intros g0 m g1 Hnew Hacc.
  assert (Heq : gameOf start = g0).
  { vm_compute in Hnew. vm_compute. congruence. }
  rewrite Heq. now exists g1.
Qed.

Lemma makeAIMove_plays_move_witness :
  let g := gameOf start in
  let h := client (inl (JS.newError "Failed to fetch")) (1 # 2)%Q in
  (isGameOver g || isDraw g) = false /\
  SanNonEmpty g /\ MovesWhileOngoing g /\ ListedMovesAccepted g /\ FenFaithful g /\
  unitInterval (h _ ClientRandom) /\
  JS.truthy (run h (getAiMove g)) = true /\
  let aiMove := run h (getAiMove g) in
  let thinking := withStatus initialState AiThinking None in
  (JS.truthy aiMove = true ->
   exists g',
     Plays g aiMove g' /\
     run h (makeAIMove true g initialState) = (g', updateGameState true g' thinking) /\
     hk_error (snd (run h (makeAIMove true g initialState))) = None /\
     hk_fen (snd (run h (makeAIMove true g initialState))) = fen g' /\
     hk_history (snd (run h (makeAIMove true g initialState))) = history g') /\
  (JS.truthy aiMove = false ->
   EndpointMoveValid g (h _ (Fetch (fetchFor g))) aiMove /\
   run h (makeAIMove true g initialState) = (g, thinking)).
Proof.
  intros g h.
  assert (Hongoing : (isGameOver g || isDraw g) = false) by (vm_compute; reflexivity).
  assert (Hsan : SanNonEmpty g).
  { apply listsNoEmptyMove_sound. vm_compute. reflexivity. }
  assert (Htruthy : JS.truthy (run h (getAiMove g)) = true) by (vm_compute; reflexivity).
  refine (conj Hongoing
            (conj Hsan
               (conj (chessjs_moves_while_ongoing g)
                  (conj start_moves_listed
                     (conj start_fen_faithful
                        (conj half_in_unit_interval (conj Htruthy _))))))).
  exact (@makeAIMove_plays_move _ _ g initialState h Hongoing Hsan
           (chessjs_moves_while_ongoing g) start_moves_listed start_fen_faithful
           half_in_unit_interval).
Defined.

Example makeAIMove_after_e4 :
  match ChessJs.move (gameOf start) "e4" with
  | inr g =>
      let reply := {| ok := true; fetch_status := 200%Z;
                      fetch_json := inr (JS.JObject [("move", JS.JString "e5")]) |} in
      let result := run (client (inr reply) (1 # 2)%Q) (makeAIMove true g initialState) in
      (hk_fen (snd result), hk_status (snd result), map mv_san (hk_history (snd result)))
  | inl _ => (EmptyString, Idle, [])
  end
  = ("rnbqkbnr/pppp1ppp/8/4p3/4P3/8/PPPP1PPP/RNBQKBNR w KQkq - 0 2", PlayerTurn,
     ["e4"; "e5"]).
Proof. vm_compute. reflexivity. Qed.

(** On the reply [{ move: null }] nothing is played and the status
    stays 'ai-thinking'. *)
Example makeAIMove_null_reply :
  let g := gameOf start in
  let reply := {| ok := true; fetch_status := 200%Z;
                  fetch_json := inr (JS.JObject [("move", JS.JNull)]) |} in
  let result := run (client (inr reply) (1 # 2)%Q) (makeAIMove true g initialState) in
  fen (fst result) = start /\ hk_status (snd result) = AiThinking /\
  hk_error (snd result) = None.
Proof. vm_compute. repeat split. Qed.

Lemma updateGameState_checkmate_witness :
  let g := gameOf foolsMate in
  let st' := updateGameState true g initialState in
  isCheckmate g = true /\
  MateEndsGame g /\
  turn g = WHITE /\
  hk_gameOver st' = true /\
  hk_status st' = GameOverStatus /\
  hk_gameResult st' =
  Some {| winner := Some (swapColor (turn g));
          reason := "checkmate";
          result_message := match turn g with
                            | WHITE => "Checkmate! Black wins!"
                            | BLACK => "Checkmate! White wins!"
                            end |} /\
  hk_evaluation st' = match swapColor (turn g) with
                      | WHITE => inject_Z 100
                      | BLACK => inject_Z (-100)
                      end.
Proof.
  intros g st'.
  assert (Hmate : isCheckmate g = true) by (vm_compute; reflexivity).
  assert (Hturn : turn g = WHITE) by (vm_compute; reflexivity).
  refine (conj Hmate (conj (chessjs_mate_ends_game g) (conj Hturn _))).
  exact (@updateGameState_checkmate _ g initialState Hmate (chessjs_mate_ends_game g)).
Defined.

Lemma updateGameState_draw_winner_witness :
  let g := gameOf fiftyMoves in
  let st' := updateGameState true g initialState in
  newChess fiftyMoves = inr g /\
  isDraw g = true /\
  isCheckmate g = false /\
  (isStalemate g = false /\ isInsufficientMaterial g = false /\
   isThreefoldRepetition g = false) /\
  hk_gameResult st' = Some {| winner := Some BLACK;
                              reason := "game-over";
                              result_message := "Game over" |} /\
  hk_status st' = GameOverStatus /\
  hk_evaluation st' = inject_Z 0 /\
  exists result,
    hk_gameResult st' = Some result /\
    (winner result = None <->
     isStalemate g = true \/ isInsufficientMaterial g = true \/
     isThreefoldRepetition g = true) /\
    (isStalemate g = false -> isInsufficientMaterial g = false ->
     isThreefoldRepetition g = false ->
     result = {| winner := Some (swapColor (turn g));
                 reason := "game-over";
                 result_message := "Game over" |}).
Proof.
  intros g st'.
  assert (Hnew : newChess fiftyMoves = inr g) by (vm_compute; reflexivity).
  assert (Hdraw : isDraw g = true) by (vm_compute; reflexivity).
  assert (Hmate : isCheckmate g = false) by (vm_compute; reflexivity).
  refine (conj Hnew (conj Hdraw (conj Hmate (conj _ (conj _ _))))).
  - vm_compute. repeat split.
  - vm_compute. reflexivity.
  - exact (@updateGameState_draw_winner _ g initialState Hdraw Hmate).
Defined.

End MoreOnChessJs.

Section MoveHistoryProperties.

Local Open Scope string_scope.

Lemma list_pair_ind (A : Type) (P : list A -> Prop) :
  P [] -> (forall x, P [x]) -> (forall x y l, P l -> P (x :: y :: l)) ->
  forall l, P l.
Proof.
  intros Hnil Hone Hstep.
  assert (Hboth : forall l, P l /\ forall x, P (x :: l)).
  { induction l as [| y l [IH1 IH2]].
    - split; [exact Hnil | exact Hone].
    - split; [apply IH2 | intros x; apply Hstep; exact IH1]. }
  intros l. apply Hboth.
Qed.

Lemma movePairs_nth (history_ : list Move) (i : nat) :
  nth_error (movePairs history_) i =
  match nth_error history_ (2 * i) with
  | Some whiteMove => Some (whiteMove, nth_error history_ (2 * i + 1))
  | None => None
  end.
Proof.
  revert i. induction history_ as [| x | x y l IH] using list_pair_ind; intros i.
  - destruct i; reflexivity.
  - destruct i as [| i]; [reflexivity |].
    replace (2 * S i)%nat with (S (S (2 * i))) by lia.
    cbn. destruct i; reflexivity.
  - destruct i as [| i]; [reflexivity |].
    replace (2 * S i)%nat with (S (S (2 * i))) by lia.
    cbn [movePairs nth_error Nat.add]. apply IH.
Qed.

Lemma rowsFrom_nth (pairs : list (Move * option Move)) (start i : nat) :
  nth_error (rowsFrom start pairs) i =
  option_map (rowCells (start + i)) (nth_error pairs i).
Proof.
  revert start i. induction pairs as [| row rest IH]; intros start i.
  - destruct i; reflexivity.
  - destruct i as [| i]; cbn [rowsFrom nth_error option_map].
    + now rewrite Nat.add_0_r.
    + rewrite IH. now rewrite Nat.add_succ_r.
Qed.

(** X12.  The move table shows the history two moves to a row and
    loses none: row [i] is numbered [i + 1] and holds the moves [2i]
    and [2i + 1] of the history, the second cell being empty when
    there is no such move; there are as many rows as half the length
    of the history, rounded up, and the moves of all rows in order
    are the history. *)
Theorem movePairs_rows (history_ : list Move) :
  unpair (movePairs history_) = history_ /\
  length (tableRows history_) = Nat.div2 (S (length history_)) /\
  forall i,
    nth_error (tableRows history_) i =
    match nth_error history_ (2 * i) with
    | Some whiteMove =>
        Some (JS.showNat (i + 1) ++ ". " ++ mv_san whiteMove,
              match nth_error history_ (2 * i + 1) with
              | Some blackMove => mv_san blackMove
              | None => EmptyString
              end)
    | None => None
    end.
Proof.
  split; [| split].
  - induction history_ as [| x | x y l IH] using list_pair_ind; [reflexivity .. |].
    cbn [movePairs unpair flat_map fst snd app]. unfold unpair in IH. now rewrite IH.
  - unfold tableRows.
    assert (Hlen : forall pairs start, length (rowsFrom start pairs) = length pairs).
    { induction pairs as [| row rest IH]; intros start; [reflexivity |].
      cbn [rowsFrom length]. now rewrite IH. }
    rewrite Hlen.
    induction history_ as [| x | x y l IH] using list_pair_ind; [reflexivity .. |].
    cbn [movePairs length Nat.div2]. now rewrite IH.
  - intros i. unfold tableRows. rewrite rowsFrom_nth, movePairs_nth.
    destruct (nth_error history_ (2 * i)) as [whiteMove |]; reflexivity.
Qed.

End MoveHistoryProperties.

Section EvaluatorProperties.

Context {E : ChessEngine} {U : ChessUntyped E}.

Local Open Scope Z_scope.

Lemma signedValue_bound (sq : BoardSquare) : Z.abs (signedValue sq) <= 9.
Proof. unfold signedValue. destruct (bs_color sq), (bs_type sq); cbn; lia. Qed.

Lemma balance_bound (l : list BoardSquare) :
  Z.abs (fold_right Z.add 0 (map signedValue l)) <= 9 * Z.of_nat (length l).
Proof.
  induction l as [| sq l IH]; [cbn; lia |].
  cbn [map fold_right length]. pose proof (signedValue_bound sq). lia.
Qed.

(** X13.  The score of [evaluateBoard] is always a whole number: the
    rounding to one decimal is the identity on every value that the
    function computes.  Its absolute value is at most 100 or at most
    nine times the number of occupied squares. *)
Theorem evaluateBoard_whole_number (g : Chess) :
  exists z : Z,
    evaluateBoard g = inject_Z z /\
    (Z.abs z = 100 \/ Z.abs z <= 9 * Z.of_nat (length (occupied (board g)))).
Proof.
  unfold evaluateBoard.
  destruct (isCheckmate g).
  - destruct (turn g); eexists; (split; [reflexivity | left; reflexivity]).
  - destruct (isDraw g || isThreefoldRepetition g || isInsufficientMaterial g)%bool.
    + exists 0. split; [reflexivity | right; cbn [Z.abs]; lia].
    + exists (materialBalance (board g)).
      rewrite toFixed1_whole, sumMaterial_balance.
      split; [reflexivity | right; apply balance_bound].
Qed.

Lemma swapSides_occupied (b : list (list (option BoardSquare))) :
  map signedValue (occupied (swapSides b)) = map Z.opp (map signedValue (occupied b)).
Proof.
  unfold occupied, swapSides.
  induction b as [| row b IH]; [reflexivity |].
  cbn [map concat]. rewrite !flat_map_app, !map_app, IH. f_equal.
  clear IH. induction row as [| o row IH]; [reflexivity |].
  cbn [map flat_map]. rewrite !map_app, IH. f_equal.
  destruct o as [sq |]; [| reflexivity].
  cbn. unfold signedValue. cbn. destruct (bs_color sq); cbn; f_equal; lia.
Qed.

Lemma swapSides_balance (b : list (list (option BoardSquare))) :
  materialBalance (swapSides b) = - materialBalance b.
Proof.
  unfold materialBalance. rewrite swapSides_occupied.
  induction (map signedValue (occupied b)) as [| v l IH]; [reflexivity |].
  cbn [map fold_right]. rewrite IH. lia.
Qed.

(** X14.  The evaluation is symmetric in the colours: of two
    positions that are neither checkmate nor drawn and whose boards
    differ by the exchange of the colours of all pieces, one scores
    the opposite of the other. *)
Theorem evaluateBoard_colour_symmetry (g1 g2 : Chess) :
  board g2 = swapSides (board g1) ->
  isCheckmate g1 = false -> isCheckmate g2 = false ->
  (isDraw g1 || isThreefoldRepetition g1 || isInsufficientMaterial g1)%bool = false ->
  (isDraw g2 || isThreefoldRepetition g2 || isInsufficientMaterial g2)%bool = false ->
  evaluateBoard g2 = Qopp (evaluateBoard g1).
Proof.
  intros Hboard Hm1 Hm2 Hd1 Hd2. unfold evaluateBoard.
  rewrite Hm1, Hm2, Hd1, Hd2, !toFixed1_whole, !sumMaterial_balance, Hboard,
    swapSides_balance.
  reflexivity.
Qed.

End EvaluatorProperties.

Section PositionalProperties.

Context {E : ChessEngine} {A : ChessBoardAccess E}.

Import ChessMove2 ChessMove2Position.

Local Open Scope string_scope.

(** X15.  Every generated move is a move of the side to move, so the
    list of opponent threats in the chess-move-2 prompt is always
    empty and the text never has an 'Opponent threats' line, while
    'Your threats' lists every capture and every move whose notation
    has a '+'. *)
Theorem threats_one_sided (g : Chess) (hanging : list HangingPiece) :
  MoverColor g ->
  opponentThreats g = [] /\
  ourThreats g =
  map threatText
      (filter (fun m => isCaptured m || JS.includes (mv_san m) "+") (movesVerbose g)) /\
  immediateConsiderations g hanging =
  (if isCheck g
   then bullet ++ " " ++ warningSign ++ " YOU ARE IN CHECK! You must get out of check." ++ nl
   else EmptyString) ++
  (match hanging with
   | _ :: _ =>
       bullet ++ " " ++ warningSign ++ " HANGING PIECES (save yours, capture opponent's):" ++
       nl ++ hangingPiecesInfo hanging ++ nl
   | [] => EmptyString
   end) ++
  (match ourThreats g with
   | _ :: _ => bullet ++ " Your threats: " ++ JS.join ", " (ourThreats g) ++ nl
   | [] => EmptyString
   end) ++
  bullet ++ " " ++ phaseInstructions g.
Proof.
  intros Hcolor.
  assert (Hopp : opponentThreats g = []).
  { unfold opponentThreats, threatsOf.
    rewrite filter_none; [reflexivity |].
    intros m Hin. rewrite (Hcolor m Hin). unfold opponentColor, currentColor.
    rewrite Color_eqb_swap. apply Bool.andb_false_r. }
  split; [exact Hopp |]. split.
  - unfold ourThreats, threatsOf, currentColor. f_equal.
    apply filter_ext_in. intros m Hin. rewrite (Hcolor m Hin).
    destruct (turn g); cbn; apply Bool.andb_true_r.
  - unfold immediateConsiderations. rewrite Hopp. reflexivity.
Qed.

Lemma forEachIndexed_nil {X Y : Type} (f : X -> nat -> list Y) (l : list X) (start : nat) :
  (forall k x, nth_error l k = Some x -> f x (start + k)%nat = []) ->
  forEachIndexed f start l = [].
Proof.
  revert start. induction l as [| x l IH]; intros start Hall; [reflexivity |].
  cbn [forEachIndexed].
  rewrite <- (Nat.add_0_r start) at 1.
  rewrite (Hall 0%nat x eq_refl), IH; [reflexivity |].
  intros k y Hk. rewrite Nat.add_succ_l, <- Nat.add_succ_r. apply (Hall (S k)). exact Hk.
Qed.

(** X16.  [identifyWeakSquares] looks for a pawn on squares that it
    has just found empty, so it never finds one: for an engine whose
    [get] agrees with [board()] on empty squares the answer is 'No
    obvious weak squares' for every position and colour. *)
Theorem identifyWeakSquares_finds_none (g : Chess) (color : Color) :
  BoardMatchesGet g ->
  identifyWeakSquares g color = "No obvious weak squares".
Proof.
  intros Hget. unfold identifyWeakSquares.
  assert (Hnone : weakSquares g color = []).
  { unfold weakSquares.
    apply forEachIndexed_nil. intros rankIdx rank_ Hrank.
    apply forEachIndexed_nil. intros fileIdx square Hsquare.
    destruct square as [sq |]; [reflexivity |].
    cbn [Nat.add]. rewrite (Hget rankIdx fileIdx rank_ Hrank Hsquare). reflexivity. }
  now rewrite Hnone.
Qed.

Lemma addAll_spec (items seen : list (option ascii)) :
  NoDup seen ->
  NoDup (addAll seen items) /\
  (forall x, In x (addAll seen items) <-> In x seen \/ In x items) /\
  (length (addAll seen items) <= length seen + length items)%nat /\
  (length seen <= length (addAll seen items))%nat.
Proof.
  revert seen. induction items as [| x items IH]; intros seen Hnd.
  - cbn [addAll length]. repeat split; try tauto; try lia. intros [H | []]; exact H.
  - cbn [addAll].
    destruct (existsb (optAsciiEqb x) seen) eqn:Hseen.
    + destruct (IH seen Hnd) as [H1 [H2 [H3 H4]]].
      split; [exact H1 |]. split; [| cbn [length]; lia].
      intros y. rewrite H2. cbn [In].
      apply existsb_exists in Hseen. destruct Hseen as [z [Hz Heq]].
      assert (z = x).
      { destruct x as [a |], z as [b |]; cbn in Heq; try discriminate; [| reflexivity].
        apply Ascii.eqb_eq in Heq. now subst. }
      subst z. intuition (subst; auto).
    + assert (Hnotin : ~ In x seen).
      { intros Hin.
        assert (Hex : existsb (optAsciiEqb x) seen = true).
        { apply existsb_exists. exists x. split; [exact Hin |].
          destruct x as [a |]; cbn; [apply Ascii.eqb_refl | reflexivity]. }
        congruence. }
      assert (Hnd' : NoDup (seen ++ [x])).
      { apply NoDup_app; [exact Hnd | repeat constructor; intros [] |].
        intros y Hy [Hx | []]. subst. contradiction. }
      destruct (IH (seen ++ [x])%list Hnd') as [H1 [H2 [H3 H4]]].
      rewrite length_app in H3, H4. cbn [length] in *.
      split; [exact H1 |]. split; [| lia].
      intros y. rewrite H2, in_app_iff. cbn [In]. tauto.
Qed.

Lemma newSet_spec (items : list (option ascii)) :
  NoDup (newSet items) /\
  (forall x, In x (newSet items) <-> In x items) /\
  (length (newSet items) <= length items)%nat /\
  (items <> [] -> 1 <= length (newSet items))%nat.
Proof.
  unfold newSet.
  destruct (addAll_spec items (NoDup_nil _)) as [H1 [H2 [H3 _]]].
  split; [exact H1 |]. split; [| split; [exact H3 |]].
  - intros x. rewrite H2. cbn [In]. tauto.
  - intros Hne. destruct items as [| x items]; [congruence |].
    assert (Hx : In x (addAll [] (x :: items))) by (apply H2; right; left; reflexivity).
    destruct (addAll [] (x :: items)) as [| y l]; [destruct Hx | cbn; lia].
Qed.

(** X17.  On a position where every pawn square has a name and the
    colour has pawns, [evaluatePawnStructure] does not throw, and its
    three numbers are the number of pawns, that number less the number
    of distinct files they stand on, and a count of files, not of
    pawns: doubled is less than the number of pawns, it is zero
    exactly when no two pawns share a file, and isolated and doubled
    together are at most the number of pawns. *)
Theorem evaluatePawnStructure_counts (g : Chess) (color : Color) :
  (forall s, In s (pawnSquares g color) -> s <> EmptyString) ->
  pawnSquares g color <> [] ->
  exists isolated : nat,
    isolatedPawns g color = inr isolated /\
    evaluatePawnStructure g color =
    inr (JS.showNat (length (pawnSquares g color)) ++ " pawns, " ++
         JS.showNat (doubledPawns g color) ++ " doubled, " ++
         JS.showNat isolated ++ " isolated") /\
    (doubledPawns g color + length (files g color) = length (pawnSquares g color))%nat /\
    (doubledPawns g color < length (pawnSquares g color))%nat /\
    (doubledPawns g color = 0%nat <-> NoDup (pawnFiles g color)) /\
    (isolated + doubledPawns g color <= length (pawnSquares g color))%nat.
Proof.
  intros Hnamed Hsome.
  destruct (newSet_spec (pawnFiles g color)) as [Hnd [Hin [Hle Hone]]].
  assert (Hlen : length (pawnFiles g color) = length (pawnSquares g color)).
  { unfold pawnFiles. apply length_map. }
  assert (Hfiles : (1 <= length (files g color))%nat).
  { apply Hone. unfold pawnFiles.
    destruct (pawnSquares g color); [congruence | discriminate]. }
  fold (files g color) in Hnd, Hin, Hle.
  assert (Hdefined : existsb (optAsciiEqb None) (files g color) = false).
  { destruct (existsb (optAsciiEqb None) (files g color)) eqn:Hex; [| reflexivity].
    apply existsb_exists in Hex. destruct Hex as [x [Hx Heq]].
    destruct x as [a |]; [discriminate |].
    apply Hin in Hx. unfold pawnFiles in Hx. apply in_map_iff in Hx.
    destruct Hx as [s [Hget Hs]].
    destruct s as [| c s]; [elim (Hnamed EmptyString Hs); reflexivity | discriminate]. }
  unfold isolatedPawns, evaluatePawnStructure. rewrite Hdefined.
  eexists. split; [reflexivity |].
  unfold isolatedPawns. rewrite Hdefined.
  split; [destruct (pawnSquares g color); [congruence | reflexivity] |].
  unfold doubledPawns.
  assert (Hfilter : forall f (l : list (option ascii)), (length (filter f l) <= length l)%nat).
  { intros f l. induction l as [| x l IH]; [reflexivity |].
    cbn. destruct (f x); cbn; lia. }
  pose proof (Hfilter (fun f => match f with
                                | Some c => isIsolated (files g color) c
                                | None => false
                                end) (files g color)).
  repeat split; try lia.
  - intros Hzero.
    assert (Heq : length (files g color) = length (pawnFiles g color)) by lia.
    apply (@NoDup_incl_NoDup _ (files g color)); [exact Hnd | lia |].
    intros x Hx. apply Hin. exact Hx.
  - intros Hnodup.
    assert (length (pawnFiles g color) <= length (files g color))%nat.
    { apply NoDup_incl_length; [exact Hnodup |]. intros x Hx. apply Hin. exact Hx. }
    lia.
Qed.

End PositionalProperties.

Section PromptProperties.

Context {E : ChessEngine} {U : ChessUntyped E}.

Import ChessMove.

Local Open Scope string_scope.

Lemma startsWith_refl (s : string) : JS.startsWith s s = true.
Proof. induction s as [| c s IH]; [reflexivity |]. cbn. now rewrite Ascii.eqb_refl. Qed.

Lemma startsWith_append_l (a b p : string) :
  JS.startsWith a p = true -> JS.startsWith (a ++ b) p = true.
Proof.
  revert a. induction p as [| c p IH]; intros a H; [reflexivity |].
  destruct a as [| d a]; [discriminate |].
  cbn in *. apply Bool.andb_true_iff in H. destruct H as [H1 H2].
  now rewrite H1, (IH a H2).
Qed.

Lemma includes_append_l (a b sub : string) :
  JS.includes a sub = true -> JS.includes (a ++ b) sub = true.
Proof.
  induction a as [| c a IH]; intros H.
  - cbn in H. rewrite Bool.orb_false_r in H.
    destruct sub; [| discriminate]. destruct b; reflexivity.
  - cbn [JS.includes] in H. apply Bool.orb_true_iff in H.
    change (String c a ++ b) with (String c (a ++ b)). cbn [JS.includes].
    destruct H as [H | H].
    + change (String c (a ++ b)) with (String c a ++ b).
      now rewrite (startsWith_append_l _ b _ H).
    + rewrite (IH H). apply Bool.orb_true_r.
Qed.

Lemma includes_refl (s : string) : JS.includes s s = true.
Proof. destruct s; cbn [JS.includes]; now rewrite startsWith_refl. Qed.

Lemma includes_join (sep m : string) (l : list string) :
  In m l -> JS.includes (JS.join sep l) m = true.
Proof.
  unfold JS.join. induction l as [| x l IH]; [intros [] |].
  intros [-> | Hin].
  - destruct l as [| y l]; [apply includes_refl |].
    cbn [String.concat]. apply includes_append_l, includes_refl.
  - destruct l as [| y l]; [destruct Hin |].
    cbn [String.concat]. apply includes_append_r, includes_append_r. exact (IH Hin).
Qed.

Ltac find_part H :=
  repeat first [ apply includes_append_l; exact H | apply includes_append_r ].

(** X18.  The prompt that the chess-move endpoint builds for a FEN
    that the engine loads tells the model the position and its
    choices: the user text contains the FEN as it was posted, both
    texts contain every legal move that was passed in, and the
    system text names the side to move by its upper-case letter. *)
Theorem getChessPrompt_content (f : string) (g : Chess) (legalMoves : list string) :
  newChess f = inr g ->
  exists prompt,
    getChessPrompt f legalMoves = inr prompt /\
    JS.includes (user prompt) ("- Position: " ++ f) = true /\
    JS.includes (system prompt)
                ("You are playing as " ++ match turn g with WHITE => "W" | BLACK => "B" end)
    = true /\
    forall m, In m legalMoves ->
              JS.includes (system prompt) m = true /\ JS.includes (user prompt) m = true.
Proof.
  intros Hnew. unfold getChessPrompt. rewrite Hnew.
  eexists. split; [reflexivity |]. cbn [system user].
  split; [| split].
  - unfold userPrompt.
    apply includes_append_r, includes_append_r.
    rewrite <- append_assoc. apply includes_append_l, includes_refl.
  - unfold systemPrompt.
    apply includes_append_r, includes_append_r.
    change "    - You are playing as " with ("    - " ++ "You are playing as ").
    rewrite (append_assoc "    - "). apply includes_append_r.
    rewrite <- append_assoc. apply includes_append_l.
    destruct (turn g); apply includes_refl.
  - intros m Hin. pose proof (includes_join ", " m legalMoves Hin) as Hjoin.
    split.
    + unfold systemPrompt. find_part Hjoin.
    + unfold userPrompt. find_part Hjoin.
Qed.

End PromptProperties.

Section PositionalOnChessJs.

Local Existing Instance ChessJs.engine.
Local Existing Instance ChessJs.untyped.
Local Existing Instance chessjs_access.

Import Positions MorePositions ChessMove2 ChessMove2Position.

Local Open Scope string_scope.

Lemma index8 (k : nat) (z : Z) :
  nth_error [0; 1; 2; 3; 4; 5; 6; 7]%Z k = Some z -> z = Z.of_nat k /\ (k < 8)%nat.
Proof.
  do 8 (destruct k as [| k]; [intros H; injection H as <-; split; [reflexivity | lia] |]).
  destruct k; discriminate.
Qed.

Lemma squareOf_squareName (rankIdx fileIdx : nat) :
  (rankIdx < 8)%nat -> (fileIdx < 8)%nat ->
  ChessJs.squareOf (squareName fileIdx rankIdx)
  = Some (16 * Z.of_nat rankIdx + Z.of_nat fileIdx)%Z.
Proof.
  intros Hr Hf.
  do 8 (destruct rankIdx as [| rankIdx];
        [do 8 (destruct fileIdx as [| fileIdx]; [vm_compute; reflexivity |]); lia |]).
  lia.
Qed.

(** The reference engine: [get] and [board()] read the same array. *)
Lemma chessjs_board_matches_get (s : ChessJs.State) : BoardMatchesGet s.
Proof.
  intros rankIdx fileIdx rank_ Hrank Hsquare.
  change (nth_error (ChessJs.board s) rankIdx = Some rank_) in Hrank.
  change (chessjs_get s (squareName fileIdx rankIdx) = None).
  unfold ChessJs.board in Hrank. rewrite nth_error_map in Hrank.
  destruct (nth_error [0; 1; 2; 3; 4; 5; 6; 7]%Z rankIdx) as [r |] eqn:Hr; [| discriminate].
  cbn [option_map] in Hrank.
  pose proof (f_equal (fun o => match o with Some x => x | None => rank_ end) Hrank) as Hrow.
  cbv beta iota in Hrow. rewrite <- Hrow in Hsquare. clear Hrow Hrank.
  rewrite nth_error_map in Hsquare.
  destruct (nth_error [0; 1; 2; 3; 4; 5; 6; 7]%Z fileIdx) as [f |] eqn:Hf; [| discriminate].
  cbn [option_map] in Hsquare.
  destruct (index8 _ Hr) as [-> Hr8]. destruct (index8 _ Hf) as [-> Hf8].
  unfold chessjs_get. rewrite (squareOf_squareName Hr8 Hf8).
  destruct (ChessJs.get (ChessJs._board s) (16 * Z.of_nat rankIdx + Z.of_nat fileIdx));
    [discriminate | reflexivity].
Qed.

Lemma threats_one_sided_witness :
  let g := gameOf scandinavian in
  MoverColor g /\
  ourThreats g = ["Pe4 takes p on d5"; "Bf1 gives check to b5"] /\
  opponentThreats g = [] /\
  ourThreats g =
  map threatText
      (filter (fun m => isCaptured m || JS.includes (mv_san m) "+") (movesVerbose g)) /\
  immediateConsiderations g [] =
  (if isCheck g
   then bullet ++ " " ++ warningSign ++ " YOU ARE IN CHECK! You must get out of check." ++ nl
   else EmptyString) ++
  (match @nil HangingPiece with
   | _ :: _ =>
       bullet ++ " " ++ warningSign ++ " HANGING PIECES (save yours, capture opponent's):" ++
       nl ++ hangingPiecesInfo [] ++ nl
   | [] => EmptyString
   end) ++
  (match ourThreats g with
   | _ :: _ => bullet ++ " Your threats: " ++ JS.join ", " (ourThreats g) ++ nl
   | [] => EmptyString
   end) ++
  bullet ++ " " ++ phaseInstructions g.
Proof.
  intros g.
  refine (conj (chessjs_mover_color g) (conj _ _)).
  - vm_compute. reflexivity.
  - exact (@threats_one_sided _ g [] (chessjs_mover_color g)).
Defined.

Lemma identifyWeakSquares_finds_none_witness :
  let g := gameOf scandinavian in
  BoardMatchesGet g /\
  identifyWeakSquares g WHITE = "No obvious weak squares" /\
  identifyWeakSquares g BLACK = "No obvious weak squares".
Proof.
  intros g.
  exact (conj (chessjs_board_matches_get g)
              (conj (@identifyWeakSquares_finds_none _ _ g WHITE (chessjs_board_matches_get g))
                    (@identifyWeakSquares_finds_none _ _ g BLACK
                                                     (chessjs_board_matches_get g)))).
Defined.

Lemma evaluatePawnStructure_counts_witness :
  let g := gameOf doubled in
  (forall s, In s (pawnSquares g WHITE) -> s <> EmptyString) /\
  pawnSquares g WHITE = ["c4"; "c3"; "b2"; "h2"] /\
  evaluatePawnStructure g WHITE = inr "4 pawns, 1 doubled, 1 isolated" /\
  exists isolated : nat,
    isolatedPawns g WHITE = inr isolated /\
    evaluatePawnStructure g WHITE =
    inr (JS.showNat (length (pawnSquares g WHITE)) ++ " pawns, " ++
         JS.showNat (doubledPawns g WHITE) ++ " doubled, " ++
         JS.showNat isolated ++ " isolated") /\
    (doubledPawns g WHITE + length (files g WHITE) = length (pawnSquares g WHITE))%nat /\
    (doubledPawns g WHITE < length (pawnSquares g WHITE))%nat /\
    (doubledPawns g WHITE = 0%nat <-> NoDup (pawnFiles g WHITE)) /\
    (isolated + doubledPawns g WHITE <= length (pawnSquares g WHITE))%nat.
Proof.
  intros g.
  assert (Hpawns : pawnSquares g WHITE = ["c4"; "c3"; "b2"; "h2"]) by (vm_compute; reflexivity).
  assert (Hnamed : forall s, In s (pawnSquares g WHITE) -> s <> EmptyString).
  { intros s Hin. rewrite Hpawns in Hin.
    destruct Hin as [<- | [<- | [<- | [<- | []]]]]; discriminate. }
  assert (Hsome : pawnSquares g WHITE <> []) by (rewrite Hpawns; discriminate).
  refine (conj Hnamed (conj Hpawns (conj _ _))).
  - vm_compute. reflexivity.
  - exact (@evaluatePawnStructure_counts _ g WHITE Hnamed Hsome).
Defined.

Lemma evaluateBoard_colour_symmetry_witness :
  let g1 := gameOf pawnUp in
  let g2 := gameOf pawnDown in
  newChess pawnUp = inr g1 /\ newChess pawnDown = inr g2 /\
  board g2 = swapSides (board g1) /\
  isCheckmate g1 = false /\ isCheckmate g2 = false /\
  (isDraw g1 || isThreefoldRepetition g1 || isInsufficientMaterial g1)%bool = false /\
  (isDraw g2 || isThreefoldRepetition g2 || isInsufficientMaterial g2)%bool = false /\
  evaluateBoard g1 = inject_Z 1 /\
  evaluateBoard g2 = Qopp (evaluateBoard g1).
Proof.
  intros g1 g2.
  assert (Hboard : board g2 = swapSides (board g1)) by (vm_compute; reflexivity).
  assert (Hm1 : isCheckmate g1 = false) by (vm_compute; reflexivity).
  assert (Hm2 : isCheckmate g2 = false) by (vm_compute; reflexivity).
  assert (Hd1 : (isDraw g1 || isThreefoldRepetition g1 || isInsufficientMaterial g1)%bool
                = false) by (vm_compute; reflexivity).
  assert (Hd2 : (isDraw g2 || isThreefoldRepetition g2 || isInsufficientMaterial g2)%bool
                = false) by (vm_compute; reflexivity).
  refine (conj _ (conj _ (conj Hboard (conj Hm1 (conj Hm2 (conj Hd1 (conj Hd2 (conj _ _)))))))).
  - vm_compute. reflexivity.
  - vm_compute. reflexivity.
  - vm_compute. reflexivity.
  - exact (@evaluateBoard_colour_symmetry _ g1 g2 Hboard Hm1 Hm2 Hd1 Hd2).
Defined.

Lemma getChessPrompt_content_witness :
  let g := gameOf pawnEnding in
  newChess pawnEnding = inr g /\
  exists prompt,
    ChessMove.getChessPrompt pawnEnding (moves g) = inr prompt /\
    JS.includes (ChessMove.user prompt) ("- Position: " ++ pawnEnding) = true /\
    JS.includes (ChessMove.system prompt)
                ("You are playing as " ++ match turn g with WHITE => "W" | BLACK => "B" end)
    = true /\
    forall m, In m (moves g) ->
              JS.includes (ChessMove.system prompt) m = true /\
              JS.includes (ChessMove.user prompt) m = true.
Proof.
  intros g.
  assert (Hnew : newChess pawnEnding = inr g) by (vm_compute; reflexivity).
  exact (conj Hnew (@getChessPrompt_content _ pawnEnding g (moves g) Hnew)).
Defined.

End PositionalOnChessJs.
